(** * EdgeAI migration strategies: a shallow embedding of the simulator core

  The development follows the Python sources under [src/app]:
  - [energy_harvesting/harvester_battery.py]  (module [Battery])
  - [devices/base_device.py]                  (module [BaseDevice])
  - [devices/proactive_device.py]             (module [ProactiveDevice])
  - [simulations/simulation_proactive.py]     (module [ProactiveTick])
  - [runnables/ai_model.py]                   (module [AIModel])
  - [utils/config.py], [main.py]              (module [Config])
  - [energy_harvesting/harvester.py]          (module [HarvesterData])
  - [runnables/heartbeat_protocol.py]         (module [HeartbeatProtocol])
  - [runnables/loadbalancing.py]              (module [Loadbalancer])

  Numbers.  Python [int]s are [Z]; Python [float]s are modelled by exact
  rationals [Q], compared with the boolean tests of [QArith].  [round(x, 2)]
  is rounding to the nearest hundredth, ties to even, of the exact value;
  where the exact value is a decimal tie (0.005 Wh, the energy of 18 W over
  a tick) the float the code rounds lies beside the tie and the code may
  round the other way, so no statement below fixes the value at a tie.  The
  floats of a configuration also include [inf] and [nan] ([Config.number]).
  Dictionaries keyed by device id are [gmap Z _]; a missing key
  ([KeyError]) is [None]. *)

From Stdlib Require Import ZArith QArith Lia String.
From stdpp Require Import base option list gmap strings.

Local Open Scope Z_scope.

(** ** Python numerics on rationals *)

Module Py.

Local Open Scope Q_scope.

(** [a < b] on floats, as a boolean. *)
Definition Qlt_bool (a b : Q) : bool := negb (Qle_bool b a).

(** Python's [max(a, b)]: the first argument unless the second is larger. *)
Definition max (a b : Q) : Q := if Qlt_bool a b then b else a.

(** Python's [min(a, b)]: the first argument unless the second is smaller. *)
Definition min (a b : Q) : Q := if Qlt_bool b a then b else a.

(** Nearest integer, ties to even (the rounding mode of [round]). *)
Definition round_half_even (x : Q) : Z :=
  let n := Qnum x in
  let d := Zpos (Qden x) in
  let q := (n / d)%Z in
  let r := (n mod d)%Z in
  match (2 * r ?= d)%Z with
  | Lt => q
  | Gt => (q + 1)%Z
  | Eq => if Z.even q then q else (q + 1)%Z
  end.

(** [round(x, 2)]. *)
Definition round2 (x : Q) : Q := inject_Z (round_half_even (x * 100)) / 100.

End Py.

(** ** [energy_harvesting/harvester.py] and [harvester_battery.py] *)

Module Battery.

Import Py.
Local Open Scope Q_scope.

(** The harvester base class: per-device power traces and the tick index. *)
Record EnergyHarvester := mkEnergyHarvester {
  solar_energy : gmap Z (list Q);
  wind_energy : gmap Z (list Q);
  current_time : nat
}.

(** [HarvesterBattery(EnergyHarvester)]: the battery layer. *)
Record HarvesterBattery := mkHarvesterBattery {
  traces : EnergyHarvester;
  capacity_ah : Q;
  voltage : Q;
  efficiency : Q;
  max_capacity_wh : Q;
  bsoc : gmap Z Q;
  dod : Q;
  min_bsoc : Q
}.

Definition set_bsoc (h : HarvesterBattery) (m : gmap Z Q) : HarvesterBattery :=
  mkHarvesterBattery (traces h) (capacity_ah h) (voltage h) (efficiency h)
    (max_capacity_wh h) m (dod h) (min_bsoc h).

Definition set_traces (h : HarvesterBattery) (e : EnergyHarvester) : HarvesterBattery :=
  mkHarvesterBattery e (capacity_ah h) (voltage h) (efficiency h)
    (max_capacity_wh h) (bsoc h) (dod h) (min_bsoc h).

(** [HarvesterBattery.__init__]; the traces are loaded by the base class. *)
Definition init (e : EnergyHarvester) (device_ids : list Z)
    (ampere volts eff initial_charge depth_of_discharge : Q) : HarvesterBattery :=
  let max_cap := round2 (ampere * volts) in
  mkHarvesterBattery e ampere volts eff max_cap
    (list_to_map (map (fun device_id => (device_id, round2 (max_cap * initial_charge))) device_ids))
    depth_of_discharge
    (round2 (max_cap * depth_of_discharge)).

(** [get_energy]: the (solar, wind) pair of the current tick. *)
Definition get_energy_of (e : EnergyHarvester) (device_id : Z) : option (Q * Q) :=
  s ← solar_energy e !! device_id;
  sv ← s !! current_time e;
  w ← wind_energy e !! device_id;
  wv ← w !! current_time e;
  Some (round2 sv, round2 wv).

Definition get_energy (h : HarvesterBattery) (device_id : Z) : option (Q * Q) :=
  get_energy_of (traces h) device_id.

Definition get_bsoc (h : HarvesterBattery) (device_id : Z) : option Q :=
  v ← bsoc h !! device_id; Some (round2 v).

Definition get_max_capacity (h : HarvesterBattery) : Q := round2 (max_capacity_wh h).

Definition get_min_bsoc (h : HarvesterBattery) : Q := round2 (min_bsoc h).

(** [charge_battery]. *)
Definition charge_battery (h : HarvesterBattery) (device_id : Z) : option HarvesterBattery :=
  energy_data ← get_energy h device_id;
  let harvested_power := max (fst energy_data) (snd energy_data) in
  let energy_added_wh := round2 ((harvested_power * 1) / 3600) in
  let energy_added_wh := round2 (energy_added_wh * efficiency h) in
  current_energy ← bsoc h !! device_id;
  Some (set_bsoc h
          (<[device_id := min (current_energy + energy_added_wh) (max_capacity_wh h)]> (bsoc h))).

(** [consume_energy]: the returned flag and the harvester after the call. *)
Definition consume_energy (h : HarvesterBattery) (device_id : Z) (required_power_w : Q)
    : option (bool * HarvesterBattery) :=
  let required_energy_wh := round2 ((required_power_w * 1) / 3600) in
  cur ← bsoc h !! device_id;
  if Qle_bool (min_bsoc h) cur then
    let new := cur - required_energy_wh in
    let h' := set_bsoc h (<[device_id := new]> (bsoc h)) in
    if Qlt_bool new (min_bsoc h) then Some (false, h') else Some (true, h')
  else Some (false, h).

Definition next_timestep_of (e : EnergyHarvester) : EnergyHarvester :=
  mkEnergyHarvester (solar_energy e) (wind_energy e) (S (current_time e)).

Definition next_timestep (h : HarvesterBattery) : HarvesterBattery :=
  set_traces h (next_timestep_of (traces h)).

(** A battery with no trace data, used for closed examples. *)
Definition no_traces : EnergyHarvester := mkEnergyHarvester ∅ ∅ 0.

(** A device with a dark, windless trace of the given length. *)
Definition dark_traces (device_id : Z) (n : nat) : EnergyHarvester :=
  mkEnergyHarvester {[device_id := repeat 0 n]} {[device_id := repeat 0 n]} 0.

(** The operations a tick applies to one device's battery slot. *)
Inductive op := Charge | Consume (required_power_w : Q).

Definition nonneg_draw (o : op) : Prop :=
  match o with
  | Charge => True
  | Consume p => 0 <= p
  end.

Definition apply_op (h : HarvesterBattery) (device_id : Z) (o : op) : option HarvesterBattery :=
  match o with
  | Charge => charge_battery h device_id
  | Consume p => snd <$> consume_energy h device_id p
  end.

Fixpoint run_ops (h : HarvesterBattery) (device_id : Z) (os : list op) : option HarvesterBattery :=
  match os with
  | [] => Some h
  | o :: os' => h' ← apply_op h device_id o; run_ops h' device_id os'
  end.

(** One tick of the battery as [_modify_power_with_battery] drives it,
    followed by the tick advance of the scheduler. *)
Definition battery_tick (h : HarvesterBattery) (device_id : Z) (required_power_w : Q)
    : option HarvesterBattery :=
  h1 ← charge_battery h device_id;
  r ← consume_energy h1 device_id required_power_w;
  Some (next_timestep (snd r)).

Fixpoint battery_ticks (n : nat) (h : HarvesterBattery) (device_id : Z) (required_power_w : Q)
    : option HarvesterBattery :=
  match n with
  | O => Some h
  | S n' => h' ← battery_tick h device_id required_power_w;
            battery_ticks n' h' device_id required_power_w
  end.

End Battery.

(** ** The data model: services, transfer records, devices *)

Module Model.

Import Battery.

(** [status["state"]] of a device. *)
Inductive State := on | critical | off.

(** [power_source] of a device. *)
Inductive PowerSource := solar | wind | battery | none.

(** [state] of a service. *)
Inductive ServiceState := idle | running | stopped.

#[export] Instance State_eq_dec : EqDecision State.
Proof. solve_decision. Defined.
#[export] Instance PowerSource_eq_dec : EqDecision PowerSource.
Proof. solve_decision. Defined.
#[export] Instance ServiceState_eq_dec : EqDecision ServiceState.
Proof. solve_decision. Defined.

(** A service object; [server] holds the id of [service.server]. *)
Record Service := mkService {
  sid : Z;
  server : Z;
  sstate : ServiceState;
  trained : bool;
  max_training_time : Z;
  actual_training_time : Z;
  max_prediction_time : Z;
  actual_prediction_time : Z;
  predictions_counter : Z;
  program_counter : Z
}.

#[export] Instance Service_eq_dec : EqDecision Service.
Proof. solve_decision. Defined.

(** The [transfer_model] dictionary of a device.  A missing
    [transfer_service_ids] key reads as the empty list (the code reads it
    with [.get(..., [])]). *)
Record TransferModel := mkTransferModel {
  transfer : bool;
  transfer_duration : Z;
  transfer_time : Z;
  transfer_service_ids : list Z;
  transfer_to_device_id : Z;
  transfer_from_device_id : Z;
  transfer_failed : Z;
  transfer_succeded : Z
}.

(** A device (an [EdgeServer] of the host framework). *)
Record Device := mkDevice {
  id : Z;
  model_type : string;
  cpu_cores : Z;
  reserved_cpu_cores : Z;
  services : list Service;
  state : State;
  active : bool;
  actual_power : Q;
  power_source : PowerSource;
  temperature_measurement : list (Z * Z);
  transfer_model : TransferModel
}.

(** The harvester handed to the device classes: with or without battery
    ([isinstance(harvester, HarvesterBattery)]). *)
Inductive Harvester :=
| Plain (e : EnergyHarvester)
| WithBattery (b : HarvesterBattery).

(** Field assignments. *)
Definition set_server (s : Service) (owner : Z) : Service :=
  mkService (sid s) owner (sstate s) (trained s) (max_training_time s)
    (actual_training_time s) (max_prediction_time s) (actual_prediction_time s)
    (predictions_counter s) (program_counter s).

Definition set_transfer (t : TransferModel) (b : bool) : TransferModel :=
  mkTransferModel b (transfer_duration t) (transfer_time t) (transfer_service_ids t)
    (transfer_to_device_id t) (transfer_from_device_id t) (transfer_failed t)
    (transfer_succeded t).

Definition set_transfer_duration (t : TransferModel) (n : Z) : TransferModel :=
  mkTransferModel (transfer t) n (transfer_time t) (transfer_service_ids t)
    (transfer_to_device_id t) (transfer_from_device_id t) (transfer_failed t)
    (transfer_succeded t).

Definition set_transfer_service_ids (t : TransferModel) (l : list Z) : TransferModel :=
  mkTransferModel (transfer t) (transfer_duration t) (transfer_time t) l
    (transfer_to_device_id t) (transfer_from_device_id t) (transfer_failed t)
    (transfer_succeded t).

Definition set_transfer_to_device_id (t : TransferModel) (n : Z) : TransferModel :=
  mkTransferModel (transfer t) (transfer_duration t) (transfer_time t)
    (transfer_service_ids t) n (transfer_from_device_id t) (transfer_failed t)
    (transfer_succeded t).

Definition set_transfer_from_device_id (t : TransferModel) (n : Z) : TransferModel :=
  mkTransferModel (transfer t) (transfer_duration t) (transfer_time t)
    (transfer_service_ids t) (transfer_to_device_id t) n (transfer_failed t)
    (transfer_succeded t).

Definition set_transfer_failed (t : TransferModel) (n : Z) : TransferModel :=
  mkTransferModel (transfer t) (transfer_duration t) (transfer_time t)
    (transfer_service_ids t) (transfer_to_device_id t) (transfer_from_device_id t) n
    (transfer_succeded t).

Definition set_transfer_succeded (t : TransferModel) (n : Z) : TransferModel :=
  mkTransferModel (transfer t) (transfer_duration t) (transfer_time t)
    (transfer_service_ids t) (transfer_to_device_id t) (transfer_from_device_id t)
    (transfer_failed t) n.

Definition set_services (d : Device) (l : list Service) : Device :=
  mkDevice (id d) (model_type d) (cpu_cores d) (reserved_cpu_cores d) l (state d)
    (active d) (actual_power d) (power_source d) (temperature_measurement d)
    (transfer_model d).

Definition set_status (d : Device) (s : State) (a : bool) : Device :=
  mkDevice (id d) (model_type d) (cpu_cores d) (reserved_cpu_cores d) (services d) s a
    (actual_power d) (power_source d) (temperature_measurement d) (transfer_model d).

Definition set_power (d : Device) (p : Q) (src : PowerSource) : Device :=
  mkDevice (id d) (model_type d) (cpu_cores d) (reserved_cpu_cores d) (services d)
    (state d) (active d) p src (temperature_measurement d) (transfer_model d).

Definition set_temperature_measurement (d : Device) (l : list (Z * Z)) : Device :=
  mkDevice (id d) (model_type d) (cpu_cores d) (reserved_cpu_cores d) (services d)
    (state d) (active d) (actual_power d) (power_source d) l (transfer_model d).

Definition set_transfer_model (d : Device) (t : TransferModel) : Device :=
  mkDevice (id d) (model_type d) (cpu_cores d) (reserved_cpu_cores d) (services d)
    (state d) (active d) (actual_power d) (power_source d) (temperature_measurement d) t.

(** [device.transfer_model[key] = v], through a field assignment. *)
Definition upd_tm (d : Device) (f : TransferModel -> TransferModel) : Device :=
  set_transfer_model d (f (transfer_model d)).

End Model.

(** ** [devices/base_device.py] *)

Module BaseDevice.

Import Py Battery Model.
Local Open Scope Q_scope.

Definition _modify_state_without_battery (edge_device : Device) (min_power_required : Q)
    : Device :=
  if Qlt_bool min_power_required (actual_power edge_device) then
    set_status edge_device on true
  else if Qlt_bool 0 (actual_power edge_device)
          && Qle_bool (actual_power edge_device) min_power_required then
    set_status edge_device critical true
  else
    set_status edge_device off false.

Definition _modify_state_with_battery (edge_device : Device) (harvester : HarvesterBattery)
    : option Device :=
  if Qlt_bool 0 (actual_power edge_device) then
    soc ← get_bsoc harvester (id edge_device);
    if Qle_bool (get_max_capacity harvester * 0.4) soc then
      Some (set_status edge_device on true)
    else if Qle_bool (get_min_bsoc harvester) soc
            && Qlt_bool soc (get_max_capacity harvester * 0.4) then
      Some (set_status edge_device critical true)
    else
      Some edge_device
  else
    Some (set_status edge_device off false).

Definition modify_state (edge_device : Device) (harvester : Harvester)
    (min_power_required : Q) : option Device :=
  match harvester with
  | WithBattery b => _modify_state_with_battery edge_device b
  | Plain _ => Some (_modify_state_without_battery edge_device min_power_required)
  end.

Definition _get_highest_available_power (device_id : Z) (harvester : EnergyHarvester)
    : option (Q * PowerSource) :=
  available_power ← get_energy_of harvester device_id;
  let '(actual, src) :=
    if Qlt_bool (snd available_power) (fst available_power)
    then (fst available_power, solar)
    else (snd available_power, wind) in
  Some (actual, if Qeq_bool actual 0 then none else src).

Definition _modify_power_without_battery (edge_device : Device) (harvester : EnergyHarvester)
    : option Device :=
  r ← _get_highest_available_power (id edge_device) harvester;
  Some (set_power edge_device (fst r) (snd r)).

Definition _modify_power_with_battery (edge_device : Device) (harvester : HarvesterBattery)
    (required_power : Q) : option (Device * HarvesterBattery) :=
  let device_id := id edge_device in
  h1 ← charge_battery harvester device_id;
  '(success, h2) ← consume_energy h1 device_id required_power;
  Some (set_power edge_device (if success : bool then required_power else 0) battery, h2).

Definition modify_power (edge_device : Device) (harvester : Harvester) (required_power : Q)
    : option (Device * Harvester) :=
  match harvester with
  | WithBattery b =>
      r ← _modify_power_with_battery edge_device b required_power;
      Some (fst r, WithBattery (snd r))
  | Plain e =>
      d ← _modify_power_without_battery edge_device e;
      Some (d, Plain e)
  end.

Local Open Scope Z_scope.

Definition update_transfer_duration (device : Device) : bool * Device :=
  let device := upd_tm device (fun t => set_transfer_duration t (transfer_duration t + 1)) in
  if transfer_time (transfer_model device) <=? transfer_duration (transfer_model device)
  then (true, device)
  else (false, device).

Definition reset_transfer_state (device : Device) : Device :=
  upd_tm (upd_tm device (fun t => set_transfer t false))
         (fun t => set_transfer_duration t 0).

Definition start_transfer (device : Device) : Device :=
  upd_tm (upd_tm device (fun t => set_transfer t true))
         (fun t => set_transfer_duration t 0).

Definition assign_transfer_id_to_edge_device (edge_device : Device) (server_id : Z) : Device :=
  upd_tm edge_device (fun t => set_transfer_from_device_id t server_id).

Definition assign_transfer_id_to_server (edge_device : Device) (server_id : Z) : Device :=
  upd_tm edge_device (fun t => set_transfer_to_device_id t server_id).

Definition reset_transfer_id_to_server (edge_device : Device) : Device :=
  upd_tm edge_device (fun t => set_transfer_to_device_id t 0).

Definition reset_transfer_id_to_edge_device (edge_device : Device) : Device :=
  upd_tm edge_device (fun t => set_transfer_from_device_id t 0).

Definition transfer_failed (edge_device : Device) : bool :=
  if transfer_time (transfer_model edge_device)
       <=? transfer_duration (transfer_model edge_device)
  then false
  else if Qeq_bool (actual_power edge_device) 0 then true
  else false.

(** [list.remove(x)]: drop the first occurrence. *)
Fixpoint remove_first (x : Service) (l : list Service) : list Service :=
  match l with
  | [] => []
  | y :: l' => if decide (x = y) then l' else y :: remove_first x l'
  end.

(** Both moves return the pair (edge device, server) after the call. *)
Definition assign_service_edge_device_to_server (edge_device srv : Device)
    (service : Service) : Device * Device :=
  if decide (service ∈ services edge_device) then
    (set_services edge_device (remove_first service (services edge_device)),
     set_services srv (services srv ++ [set_server service (id srv)]))
  else (edge_device, srv).

Definition assign_service_server_to_edge_device (srv edge_device : Device)
    (service : Service) : Device * Device :=
  if decide (service ∈ services srv) then
    (set_services edge_device
       (services edge_device ++ [set_server service (id edge_device)]),
     set_services srv (remove_first service (services srv)))
  else (edge_device, srv).

Definition assign_data_to_server (edge_device srv : Device) : Device * Device :=
  (set_temperature_measurement edge_device [],
   set_temperature_measurement srv
     (temperature_measurement srv ++ temperature_measurement edge_device)).

Definition assign_data_to_edge_device (srv edge_device : Device) : Device * Device :=
  (set_temperature_measurement edge_device
     (temperature_measurement edge_device ++ temperature_measurement srv),
   set_temperature_measurement srv []).

End BaseDevice.

(** ** [devices/proactive_device.py] *)

Module ProactiveDevice.

Import Py Battery Model BaseDevice.

(** [offloading], validated by [Config.validate] to be one of these. *)
Inductive Offloading := model | data.

(** An entry [{"success": ..., "edge_device_id": ...}] of the result list. *)
Definition Result : Type := bool * Z.

Local Open Scope Q_scope.

Definition _get_low_power (edge_device : Device) (min_power_required : Q) : bool :=
  if Qle_bool min_power_required (actual_power edge_device) then false else true.

Definition _get_low_battery_power (edge_device : Device) (min_power_required : Q)
    (harvester : HarvesterBattery) : option bool :=
  soc ← get_bsoc harvester (id edge_device);
  let min_power_required_wh := round2 (min_power_required * (1 / 3600)) in
  if Qle_bool min_power_required_wh soc
     && Qlt_bool (get_max_capacity harvester * 0.4) soc
  then Some false
  else Some true.

Definition _get_high_power (edge_device : Device) (min_power_required : Q) : bool :=
  if Qle_bool min_power_required (actual_power edge_device) then true else false.

Definition _get_high_battery_power (edge_device : Device) (harvester : HarvesterBattery)
    (min_power_required : Q) : option bool :=
  soc ← get_bsoc harvester (id edge_device);
  let min_power_required_wh := min_power_required * (1 / 3600) in
  if Qle_bool min_power_required_wh soc
     && Qlt_bool (get_max_capacity harvester * 0.4) soc
  then Some true
  else Some false.

(** The two trigger tests, dispatched on the harvester class. *)
Definition low_power_trigger (edge_device : Device) (min_power_required : Q)
    (harvester : Harvester) : option bool :=
  match harvester with
  | WithBattery b => _get_low_battery_power edge_device min_power_required b
  | Plain _ => Some (_get_low_power edge_device min_power_required)
  end.

Definition high_power_trigger (edge_device : Device) (min_power_required : Q)
    (harvester : Harvester) : option bool :=
  match harvester with
  | WithBattery b => _get_high_battery_power edge_device b min_power_required
  | Plain _ => Some (_get_high_power edge_device min_power_required)
  end.

Local Open Scope Z_scope.

(** Every function below returns the value the Python function returns
    together with the objects it mutated. *)

Definition _transfer_model_to_server (edge_device srv : Device) (min_power_required : Q)
    (harvester : Harvester) : option (bool * Device) :=
  if transfer (transfer_model edge_device) then Some (false, edge_device)
  else
    transfer_initiate ← low_power_trigger edge_device min_power_required harvester;
    if transfer_initiate : bool then
      let services_to_transfer := map sid (services edge_device) in
      let edge_device :=
        upd_tm edge_device (fun t => set_transfer_service_ids t services_to_transfer) in
      let edge_device := start_transfer edge_device in
      let edge_device := assign_transfer_id_to_server edge_device (id srv) in
      Some (false, edge_device)
    else Some (false, edge_device).

Definition _update_ongoing_transfers_to_server (edge_device srv : Device)
    : Device * Device :=
  if BaseDevice.transfer_failed edge_device then
    let edge_device := reset_transfer_state edge_device in
    let edge_device := reset_transfer_id_to_server edge_device in
    let edge_device := upd_tm edge_device (fun t => set_transfer_service_ids t []) in
    let edge_device :=
      upd_tm edge_device (fun t => set_transfer_failed t (Model.transfer_failed t + 1)) in
    (edge_device, srv)
  else
    let '(completed, edge_device) := update_transfer_duration edge_device in
    if completed : bool then
      let service_ids := transfer_service_ids (transfer_model edge_device) in
      let services_to_assign :=
        filter (fun s => sid s ∈ service_ids) (services edge_device) in
      let '(edge_device, srv) :=
        foldl (fun '(e, s) service => assign_service_edge_device_to_server e s service)
              (edge_device, srv) services_to_assign in
      let edge_device :=
        set_services edge_device
          (filter (fun s => sid s ∉ service_ids) (services edge_device)) in
      let edge_device := reset_transfer_state edge_device in
      let edge_device := reset_transfer_id_to_server edge_device in
      let edge_device := upd_tm edge_device (fun t => set_transfer_service_ids t []) in
      let edge_device :=
        upd_tm edge_device (fun t => set_transfer_succeded t (transfer_succeded t + 1)) in
      (edge_device, srv)
    else (edge_device, srv).

Definition _transfer_model_to_edge_device (srv edge_device : Device) (harvester : Harvester)
    (services : list Service) (min_power_required : Q) : option (bool * Device) :=
  if transfer (transfer_model edge_device) then Some (false, edge_device)
  else
    transfer_initiate ← high_power_trigger edge_device min_power_required harvester;
    if transfer_initiate : bool then
      let edge_device :=
        upd_tm edge_device (fun t => set_transfer_service_ids t (map sid services)) in
      let edge_device := start_transfer edge_device in
      let edge_device := assign_transfer_id_to_edge_device edge_device (id srv) in
      Some (false, edge_device)
    else Some (false, edge_device).

Definition _update_ongoing_transfers_to_device (edge_device srv : Device)
    : Device * Device :=
  if BaseDevice.transfer_failed edge_device then
    let edge_device := reset_transfer_state edge_device in
    let edge_device := reset_transfer_id_to_edge_device edge_device in
    let edge_device := upd_tm edge_device (fun t => set_transfer_service_ids t []) in
    let srv := upd_tm srv (fun t => set_transfer_failed t (Model.transfer_failed t + 1)) in
    (edge_device, srv)
  else
    let '(completed, edge_device) := update_transfer_duration edge_device in
    if completed : bool then
      let service_ids := transfer_service_ids (transfer_model edge_device) in
      let services_to_assign :=
        filter (fun s => sid s ∈ service_ids) (services srv) in
      let '(edge_device, srv) :=
        foldl (fun '(e, s) service => assign_service_server_to_edge_device s e service)
              (edge_device, srv) services_to_assign in
      let srv :=
        set_services srv (filter (fun s => sid s ∉ service_ids) (services srv)) in
      let edge_device := reset_transfer_state edge_device in
      let edge_device := reset_transfer_id_to_edge_device edge_device in
      let edge_device := upd_tm edge_device (fun t => set_transfer_service_ids t []) in
      let srv := upd_tm srv (fun t => set_transfer_succeded t (transfer_succeded t + 1)) in
      (edge_device, srv)
    else (edge_device, srv).

(** The body of the loop of [_update_ongoing_transfers_model] for one
    device: the upload check, then the download check on the device as the
    first check left it. *)
Definition update_ongoing_model_step (edge_device srv : Device) : Device * Device :=
  let '(edge_device, srv) :=
    if transfer (transfer_model edge_device)
       && negb (transfer_to_device_id (transfer_model edge_device) =? 0)
    then _update_ongoing_transfers_to_server edge_device srv
    else (edge_device, srv) in
  if transfer (transfer_model edge_device)
     && negb (transfer_from_device_id (transfer_model edge_device) =? 0)
  then _update_ongoing_transfers_to_device edge_device srv
  else (edge_device, srv).

(** [_update_ongoing_transfers_model].  The server object also sits in the
    Python list; the strategy never sets its own transfer flag, so its turn
    in the loop does nothing, and the model keeps it apart from the list of
    the other devices. *)
Fixpoint _update_ongoing_transfers_model (all_edge_devices : list Device) (srv : Device)
    : list Device * Device :=
  match all_edge_devices with
  | [] => ([], srv)
  | edge_device :: rest =>
      let '(edge_device, srv) := update_ongoing_model_step edge_device srv in
      let '(rest, srv) := _update_ongoing_transfers_model rest srv in
      (edge_device :: rest, srv)
  end.

(** The update pass of [n] consecutive ticks on one device whose power and
    transfer record nothing else touches in between. *)
Fixpoint update_ongoing_model_steps (n : nat) (edge_device srv : Device) : Device * Device :=
  match n with
  | O => (edge_device, srv)
  | S n' =>
      let '(edge_device, srv) := update_ongoing_model_step edge_device srv in
      update_ongoing_model_steps n' edge_device srv
  end.

Definition _transfer_data_to_server (edge_device srv : Device) (harvester : Harvester)
    (min_power_required : Q) : option (bool * Device) :=
  if transfer (transfer_model edge_device) then Some (false, edge_device)
  else
    transfer_initiate ← low_power_trigger edge_device min_power_required harvester;
    if transfer_initiate : bool then
      let edge_device := start_transfer edge_device in
      let edge_device := assign_transfer_id_to_server edge_device (id srv) in
      Some (false, edge_device)
    else Some (false, edge_device).

Definition _transfer_data_to_edge_device (srv edge_device : Device) (harvester : Harvester)
    (min_power_required : Q) : option (bool * Device) :=
  if transfer (transfer_model edge_device) then Some (false, edge_device)
  else
    transfer_initiate ← low_power_trigger edge_device min_power_required harvester;
    if transfer_initiate : bool then
      let edge_device := start_transfer edge_device in
      let edge_device := assign_transfer_id_to_edge_device edge_device (id srv) in
      Some (false, edge_device)
    else Some (false, edge_device).

Definition _update_ongoing_data_transfer_to_server (edge_device srv : Device)
    : Device * Device :=
  if BaseDevice.transfer_failed edge_device then
    let edge_device := reset_transfer_state edge_device in
    let edge_device := reset_transfer_id_to_server edge_device in
    let edge_device :=
      upd_tm edge_device (fun t => set_transfer_failed t (Model.transfer_failed t + 1)) in
    (edge_device, srv)
  else
    let '(completed, edge_device) := update_transfer_duration edge_device in
    if completed : bool then
      let '(edge_device, srv) := assign_data_to_server edge_device srv in
      let edge_device := reset_transfer_state edge_device in
      let edge_device := reset_transfer_id_to_server edge_device in
      let edge_device :=
        upd_tm edge_device (fun t => set_transfer_succeded t (transfer_succeded t + 1)) in
      (edge_device, srv)
    else (edge_device, srv).

Definition _update_ongoing_data_transfer_to_edge_device (srv edge_device : Device)
    : Device * Device :=
  if BaseDevice.transfer_failed edge_device then
    let edge_device := reset_transfer_state edge_device in
    let edge_device := reset_transfer_id_to_edge_device edge_device in
    let srv := upd_tm srv (fun t => set_transfer_failed t (Model.transfer_failed t + 1)) in
    (edge_device, srv)
  else
    let '(completed, edge_device) := update_transfer_duration edge_device in
    if completed : bool then
      let '(edge_device, srv) := assign_data_to_edge_device srv edge_device in
      let edge_device := reset_transfer_state edge_device in
      let edge_device := reset_transfer_id_to_edge_device edge_device in
      let srv := upd_tm srv (fun t => set_transfer_succeded t (transfer_succeded t + 1)) in
      (edge_device, srv)
    else (edge_device, srv).

(** The loop body of [_update_ongoing_transfers_data] for one device. *)
Definition update_ongoing_data_step (edge_device srv : Device) : Device * Device :=
  let '(edge_device, srv) :=
    if transfer (transfer_model edge_device)
       && negb (transfer_to_device_id (transfer_model edge_device) =? 0)
    then _update_ongoing_data_transfer_to_server edge_device srv
    else (edge_device, srv) in
  if transfer (transfer_model edge_device)
     && negb (transfer_from_device_id (transfer_model edge_device) =? 0)
  then _update_ongoing_data_transfer_to_edge_device srv edge_device
  else (edge_device, srv).

Fixpoint _update_ongoing_transfers_data (all_edge_devices : list Device) (srv : Device)
    : list Device * Device :=
  match all_edge_devices with
  | [] => ([], srv)
  | edge_device :: rest =>
      let '(edge_device, srv) := update_ongoing_data_step edge_device srv in
      let '(rest, srv) := _update_ongoing_transfers_data rest srv in
      (edge_device :: rest, srv)
  end.

Definition update_ongoing_transfers (offloading : Offloading) (all_devices : list Device)
    (srv : Device) : list Device * Device :=
  match offloading with
  | model => _update_ongoing_transfers_model all_devices srv
  | data => _update_ongoing_transfers_data all_devices srv
  end.

(** [transfer_to_server]; the returned flag is [None] where the Python
    function falls off its end. *)
Definition transfer_to_server (edge_device srv : Device) (min_power_required : Q)
    (offloading : Offloading) (harvester : Harvester) : option (option bool * Device) :=
  match offloading with
  | model =>
      '(r, d) ← _transfer_model_to_server edge_device srv min_power_required harvester;
      Some (Some r, d)
  | data =>
      if 0 <? Z.of_nat (length (temperature_measurement edge_device)) then
        '(r, d) ← _transfer_data_to_server edge_device srv harvester min_power_required;
        Some (Some r, d)
      else Some (None, edge_device)
  end.

(** The ids pinned on any device before the download pass starts
    ([transferring_service_ids]). *)
Definition transferring_ids (all_edge_devices : list Device) : gset Z :=
  foldl (fun acc device => acc ∪ list_to_set (transfer_service_ids (transfer_model device)))
        ∅ all_edge_devices.

(** [for service in assignable_services: services_to_transfer.remove(service)]. *)
Definition remove_each (assignable services_to_transfer : list Service) : list Service :=
  foldl (fun acc service => remove_first service acc) services_to_transfer assignable.

(** One turn of the download loop of [transfer_to_edge_device] (model
    offloading).  The loop state is the device of this turn, the local list
    [services_to_transfer] and the [results] list. *)
Definition download_turn (srv : Device) (harvester : Harvester) (min_power_required : Q)
    (loadbalancing : bool) (transferring_service_ids : gset Z)
    (edge_device : Device) (services_to_transfer : list Service) (results : list Result)
    : option (Device * list Service * list Result) :=
  let skip := Some (edge_device, services_to_transfer, results) in
  if negb (String.eqb (model_type edge_device) "edge_device")
     || negb (bool_decide (state edge_device = on))
  then skip
  else
    let device_slots :=
      cpu_cores edge_device - reserved_cpu_cores edge_device
      - Z.of_nat (length (services edge_device)) in
    let free_slots := if loadbalancing then Z.max 0 device_slots else 1 in
    if (if loadbalancing then free_slots <=? 0
        else negb (bool_decide (services edge_device = [])))
    then skip
    else
      let assignable_services :=
        take (Z.to_nat free_slots)
             (filter (fun s => sid s ∉ transferring_service_ids) services_to_transfer) in
      match assignable_services with
      | [] => skip
      | _ =>
          '(transfer_result, edge_device) ←
            _transfer_model_to_edge_device srv edge_device harvester
              assignable_services min_power_required;
          if transfer_result : bool then
            Some (edge_device,
                  remove_each assignable_services services_to_transfer,
                  results ++ [(true, id edge_device)])
          else Some (edge_device, services_to_transfer, results)
      end.

Fixpoint download_loop (srv : Device) (harvester : Harvester) (min_power_required : Q)
    (loadbalancing : bool) (transferring_service_ids : gset Z)
    (all_edge_devices : list Device) (services_to_transfer : list Service)
    (results : list Result) : option (list Device * list Service * list Result) :=
  match all_edge_devices with
  | [] => Some ([], services_to_transfer, results)
  | edge_device :: rest =>
      '(edge_device, services_to_transfer, results) ←
        download_turn srv harvester min_power_required loadbalancing
          transferring_service_ids edge_device services_to_transfer results;
      '(rest, services_to_transfer, results) ←
        download_loop srv harvester min_power_required loadbalancing
          transferring_service_ids rest services_to_transfer results;
      Some (edge_device :: rest, services_to_transfer, results)
  end.

(** One turn of the data loop of [transfer_to_edge_device]. *)
Definition data_turn (srv : Device) (harvester : Harvester) (min_power_required : Q)
    (edge_device : Device) (results : list Result) : option (Device * list Result) :=
  if String.eqb (model_type edge_device) "edge_device"
     && bool_decide (state edge_device = on)
     && (Z.of_nat (length (temperature_measurement edge_device)) =? 0)
  then
    '(transfer_result, edge_device) ←
      _transfer_data_to_edge_device srv edge_device harvester min_power_required;
    if transfer_result : bool then Some (edge_device, results ++ [(true, id edge_device)])
    else Some (edge_device, results)
  else Some (edge_device, results).

Fixpoint data_loop (srv : Device) (harvester : Harvester) (min_power_required : Q)
    (all_edge_devices : list Device) (results : list Result)
    : option (list Device * list Result) :=
  match all_edge_devices with
  | [] => Some ([], results)
  | edge_device :: rest =>
      '(edge_device, results) ←
        data_turn srv harvester min_power_required edge_device results;
      '(rest, results) ← data_loop srv harvester min_power_required rest results;
      Some (edge_device :: rest, results)
  end.

(** [transfer_to_edge_device]: the returned [results] and the device list
    after the pass.  Only the id and the measurement buffer of the server
    are read, and the pass does not change them. *)
Definition transfer_to_edge_device (srv : Device) (all_edge_devices : list Device)
    (harvester : Harvester) (all_services : list Service) (min_power_required : Q)
    (offloading : Offloading) (loadbalancing : bool)
    : option (list Result * list Device) :=
  match offloading with
  | model =>
      let services_to_transfer :=
        filter (fun s => server s = id srv) all_services in
      let transferring_service_ids := transferring_ids all_edge_devices in
      '(devices, _, results) ←
        download_loop srv harvester min_power_required loadbalancing
          transferring_service_ids all_edge_devices services_to_transfer [];
      Some (results, devices)
  | data =>
      if 0 <? Z.of_nat (length (temperature_measurement srv)) then
        '(devices, results) ←
          data_loop srv harvester min_power_required all_edge_devices [];
        Some (results, devices)
      else Some ([], all_edge_devices)
  end.

(** The device after a failed upload, and after a failed download. *)
Definition after_failed_upload (d : Device) : Device :=
  let t := transfer_model d in
  set_transfer_model d
    (mkTransferModel false 0 (transfer_time t) [] 0 (transfer_from_device_id t)
       (Model.transfer_failed t + 1) (transfer_succeded t)).

Definition after_failed_download (d : Device) : Device :=
  let t := transfer_model d in
  set_transfer_model d
    (mkTransferModel false 0 (transfer_time t) [] (transfer_to_device_id t) 0
       (Model.transfer_failed t) (transfer_succeded t)).

Definition count_failure (srv : Device) : Device :=
  upd_tm srv (fun t => set_transfer_failed t (Model.transfer_failed t + 1)).

(** The devices of a list whose trigger test would raise. *)
Definition unknown_to (harvester : Harvester) (min_power_required : Q)
    (low : bool) (all_edge_devices : list Device) : Prop :=
  exists d, d ∈ all_edge_devices
            /\ (if low then low_power_trigger d min_power_required harvester
                else high_power_trigger d min_power_required harvester) = None.

End ProactiveDevice.

(** ** [runnables/ai_model.py] *)

Module AIModel.

Import Model.
Local Open Scope Z_scope.

Definition set_sstate (s : Service) (st : ServiceState) : Service :=
  mkService (sid s) (server s) st (trained s) (max_training_time s)
    (actual_training_time s) (max_prediction_time s) (actual_prediction_time s)
    (predictions_counter s) (program_counter s).

Definition set_trained (s : Service) (b : bool) : Service :=
  mkService (sid s) (server s) (sstate s) b (max_training_time s)
    (actual_training_time s) (max_prediction_time s) (actual_prediction_time s)
    (predictions_counter s) (program_counter s).

Definition set_actual_training_time (s : Service) (n : Z) : Service :=
  mkService (sid s) (server s) (sstate s) (trained s) (max_training_time s)
    n (max_prediction_time s) (actual_prediction_time s)
    (predictions_counter s) (program_counter s).

Definition set_actual_prediction_time (s : Service) (n : Z) : Service :=
  mkService (sid s) (server s) (sstate s) (trained s) (max_training_time s)
    (actual_training_time s) (max_prediction_time s) n
    (predictions_counter s) (program_counter s).

Definition set_predictions_counter (s : Service) (n : Z) : Service :=
  mkService (sid s) (server s) (sstate s) (trained s) (max_training_time s)
    (actual_training_time s) (max_prediction_time s) (actual_prediction_time s)
    n (program_counter s).

Definition set_program_counter (s : Service) (n : Z) : Service :=
  mkService (sid s) (server s) (sstate s) (trained s) (max_training_time s)
    (actual_training_time s) (max_prediction_time s) (actual_prediction_time s)
    (predictions_counter s) n.

Definition _state_running (service : Service) : Service := set_sstate service running.

Definition _state_stopping (service : Service) : Service := set_sstate service stopped.

Definition train_model (service : Service) : Service :=
  if trained service then service
  else if (actual_training_time service =? max_training_time service)
          && negb (trained service) then
    set_actual_training_time (set_trained service true) 0
  else
    set_actual_training_time service (actual_training_time service + 1).

Definition predict (service : Service) : Service :=
  if negb (trained service) then service
  else
    let service :=
      if trained service && (actual_prediction_time service <? max_prediction_time service)
      then set_actual_prediction_time service (actual_prediction_time service + 1)
      else service in
    if actual_prediction_time service =? max_prediction_time service then
      set_actual_prediction_time
        (set_predictions_counter service (predictions_counter service + 1)) 0
    else service.

Definition increase_program_counter (service : Service) : Service :=
  set_program_counter service (program_counter service + 1).

(** [AIModel.run]: one tick of an active service. *)
Definition run (service : Service) : Service :=
  increase_program_counter (predict (train_model (_state_running service))).

(** [AIModel.stop]. *)
Definition stop (service : Service) : Service := _state_stopping service.

Fixpoint runs (n : nat) (service : Service) : Service :=
  match n with
  | O => service
  | S n' => runs n' (run service)
  end.

End AIModel.

(** ** [utils/config.py] and [main.py] *)

Module Config.

Local Open Scope string_scope.

Local Unset Elimination Schemes.

(** A value loaded by [yaml.safe_load] from the core types of YAML: null,
    booleans, integers, floats, strings, sequences and mappings with string
    keys.  A float is a finite value ([YFloat]), an infinity ([.inf],
    [-.inf]) or [.nan]. *)
Inductive yaml :=
| YNull
| YBool (b : bool)
| YInt (n : Z)
| YFloat (q : Q)
| YInf (negative : bool)
| YNaN
| YStr (s : string)
| YList (l : list yaml)
| YMap (m : list (string * yaml)).

Local Set Elimination Schemes.

(** The exceptions the validation can end in. *)
Inductive exn :=
| ValueError (msg : string)
| KeyError (key : string)
| TypeError.

Inductive result (A : Type) :=
| Ok (a : A)
| Raise (e : exn).
Arguments Ok {A} a.
Arguments Raise {A} e.

Definition bind {A B} (m : result A) (k : A -> result B) : result B :=
  match m with
  | Ok a => k a
  | Raise e => Raise e
  end.

Notation "x <- m ;; k" := (bind m (fun x => k))
  (at level 100, m at next level, right associativity).
Notation "m ;;; k" := (bind m (fun _ => k))
  (at level 100, right associativity).

(** [if c: raise ValueError(msg)]. *)
Definition raise_if (c : bool) (msg : string) : result unit :=
  if c then Raise (ValueError msg) else Ok tt.

Fixpoint assoc (key : string) (m : list (string * yaml)) : option yaml :=
  match m with
  | [] => None
  | (k, v) :: m' => if String.eqb key k then Some v else assoc key m'
  end.

Fixpoint is_substring (needle hay : string) : bool :=
  String.prefix needle hay
  || match hay with
     | EmptyString => false
     | String _ hay' => is_substring needle hay'
     end.

Definition is_str (key : string) (v : yaml) : bool :=
  match v with
  | YStr s => String.eqb s key
  | _ => false
  end.

(** [key in c] for a string [key]. *)
Definition py_in (key : string) (c : yaml) : result bool :=
  match c with
  | YMap m => Ok (match assoc key m with Some _ => true | None => false end)
  | YList l => Ok (existsb (is_str key) l)
  | YStr s => Ok (is_substring key s)
  | _ => Raise TypeError
  end.

(** [c[key]] for a string [key]. *)
Definition py_getitem (c : yaml) (key : string) : result yaml :=
  match c with
  | YMap m => match assoc key m with
              | Some v => Ok v
              | None => Raise (KeyError key)
              end
  | _ => Raise TypeError
  end.

(** [v in (a, b, ...)] for a tuple of strings. *)
Definition in_tuple (v : yaml) (t : list string) : bool :=
  existsb (fun s => is_str s v) t.

(** [isinstance(v, bool)], [isinstance(v, int)], [isinstance(v, (int, float))];
    a Python [bool] is an [int]. *)
Definition is_bool (v : yaml) : bool :=
  match v with YBool _ => true | _ => false end.

Definition is_int (v : yaml) : bool :=
  match v with YBool _ | YInt _ => true | _ => false end.

Definition is_number (v : yaml) : bool :=
  match v with
  | YBool _ | YInt _ | YFloat _ | YInf _ | YNaN => true
  | _ => false
  end.

(** The value of a Python number: exact for an [int], a [bool] and a finite
    [float]; the floats [inf], [-inf] and [nan] otherwise. *)
Inductive number :=
| Finite (q : Q)
| Infinity (negative : bool)
| NaN.

Definition as_number (v : yaml) : option number :=
  match v with
  | YBool b => Some (Finite (if b then 1 else 0)%Q)
  | YInt n => Some (Finite (inject_Z n))
  | YFloat q => Some (Finite q)
  | YInf negative => Some (Infinity negative)
  | YNaN => Some NaN
  | _ => None
  end.

(** [x <= y] and [x < y] on numbers: every comparison with [nan] is
    false. *)
Definition num_le (x y : number) : bool :=
  match x, y with
  | NaN, _ | _, NaN => false
  | Finite a, Finite b => Qle_bool a b
  | Infinity true, _ => true
  | _, Infinity false => true
  | Infinity false, _ => false
  | Finite _, Infinity true => false
  end.

Definition num_lt (x y : number) : bool :=
  match x, y with
  | NaN, _ | _, NaN => false
  | Finite a, Finite b => Py.Qlt_bool a b
  | Infinity true, Infinity true => false
  | Infinity true, _ => true
  | Infinity false, _ => false
  | Finite _, Infinity negative => negb negative
  end.

(** [a <= b] and [a > b] between a value and a literal bound, [a >= b]
    between two values; a value that is no number raises. *)
Definition py_le (a : yaml) (b : Q) : result bool :=
  match as_number a with
  | Some x => Ok (num_le x (Finite b))
  | None => Raise TypeError
  end.

Definition py_gt (a : yaml) (b : Q) : result bool :=
  match as_number a with
  | Some x => Ok (num_lt (Finite b) x)
  | None => Raise TypeError
  end.

Definition py_ge (a b : yaml) : result bool :=
  match as_number a, as_number b with
  | Some x, Some y => Ok (num_le y x)
  | _, _ => Raise TypeError
  end.

(** Truth value of an object. *)
Definition truthy (v : yaml) : bool :=
  match v with
  | YNull => false
  | YBool b => b
  | YInt n => negb (n =? 0)%Z
  | YFloat q => negb (Qeq_bool q 0)
  | YInf _ => true
  | YNaN => true
  | YStr s => negb (String.eqb s "")
  | YList l => match l with [] => false | _ => true end
  | YMap m => match m with [] => false | _ => true end
  end.

Definition required_keys : list string :=
  ["info"; "debug"; "offloading"; "topology"; "strategy"; "loadbalancing";
   "compute_energydata"].

(** The loop over [required_keys]. *)
Fixpoint check_required (config : yaml) (keys : list string) : result unit :=
  match keys with
  | [] => Ok tt
  | key :: keys' =>
      present <- py_in key config ;;
      raise_if (negb present) ("Config - Missing required key: " ++ key) ;;;
      check_required config keys'
  end.

(** [a or b] on conditions that may raise: [b] is only evaluated when [a]
    is false. *)
Definition or_else (a : result bool) (b : result bool) : result bool :=
  x <- a ;; if x then Ok true else b.

(** [not isinstance(v, int) or v <= 0]. *)
Definition not_positive_int (v : yaml) : result bool :=
  or_else (Ok (negb (is_int v))) (py_le v 0).

Definition not_positive_number (v : yaml) : result bool :=
  or_else (Ok (negb (is_number v))) (py_le v 0).

(** [section not in config or key not in config[section]]. *)
Definition missing (config : yaml) (section key : string) : result bool :=
  or_else (p <- py_in section config ;; Ok (negb p))
          (s <- py_getitem config section ;; p <- py_in key s ;; Ok (negb p)).

(** [config[section][key]]. *)
Definition get2 (config : yaml) (section key : string) : result yaml :=
  s <- py_getitem config section ;; py_getitem s key.

(** The hint appended to a message: a tab, an arrow, a tab, the text. *)
Definition tab : string := String (Ascii.ascii_of_nat 9) EmptyString.

Definition hint (text : string) : string := tab ++ "-->" ++ tab ++ text.

(** [Config.validate]. *)
Definition validate (config : yaml) : result unit :=
  check_required config required_keys ;;;
  c <- missing config "simulation" "steps" ;;
  raise_if c "Config - Missing required key: simulation.steps" ;;;
  c <- (s <- py_getitem config "proactive" ;;
        p <- py_in "min_power_threshold" s ;; Ok (negb p)) ;;
  raise_if c "Config - Missing required key: proactive.min_power_threshold" ;;;
  c <- missing config "reactive" "max_services_per_device" ;;
  raise_if c "Config - Missing required key: reactive.max_services_per_device" ;;;
  c <- missing config "oracle" "max_services_per_device" ;;
  raise_if c "Config - Missing required key: oracle.max_services_per_device" ;;;
  v <- py_getitem config "offloading" ;;
  raise_if (negb (in_tuple v ["model"; "data"]))
           ("Config - Invalid input for [offloading]!" ++ hint "Inputs: model, data.") ;;;
  v <- py_getitem config "topology" ;;
  raise_if (negb (in_tuple v ["test"; "prod"]))
           ("Config - Invalid input for [topology]!" ++ hint "Inputs: test, prod.") ;;;
  v <- py_getitem config "strategy" ;;
  raise_if (negb (in_tuple v ["reactive"; "proactive"; "oracle"]))
           ("Config - Invalid input for [strategy]!"
            ++ hint "Inputs: reactive, proactive, oracle.") ;;;
  v <- py_getitem config "loadbalancing" ;;
  raise_if (negb (is_bool v))
           ("Config - Invalid input for [loadbalancing]!" ++ hint "Inputs: True, False.") ;;;
  v <- py_getitem config "compute_energydata" ;;
  raise_if (negb (is_bool v))
           ("Config - Invalid input for [compute_energydata]!"
            ++ hint "Inputs: True, False.") ;;;
  v <- get2 config "simulation" "steps" ;;
  c <- not_positive_int v ;;
  raise_if c ("Config - Invalid input for [steps]!"
              ++ hint "Must be a positive integer.") ;;;
  v <- get2 config "proactive" "min_power_threshold" ;;
  c <- not_positive_number v ;;
  raise_if c ("Config - Invalid input for [proactive][min_power_threshold]!"
              ++ hint "Must be a positive number (int, float).") ;;;
  v <- get2 config "reactive" "max_services_per_device" ;;
  c <- not_positive_int v ;;
  raise_if c ("Config - Invalid input for [reactive][max_services_per_device]!"
              ++ hint "Must be a positive integer.") ;;;
  v <- get2 config "oracle" "max_services_per_device" ;;
  c <- not_positive_int v ;;
  raise_if c ("Config - Invalid input for [oracle][max_services_per_device]!"
              ++ hint "Must be a positive integer.") ;;;
  v <- py_getitem config "strategy" ;;
  (if is_str "reactive" v then
     w <- get2 config "reactive" "max_services_per_device" ;;
     _ <- py_gt w 10 ;; Ok tt
   else Ok tt) ;;;
  enabled <- get2 config "battery" "enabled" ;;
  c <- (if truthy enabled then
          t <- get2 config "proactive" "min_power_threshold" ;;
          r <- get2 config "battery" "power_required" ;;
          py_ge t r
        else Ok false) ;;
  raise_if c ("Config - Invalid input for [proactive][min_power_threshold]!"
              ++ hint "Must be lower than the battery power required.").

(** The three simulation classes. *)
Inductive Strategy := reactive | proactive | oracle.

Definition strategy_name (s : Strategy) : string :=
  match s with
  | reactive => "reactive"
  | proactive => "proactive"
  | oracle => "oracle"
  end.

(** How a call of [main] ends: it returns a flag, or an exception other
    than [ValueError] leaves it. *)
Inductive outcome :=
| Returns (b : bool)
| Propagates (e : exn).

Section Main.

(** [Logging(info, debug)] and the construction and run of a simulation
    are collaborators: each either completes or raises. *)
Variable logging : yaml -> yaml -> result unit.
Variable simulate : Strategy -> yaml -> result unit.

(** [if config_variables["strategy"] == name: simulation.run()], with the
    list of simulations started so far. *)
Definition run_if (config : yaml) (s : Strategy) (started : list Strategy)
    : result (list Strategy) * list Strategy :=
  match py_getitem config "strategy" with
  | Raise e => (Raise e, started)
  | Ok v =>
      if is_str (strategy_name s) v then
        match simulate s config with
        | Ok _ => (Ok (started ++ [s])%list, (started ++ [s])%list)
        | Raise e => (Raise e, (started ++ [s])%list)
        end
      else (Ok started, started)
  end.

(** The body of the [try] block: what it raises or returns, and the
    simulations it started. *)
Definition main_body (config : yaml) : result bool * list Strategy :=
  match validate config with
  | Raise e => (Raise e, [])
  | Ok _ =>
  match (i <- py_getitem config "info" ;; d <- py_getitem config "debug" ;;
         logging i d) with
  | Raise e => (Raise e, [])
  | Ok _ =>
  match run_if config reactive [] with
  | (Raise e, st) => (Raise e, st)
  | (Ok _, st) =>
  match run_if config proactive st with
  | (Raise e, st) => (Raise e, st)
  | (Ok _, st) =>
  match run_if config oracle st with
  | (Raise e, st) => (Raise e, st)
  | (Ok _, st) => (Ok true, st)
  end end end end end.

(** [main], on the configuration the file loads to: the outcome and the
    simulations started. *)
Definition main (config : yaml) : outcome * list Strategy :=
  match main_body config with
  | (Ok b, st) => (Returns b, st)
  | (Raise (ValueError _), st) => (Returns false, st)
  | (Raise e, st) => (Propagates e, st)
  end.

End Main.

End Config.

(** ** Concrete fleets, batteries and configurations used in the examples *)

Module Scenarios.

Import Battery Model Config.

(** Batteries of one device (id 1) with 1 Ah at 5 V, i.e. 5 Wh. *)

(** Charged to exactly the discharge floor: 25 % of 5 Wh with DoD 0.25. *)
Definition battery_at_floor : HarvesterBattery :=
  init no_traces [1] 1 5 0.95 0.25 0.25.

(** Empty, with a depth of discharge of 0 (no floor above zero). *)
Definition battery_empty_no_floor : HarvesterBattery :=
  init no_traces [1] 1 5 0.95 0 0.

(** Full, depth of discharge 0, on a trace with neither sun nor wind. *)
Definition battery_full_no_floor : HarvesterBattery :=
  init (dark_traces 1 600) [1] 1 5 0.95 1 0.

(** Full, default depth of discharge, dark trace. *)
Definition battery_full : HarvesterBattery :=
  init (dark_traces 1 600) [1] 1 5 0.95 1 0.25.

(** Depth of discharge 0.5: the floor (2.5 Wh) lies above the 40 % band
    (2.0 Wh); the charge is 2.2 Wh. *)
Definition battery_deep_floor : HarvesterBattery :=
  init no_traces [1] 1 5 0.95 0.44 0.5.

(** Default depth of discharge, charge 1.0 Wh, below the floor of 1.25 Wh. *)
Definition battery_below_floor : HarvesterBattery :=
  init no_traces [1] 1 5 0.95 0.2 0.25.

Definition idle_transfer (time : Z) : TransferModel :=
  mkTransferModel false 0 time [] 0 0 0 0.

Definition fresh_service (i owner : Z) (training prediction : Z) : Service :=
  mkService i owner idle false training 0 prediction 0 0 0.

(** A server (id 1) holding four services. *)
Definition server_services : list Service :=
  [fresh_service 10 1 3 2; fresh_service 11 1 3 2;
   fresh_service 12 1 3 2; fresh_service 13 1 3 2].

Definition central_server : Device :=
  mkDevice 1 "server" 8 0 server_services on true 0 none [] (idle_transfer 3).

(** An empty edge device that is on, with 20 W and two free cores. *)
Definition idle_edge (i : Z) : Device :=
  mkDevice i "edge_device" 2 0 [] on true 20 solar [] (idle_transfer 3).

Definition fleet : list Device := [central_server; idle_edge 2; idle_edge 3].

(** An edge device without power, two ticks into an upload of its service. *)
Definition uploading_edge : Device :=
  mkDevice 2 "edge_device" 2 0 [fresh_service 20 2 3 2] off false 0 none []
    (mkTransferModel true 2 5 [20] 1 0 0 0).

(** An edge device without power, one tick into a download of service 10. *)
Definition downloading_edge : Device :=
  mkDevice 3 "edge_device" 2 0 [] off false 0 none []
    (mkTransferModel true 1 5 [10] 0 1 0 0).

(** A device on battery, currently off. *)
Definition battery_edge : Device :=
  mkDevice 1 "edge_device" 2 0 [] off false 20 battery [] (idle_transfer 3).

(** Devices for the lifecycle update without battery. *)
Definition powered_edge (p : Q) : Device :=
  mkDevice 2 "edge_device" 2 0 [] off false p none [] (idle_transfer 3).

(** A complete configuration with the given strategy; the [proactive]
    section can be left out. *)
Definition config_with (strategy : string) (with_proactive : bool) : yaml :=
  YMap ([("info", YBool true); ("debug", YBool false);
         ("offloading", YStr "model"); ("topology", YStr "test");
         ("strategy", YStr strategy); ("loadbalancing", YBool false);
         ("compute_energydata", YBool false);
         ("simulation", YMap [("steps", YInt 500)]);
         ("reactive", YMap [("max_services_per_device", YInt 3)]);
         ("oracle", YMap [("max_services_per_device", YInt 3)]);
         ("battery", YMap [("enabled", YBool false); ("power_required", YFloat 20)])]
        ++ (if with_proactive
            then [("proactive", YMap [("min_power_threshold", YFloat 10)])]
            else [])).

(** Collaborators that always complete. *)
Definition logging_ok (_ _ : yaml) : result unit := Ok tt.
Definition simulate_ok (_ : Strategy) (_ : yaml) : result unit := Ok tt.

End Scenarios.

(** ** Further predicates and inputs for the battery *)

Module BatteryBounds.

Import Py Battery.
Local Open Scope Q_scope.

(** A draw whose power is not negative and whose watt-hours stay within the
    discharge floor of the battery. *)
Definition draw_within_floor (h : HarvesterBattery) (o : op) : Prop :=
  match o with
  | Charge => True
  | Consume p => 0 <= p /\ round2 (p * 1 / 3600) <= min_bsoc h
  end.

(** The harvester reads no negative power for the device at its tick. *)
Definition harvest_nonneg (h : HarvesterBattery) (device_id : Z) : Prop :=
  forall e, get_energy h device_id = Some e -> 0 <= max (fst e) (snd e).

(** What a call on the battery leaves alone. *)
Definition same_parameters (h h' : HarvesterBattery) : Prop :=
  traces h' = traces h /\ efficiency h' = efficiency h
  /\ max_capacity_wh h' = max_capacity_wh h /\ min_bsoc h' = min_bsoc h.

(** A battery of two devices on a sunny trace: 360 W of sun, no wind. *)
Definition sunny_traces : EnergyHarvester :=
  mkEnergyHarvester {[1%Z := [360; 360; 360]; 2%Z := [360; 360; 360]]}
                    {[1%Z := [0; 0; 0]; 2%Z := [0; 0; 0]]} 0.

Definition battery_pair : HarvesterBattery :=
  init sunny_traces [1%Z; 2%Z] 1 5 0.95 0.5 0.25.

End BatteryBounds.

(** ** Devices with a powered transfer in flight *)

Module TransferScenarios.

Import Model Scenarios.

(** An edge device at 5 W that hosts services 20 and 21 and has just started
    an upload of service 20 that takes three ticks. *)
Definition powered_uploading_edge : Device :=
  mkDevice 2 "edge_device" 2 0 [fresh_service 20 2 3 2; fresh_service 21 2 3 2]
    critical true 5 solar [] (mkTransferModel true 0 3 [20] 1 0 0 0).

(** An empty edge device at 20 W that has just started a download of the
    services 10 and 11, which takes three ticks. *)
Definition powered_downloading_edge : Device :=
  mkDevice 3 "edge_device" 2 0 [] on true 20 solar []
    (mkTransferModel true 0 3 [10; 11] 0 1 0 0).

End TransferScenarios.

(** ** What the download pass offers *)

Module DownloadPass.

Import Py Battery Model BaseDevice ProactiveDevice.
Local Open Scope Z_scope.

(** The number of services a device may be offered: its free cores with
    load balancing, one otherwise. *)
Definition free_slots (loadbalancing : bool) (d : Device) : Z :=
  if loadbalancing
  then Z.max 0 (cpu_cores d - reserved_cpu_cores d - Z.of_nat (length (services d)))
  else 1.

(** The device is looked at by the pass: an edge device that is on and has
    room. *)
Definition eligible (loadbalancing : bool) (d : Device) : Prop :=
  model_type d = "edge_device" /\ state d = on
  /\ 0 < free_slots loadbalancing d
  /\ (loadbalancing = false -> services d = []).

(** All devices but the changed ones keep everything; a changed device keeps
    everything but its transfer record. *)
Definition only_transfer_changed (d d' : Device) : Prop :=
  d' = set_transfer_model d (transfer_model d').

(** A fleet of three: the server and two idle edge devices, the first of
    which already has services 10 and 11 pinned from an earlier pass. *)
Definition fleet_with_pins : list Device :=
  [Scenarios.central_server;
   upd_tm (start_transfer (Scenarios.idle_edge 2))
     (fun t => set_transfer_service_ids t [10; 11]);
   Scenarios.idle_edge 3].

End DownloadPass.

(** ** What a validated configuration guarantees *)

Module ConfigSpec.

Import Config.
Local Open Scope string_scope.

(** The value is a finite number above zero. *)
Definition positive (v : yaml) : Prop :=
  exists q, as_number v = Some (Finite q) /\ (0 < q)%Q.

(** What [not (v <= 0)] leaves of the floats: a positive value, [inf], or
    [nan], which no comparison rejects. *)
Definition positive_or_nan (v : yaml) : Prop :=
  positive v \/ v = YInf false \/ v = YNaN.

(** [x < y] in the order of the numbers that are not [nan]. *)
Definition num_below (x y : number) : Prop :=
  match x, y with
  | Finite a, Finite b => (a < b)%Q
  | Infinity true, Finite _ | Finite _, Infinity false
  | Infinity true, Infinity false => True
  | _, _ => False
  end.

(** What [not (t >= r)] leaves: [t] below [r], or one of them [nan]. *)
Definition below_or_nan (t r : yaml) : Prop :=
  exists x y, as_number t = Some x /\ as_number r = Some y
              /\ (x = NaN \/ y = NaN \/ num_below x y).

Definition one_of (v : yaml) (names : list string) : Prop :=
  exists s, v = YStr s /\ In s names.

(** The constraints [validate] tests, read off its [raise] statements. *)
Definition valid_config (config : yaml) : Prop :=
  (exists v, py_getitem config "offloading" = Ok v /\ one_of v ["model"; "data"])
  /\ (exists v, py_getitem config "topology" = Ok v /\ one_of v ["test"; "prod"])
  /\ (exists v, py_getitem config "strategy" = Ok v
                /\ one_of v ["reactive"; "proactive"; "oracle"])
  /\ (exists b, py_getitem config "loadbalancing" = Ok (YBool b))
  /\ (exists b, py_getitem config "compute_energydata" = Ok (YBool b))
  /\ (exists v, get2 config "simulation" "steps" = Ok v
                /\ is_int v = true /\ positive v)
  /\ (exists v, get2 config "proactive" "min_power_threshold" = Ok v
                /\ is_number v = true /\ positive_or_nan v)
  /\ (exists v, get2 config "reactive" "max_services_per_device" = Ok v
                /\ is_int v = true /\ positive v)
  /\ (exists v, get2 config "oracle" "max_services_per_device" = Ok v
                /\ is_int v = true /\ positive v)
  /\ (exists enabled, get2 config "battery" "enabled" = Ok enabled
        /\ (truthy enabled = true ->
            exists t r,
              get2 config "proactive" "min_power_threshold" = Ok t
              /\ get2 config "battery" "power_required" = Ok r
              /\ below_or_nan t r)).

(** A complete configuration with the battery enabled and the given
    threshold. *)
Definition battery_config (threshold : yaml) : yaml :=
  YMap [("info", YBool true); ("debug", YBool false);
        ("offloading", YStr "model"); ("topology", YStr "test");
        ("strategy", YStr "proactive"); ("loadbalancing", YBool false);
        ("compute_energydata", YBool false);
        ("simulation", YMap [("steps", YInt 500)]);
        ("reactive", YMap [("max_services_per_device", YInt 3)]);
        ("oracle", YMap [("max_services_per_device", YInt 3)]);
        ("battery", YMap [("enabled", YBool true); ("power_required", YFloat 20)]);
        ("proactive", YMap [("min_power_threshold", threshold)])].

End ConfigSpec.

(** ** [energy_harvesting/harvester.py]: one trace per device *)

Module HarvesterData.

Local Open Scope nat_scope.

(** [series[start_index:end_index]], re-indexed from 0. *)
Definition slice {A} (series : list A) (start_index end_index : nat) : list A :=
  drop start_index (take end_index series).

(** [split_energy_data]; [None] is the [ZeroDivisionError] of
    [len(energy_data) // num_devices] on an empty list of ids. *)
Definition split_energy_data (energy_data : list Q) (device_ids : list Z)
    : option (gmap Z (list Q)) :=
  let num_devices := length device_ids in
  if decide (num_devices = 0) then None
  else
    let chunk_size := length energy_data / num_devices in
    Some (fold_left
            (fun (split_data : gmap Z (list Q)) '(i, device_id) =>
               let start_index := i * chunk_size in
               let end_index := if decide (i <> num_devices - 1)
                                then start_index + chunk_size
                                else length energy_data in
               <[device_id := slice energy_data start_index end_index]> split_data)
            (imap pair device_ids) ∅).

(** The trace of the device at position [i] of [n]. *)
Definition chunk (energy_data : list Q) (n i : nat) : list Q :=
  let chunk_size := length energy_data / n in
  slice energy_data (i * chunk_size)
    (if decide (i <> n - 1) then i * chunk_size + chunk_size else length energy_data).

(** Seven samples for three devices. *)
Definition week : list Q := [1; 2; 3; 4; 5; 6; 7]%Q.

End HarvesterData.

(** ** [runnables/heartbeat_protocol.py] *)

Module HeartbeatProtocol.

Import Model.
Local Open Scope Z_scope.

(** [get_heartbeat]. *)
Definition get_heartbeat (edge_device : Device) : bool :=
  if decide (state edge_device <> off) then true else false.

(** [if available_devices: return available_devices], [None] otherwise. *)
Definition available {A} (available_devices : list A) : option (list A) :=
  match available_devices with
  | [] => None
  | _ => Some available_devices
  end.

(** [_get_partner_edge_devices]; [partners] is the attribute
    [partner_devices] of the edge device, a list of device ids that none
    of the modelled functions writes. *)
Definition _get_partner_edge_devices (partners : list Z)
    (all_devices : list Device) (max_services : Z) : option (list Device) :=
  available
    (filter (fun device =>
               id device ∈ partners
               /\ (state device <> off /\ active device = true
                   /\ Z.of_nat (length (services device)) < max_services))
            all_devices).

(** [get_online_partner_edge_devices]. *)
Definition get_online_partner_edge_devices (partners : list Z)
    (all_devices : list Device) : option (list Device) :=
  available
    (filter (fun device =>
               id device ∈ partners
               /\ (state device = on /\ active device = true))
            all_devices).

(** [run]: the heartbeat and, for a silent device, its available partners. *)
Definition run (partners : list Z) (edge_device : Device)
    (all_devices : list Device) (max_services : Z) : bool * option (list Device) :=
  let heartbeat := get_heartbeat edge_device in
  if negb heartbeat
  then (heartbeat, _get_partner_edge_devices partners all_devices max_services)
  else (heartbeat, None).

End HeartbeatProtocol.

(** ** [runnables/loadbalancing.py] *)

Module Loadbalancer.

Import Model HeartbeatProtocol.
Local Open Scope Z_scope.

(** The free-core bound [max(0, cpu_cores - reserved_cpu_cores)] of a
    partner. *)
Definition max_services (partner : Device) : Z :=
  Z.max 0 (cpu_cores partner - reserved_cpu_cores partner).

(** One turn of the loop over the online partners, on the pair
    [(partner_devices, servs)]. *)
Definition run_turn (edge_device : Device) (num_services : Z)
    (acc : list Device * list Service) (partner : Device) : list Device * list Service :=
  let heartbeat := get_heartbeat partner in
  if bool_decide (Z.of_nat (length (services partner)) < max_services partner) && heartbeat
  then
    let num := Z.max 0 (num_services - max_services partner) in
    (fst acc ++ [partner], take (Z.to_nat num) (services edge_device))
  else acc.

(** [Loadbalancer.run]; [None] is the pair [(None, None)]. *)
Definition run (partners : list Z) (edge_device : Device) (num_services : Z)
    (all_devices : list Device) : option (list Device * list Service) :=
  match get_online_partner_edge_devices partners all_devices with
  | Some partner_edge_devices =>
      let '(partner_devices, servs) :=
        fold_left (run_turn edge_device num_services) partner_edge_devices ([], []) in
      match partner_devices, servs with
      | _ :: _, _ :: _ => Some (partner_devices, servs)
      | _, _ => None
      end
  | None => None
  end.

(** An online partner with a free core. *)
Definition takes_load (partners : list Z) (device : Device) : Prop :=
  (id device ∈ partners /\ (state device = on /\ active device = true))
  /\ Z.of_nat (length (services device)) < max_services device.

#[export] Instance takes_load_dec partners device : Decision (takes_load partners device).
Proof. unfold takes_load. apply _. Defined.

(** An edge device with two cores that holds three services. *)
Definition crowded_edge : Device :=
  mkDevice 2 "edge_device" 2 0
    [Scenarios.fresh_service 20 2 3 2; Scenarios.fresh_service 21 2 3 2;
     Scenarios.fresh_service 22 2 3 2]
    on true 20 solar [] (Scenarios.idle_transfer 3).

End Loadbalancer.

(** ** The transfer part of a tick of the proactive simulation *)

Module ProactiveTick.

Import Py Battery Model BaseDevice ProactiveDevice.
Local Open Scope Z_scope.

(** The upload decision of [update_simulation] for one device of the list:
    [transfer_to_server] is called for a device of [edge_device_ids] that
    some service names as its server. *)
Definition upload_decision (edge_device_ids : list Z) (srv : Device)
    (all_services : list Service) (min_power_threshold : Q) (offloading : Offloading)
    (harvester : Harvester) (edge_device : Device) : option Device :=
  if bool_decide (id edge_device ∈ edge_device_ids) then
    let edge_device_services :=
      filter (fun s => server s = id edge_device) all_services in
    if bool_decide (edge_device_services <> []) then
      snd <$> transfer_to_server edge_device srv min_power_threshold offloading harvester
    else Some edge_device
  else Some edge_device.

(** The transfer part of [SimulationProactive.update_simulation]: the upload
    decisions of the loop over the devices, the download pass, the update
    pass.  The power and the status of the devices are those the first part
    of the tick ([modify_power], [modify_state]) has left; [all_services]
    and the harvester are those of this tick. *)
Definition transfer_phase (edge_device_ids : list Z) (all_devices : list Device)
    (srv : Device) (all_services : list Service) (min_power_threshold : Q)
    (offloading : Offloading) (loadbalancing : bool) (harvester : Harvester)
    : option (list Device * Device) :=
  all_devices ←
    mapM (upload_decision edge_device_ids srv all_services min_power_threshold
            offloading harvester) all_devices;
  '(_, all_devices) ←
    transfer_to_edge_device srv all_devices harvester all_services
      min_power_threshold offloading loadbalancing;
  Some (update_ongoing_transfers offloading all_devices srv).

(** The transfer parts of consecutive ticks between which the power of the
    devices stays as it is; each tick comes with its [all_services] and its
    harvester. *)
Fixpoint transfer_phases (ticks : list (list Service * Harvester))
    (edge_device_ids : list Z) (all_devices : list Device) (srv : Device)
    (min_power_threshold : Q) (offloading : Offloading) (loadbalancing : bool)
    : option (list Device * Device) :=
  match ticks with
  | [] => Some (all_devices, srv)
  | (all_services, harvester) :: ticks' =>
      '(all_devices, srv) ←
        transfer_phase edge_device_ids all_devices srv all_services
          min_power_threshold offloading loadbalancing harvester;
      transfer_phases ticks' edge_device_ids all_devices srv
        min_power_threshold offloading loadbalancing
  end.

(** Some service names the device as its server. *)
Definition hosted (edge_device : Device) (all_services : list Service) : Prop :=
  exists s, s ∈ all_services /\ server s = id edge_device.

(** A tick without battery in which the device hosts a service, and one in
    which it hosts none. *)
Definition hosting_tick (edge_device : Device) (tick : list Service * Harvester) : Prop :=
  (exists e, tick.2 = Plain e) /\ hosted edge_device tick.1.

Definition vacant_tick (edge_device : Device) (tick : list Service * Harvester) : Prop :=
  (exists e, tick.2 = Plain e) /\ ~ hosted edge_device tick.1.

(** The device as a new upload leaves it. *)
Definition restarted (d : Device) (srv : Device) : Device :=
  assign_transfer_id_to_server
    (start_transfer
       (upd_tm d (fun t => set_transfer_service_ids t (map sid (services d)))))
    (id srv).

(** The transfer record after [failures] failed uploads in a row. *)
Definition after_failed_uploads (d : Device) (from_device_id failures : Z) : Device :=
  let t := transfer_model d in
  set_transfer_model d
    (mkTransferModel false 0 (transfer_time t) [] 0 from_device_id
       (Model.transfer_failed t + failures) (transfer_succeded t)).

(** Two powerless edge devices, one uploading and one downloading, and the
    services of the simulation: those of the server and the one of the
    uploading device. *)
Definition powerless_fleet : list Device :=
  [Scenarios.uploading_edge; Scenarios.downloading_edge].

Definition fleet_services : list Service :=
  Scenarios.server_services ++ services Scenarios.uploading_edge.

Definition dark_tick : list Service * Harvester :=
  (fleet_services, Plain no_traces).

End ProactiveTick.

(** * Properties *)

(** ** Facts about the numeric helpers *)

Module PyFacts.

Import Py.
Local Open Scope Q_scope.

Lemma Qlt_bool_iff a b : Qlt_bool a b = true <-> a < b.
Proof.
  unfold Qlt_bool. rewrite negb_true_iff.
  destruct (Qle_bool b a) eqn:E.
  - apply Qle_bool_iff in E. split; [discriminate|]. intros H.
    exfalso. apply (Qlt_not_le _ _ H E).
  - split; [|reflexivity]. intros _. apply Qnot_le_lt. intros H.
    apply Qle_bool_iff in H. congruence.
Qed.

Lemma Qlt_bool_false_iff a b : Qlt_bool a b = false <-> b <= a.
Proof.
  unfold Qlt_bool. rewrite negb_false_iff. apply Qle_bool_iff.
Qed.

Lemma Qle_bool_false_iff a b : Qle_bool a b = false <-> b < a.
Proof.
  rewrite <- Qlt_bool_iff. unfold Qlt_bool.
  destruct (Qle_bool a b); simpl; split; congruence.
Qed.

Lemma min_le_r a b : min a b <= b.
Proof.
  unfold min. destruct (Qlt_bool b a) eqn:E.
  - apply Qle_refl.
  - apply Qlt_bool_false_iff in E. exact E.
Qed.

Lemma min_glb a b c : c <= a -> c <= b -> c <= min a b.
Proof. unfold min. destruct (Qlt_bool b a); auto. Qed.

(** Rounding is monotone enough for our purposes: a non-negative value
    rounds to a non-negative value. *)
Lemma round_half_even_nonneg x : 0 <= x -> (0 <= round_half_even x)%Z.
Proof.
  intros Hx. unfold round_half_even.
  assert (Hn : (0 <= Qnum x)%Z).
  { unfold Qle in Hx. simpl in Hx. lia. }
  assert (Hd : (0 < Zpos (Qden x))%Z) by lia.
  pose proof (Z.div_pos (Qnum x) (Zpos (Qden x)) Hn Hd) as Hq.
  destruct (2 * (Qnum x mod Zpos (Qden x)) ?= Zpos (Qden x))%Z;
    [destruct (Z.even _)|..]; lia.
Qed.

Lemma round2_nonneg x : 0 <= x -> 0 <= round2 x.
Proof.
  intros Hx. unfold round2.
  assert (H100 : 0 <= x * 100).
  { apply Qmult_le_0_compat; [exact Hx|]. unfold Qle; simpl; lia. }
  pose proof (round_half_even_nonneg _ H100) as Hz.
  unfold Qdiv. apply Qmult_le_0_compat.
  - unfold Qle; simpl; lia.
  - unfold Qle; simpl; lia.
Qed.

Lemma Qle_bool_true_iff a b : Qle_bool a b = true <-> a <= b.
Proof. apply Qle_bool_iff. Qed.

(** Below one half the nearest integer is 0, above it at least 1. *)
Lemma round_half_even_small x : 0 <= x -> x < 1 # 2 -> round_half_even x = 0%Z.
Proof.
  intros H0 H1. unfold round_half_even. destruct x as [n d].
  unfold Qle, Qlt in *. simpl in *.
  assert (Hn : (0 <= n)%Z) by lia.
  assert (Hd : (2 * n < Zpos d)%Z) by lia.
  rewrite Z.div_small by lia. rewrite Z.mod_small by lia.
  destruct (2 * n ?= Zpos d)%Z eqn:E; [|reflexivity|].
  - apply Z.compare_eq in E. lia.
  - apply Z.compare_gt_iff in E. lia.
Qed.

Lemma round_half_even_large x : 1 # 2 < x -> (1 <= round_half_even x)%Z.
Proof.
  intros H1. unfold round_half_even. destruct x as [n d].
  unfold Qlt in *. simpl in *.
  assert (Hd : (Zpos d < 2 * n)%Z) by lia.
  pose proof (Z.div_mod n (Zpos d) ltac:(lia)) as Hdm.
  pose proof (Z.mod_pos_bound n (Zpos d) ltac:(lia)) as Hr.
  assert (Hq : (0 <= n / Zpos d)%Z) by (apply Z.div_pos; lia).
  destruct (Z.eq_dec (n / Zpos d)%Z 0%Z) as [Hz|Hnz].
  - rewrite Hz in *. rewrite Z.mul_0_r in Hdm. simpl in Hdm.
    assert (E : (2 * (n mod Zpos d) ?= Zpos d)%Z = Gt).
    { apply Z.compare_gt_iff. lia. }
    rewrite E. lia.
  - destruct (2 * (n mod Zpos d) ?= Zpos d)%Z; [destruct (Z.even _)|..]; lia.
Qed.

Lemma round2_small x : 0 <= x -> x < 5 # 1000 -> round2 x == 0.
Proof.
  intros H0 H1. unfold round2. rewrite round_half_even_small.
  - reflexivity.
  - apply Qmult_le_0_compat; [exact H0 | discriminate].
  - destruct x as [n d]. unfold Qlt in *. simpl in *.
    rewrite Pos.mul_1_r. lia.
Qed.

Lemma round2_large x : 5 # 1000 < x -> 0 < round2 x.
Proof.
  intros H1. unfold round2.
  assert (H : (1 <= round_half_even (x * 100))%Z).
  { apply round_half_even_large. destruct x as [n d]. unfold Qlt in *. simpl in *.
    rewrite Pos.mul_1_r. lia. }
  unfold Qlt, Qdiv. simpl. lia.
Qed.

End PyFacts.

(** ** The battery: [consume_energy] and [charge_battery] *)

Module BatteryFacts.

Import Py PyFacts Battery Scenarios.
Local Open Scope Q_scope.

Lemma consume_energy_unfold (h : HarvesterBattery) (device_id : Z) (p cur : Q) :
  bsoc h !! device_id = Some cur ->
  consume_energy h device_id p =
    if Qle_bool (min_bsoc h) cur then
      Some (negb (Qlt_bool (cur - round2 (p * 1 / 3600)) (min_bsoc h)),
            set_bsoc h (<[device_id := cur - round2 (p * 1 / 3600)]> (bsoc h)))
    else Some (false, h).
Proof.
  intros Hcur. unfold consume_energy. rewrite Hcur. simpl.
  destruct (Qle_bool (min_bsoc h) cur); [|reflexivity].
  destruct (Qlt_bool _ _); reflexivity.
Qed.

(** C2, as the code has it.  With [req = round(p / 3600, 2)] the watt-hours
    of the draw: a slot at or above the floor is debited by [req] and the
    call returns true exactly when the debited charge is still at or above
    the floor; a slot below the floor is left alone and the call returns
    false.  A slot exactly at the floor therefore refuses the draw, while
    still being debited, whenever [req] is positive; a draw that rounds to
    zero watt-hours is granted and leaves the charge where it was. *)
Theorem consume_energy_spec (h : HarvesterBattery) (device_id : Z) (p cur : Q) :
  bsoc h !! device_id = Some cur ->
  let req := round2 (p * 1 / 3600) in
  let debited := set_bsoc h (<[device_id := cur - req]> (bsoc h)) in
  (min_bsoc h <= cur ->
     consume_energy h device_id p
     = Some (Qle_bool (min_bsoc h) (cur - req), debited))
  /\ (cur < min_bsoc h -> consume_energy h device_id p = Some (false, h))
  /\ (cur == min_bsoc h -> 0 < req ->
        consume_energy h device_id p = Some (false, debited) /\ cur - req < cur)
  /\ (cur == min_bsoc h -> req == 0 ->
        consume_energy h device_id p = Some (true, debited) /\ cur - req == cur).
Proof.
  intros Hcur req debited.
  pose proof (consume_energy_unfold h device_id p cur Hcur) as E.
  fold req in E. fold debited in E.
  assert (Hflag : negb (Qlt_bool (cur - req) (min_bsoc h))
                  = Qle_bool (min_bsoc h) (cur - req)).
  { unfold Qlt_bool. apply negb_involutive. }
  rewrite Hflag in E.
  split; [|split; [|split]].
  - intros Hle. apply Qle_bool_iff in Hle. rewrite Hle in E. exact E.
  - intros Hlt. apply Qle_bool_false_iff in Hlt. rewrite Hlt in E. exact E.
  - intros Heq Hreq.
    assert (Hle : Qle_bool (min_bsoc h) cur = true).
    { apply Qle_bool_iff. rewrite Heq. apply Qle_refl. }
    assert (Hdown : cur - req < cur).
    { rewrite <- (Qplus_0_r cur) at 2. unfold Qminus.
      apply Qplus_lt_r. apply (Qopp_lt_compat 0 req) in Hreq. exact Hreq. }
    rewrite Hle in E. split; [|exact Hdown].
    assert (Hno : Qle_bool (min_bsoc h) (cur - req) = false).
    { apply Qle_bool_false_iff. rewrite <- Heq. exact Hdown. }
    rewrite Hno in E. exact E.
  - intros Heq Hreq.
    assert (Hle : Qle_bool (min_bsoc h) cur = true).
    { apply Qle_bool_iff. rewrite Heq. apply Qle_refl. }
    assert (Hsame : cur - req == cur).
    { rewrite Hreq. ring. }
    rewrite Hle in E. split; [|exact Hsame].
    assert (Hyes : Qle_bool (min_bsoc h) (cur - req) = true).
    { apply Qle_bool_iff. rewrite Hsame, Heq. apply Qle_refl. }
    rewrite Hyes in E. exact E.
Qed.

(** With one-second ticks a draw below 18 W rounds to 0.00 Wh and a draw
    above 18 W to at least 0.01 Wh. *)
Lemma draw_below_18W_is_free (p : Q) :
  0 <= p -> p < 18 -> round2 (p * 1 / 3600) == 0.
Proof.
  intros H0 H1. apply round2_small.
  - unfold Qdiv. apply Qmult_le_0_compat; [|discriminate].
    rewrite Qmult_1_r. exact H0.
  - destruct p as [n d]. unfold Qlt in *. simpl in *.
    rewrite !Pos2Z.inj_mul. lia.
Qed.

Lemma draw_above_18W_is_debited (p : Q) :
  18 < p -> 0 < round2 (p * 1 / 3600).
Proof.
  intros H1. apply round2_large.
  destruct p as [n d]. unfold Qlt in *. simpl in *.
  rewrite !Pos2Z.inj_mul. lia.
Qed.

(** The specification applied to a battery at its floor and a 20 W draw
    (0.01 Wh): the draw is refused and the slot is debited. *)
Lemma consume_energy_spec_witness :
  bsoc battery_at_floor !! 1%Z = Some 1.25
  /\ consume_energy battery_at_floor 1 20
     = Some (false,
             set_bsoc battery_at_floor
               (<[1%Z := 1.25 - round2 (20 * 1 / 3600)]> (bsoc battery_at_floor))).
Proof.
  assert (Hcur : bsoc battery_at_floor !! 1%Z = Some 1.25) by reflexivity.
  split; [exact Hcur|].
  destruct (consume_energy_spec battery_at_floor 1 20 1.25 Hcur) as (_ & _ & Hfloor & _).
  apply Hfloor; reflexivity.
Defined.

(** C2 as stated fails for a small positive draw: a battery exactly at its
    floor grants a draw of 10 W (which rounds to 0.00 Wh) and its charge
    does not decrease. *)
Lemma consume_energy_small_draw_at_floor :
  0 < 10
  /\ (exists cur, bsoc battery_at_floor !! 1%Z = Some cur
                  /\ cur == min_bsoc battery_at_floor)
  /\ (exists h' v, consume_energy battery_at_floor 1 10 = Some (true, h')
                   /\ bsoc h' !! 1%Z = Some v
                   /\ v == min_bsoc battery_at_floor).
Proof.
  split; [reflexivity|]. split.
  - eexists. split; vm_compute; reflexivity.
  - eexists _, _. split; [vm_compute; reflexivity|].
    split; vm_compute; reflexivity.
Qed.

(** *** The bounds on the state of charge *)

Lemma charge_battery_inv (h h' : HarvesterBattery) (device_id : Z) :
  charge_battery h device_id = Some h' ->
  exists cur added,
    bsoc h !! device_id = Some cur
    /\ h' = set_bsoc h (<[device_id := min (cur + added) (max_capacity_wh h)]> (bsoc h)).
Proof.
  unfold charge_battery. intros H.
  apply bind_Some in H as (energy & _ & H).
  apply bind_Some in H as (cur & Hcur & H).
  injection H as <-. eauto.
Qed.

(** Charging never lifts a slot above the capacity. *)
Lemma charge_battery_le_max (h h' : HarvesterBattery) (device_id : Z) :
  charge_battery h device_id = Some h' ->
  max_capacity_wh h' = max_capacity_wh h
  /\ exists v, bsoc h' !! device_id = Some v /\ v <= max_capacity_wh h.
Proof.
  intros H. apply charge_battery_inv in H as (cur & added & Hcur & ->).
  split; [reflexivity|]. eexists. split.
  - simpl. apply lookup_insert_eq.
  - apply min_le_r.
Qed.

(** A draw of non-negative power never raises a slot. *)
Lemma consume_energy_le (h h' : HarvesterBattery) (device_id : Z) (p cur : Q) (b : bool) :
  0 <= p ->
  bsoc h !! device_id = Some cur ->
  consume_energy h device_id p = Some (b, h') ->
  max_capacity_wh h' = max_capacity_wh h
  /\ exists v, bsoc h' !! device_id = Some v /\ v <= cur.
Proof.
  intros Hp Hcur H. rewrite (consume_energy_unfold _ _ _ _ Hcur) in H.
  assert (Hreq : 0 <= round2 (p * 1 / 3600)).
  { apply round2_nonneg. unfold Qdiv. apply Qmult_le_0_compat.
    - rewrite Qmult_1_r. exact Hp.
    - unfold Qle; simpl; lia. }
  destruct (Qle_bool (min_bsoc h) cur).
  - injection H as _ <-. split; [reflexivity|]. eexists. split.
    + simpl. apply lookup_insert_eq.
    + rewrite <- (Qplus_0_r cur) at 2. unfold Qminus. apply Qplus_le_r.
      apply (Qopp_le_compat 0 _) in Hreq. exact Hreq.
  - injection H as _ <-. split; [reflexivity|]. exists cur. split; [exact Hcur|].
    apply Qle_refl.
Qed.

(** Where the debit cannot exceed the floor, a draw keeps a non-negative
    slot non-negative. *)
Lemma consume_energy_nonneg (h h' : HarvesterBattery) (device_id : Z) (p cur : Q) (b : bool) :
  0 <= cur ->
  round2 (p * 1 / 3600) <= min_bsoc h ->
  bsoc h !! device_id = Some cur ->
  consume_energy h device_id p = Some (b, h') ->
  exists v, bsoc h' !! device_id = Some v /\ 0 <= v.
Proof.
  intros H0 Hreq Hcur H. rewrite (consume_energy_unfold _ _ _ _ Hcur) in H.
  destruct (Qle_bool (min_bsoc h) cur) eqn:Hle.
  - injection H as _ <-. eexists. split; [simpl; apply lookup_insert_eq|].
    apply Qle_bool_iff in Hle.
    apply (Qle_minus_iff (round2 (p * 1 / 3600)) cur).
    eapply Qle_trans; eassumption.
  - injection H as _ <-. eauto.
Qed.

(** The upper half of the charge invariant: over any interleaving of
    charges and non-negative draws the slot stays at or below capacity. *)
Lemma run_ops_le_max (os : list op) (h h' : HarvesterBattery) (device_id : Z) (cur : Q) :
  Forall nonneg_draw os ->
  bsoc h !! device_id = Some cur ->
  cur <= max_capacity_wh h ->
  run_ops h device_id os = Some h' ->
  exists v, bsoc h' !! device_id = Some v /\ v <= max_capacity_wh h.
Proof.
  intros Hos. revert h cur. induction Hos as [|o os Ho _ IH]; intros h cur Hcur Hle H.
  - injection H as <-. eauto.
  - simpl in H. apply bind_Some in H as (h1 & H1 & H).
    destruct o as [|p]; simpl in H1.
    + apply charge_battery_le_max in H1 as (Hmax & v & Hv & Hvle).
      rewrite <- Hmax. eapply IH; [exact Hv| rewrite Hmax; exact Hvle | exact H].
    + apply fmap_Some in H1 as ([b h2] & H1 & ->). simpl in *.
      destruct (consume_energy_le _ _ _ _ _ _ Ho Hcur H1) as (Hmax & v & Hv & Hvle).
      rewrite <- Hmax. eapply IH; [exact Hv| rewrite Hmax | exact H].
      eapply Qle_trans; eassumption.
Qed.

(** C3 fails on the code.  [consume_energy] debits before it compares with
    the floor, so with a depth of discharge of 0 an empty slot is driven
    below zero by a 36 W draw (0.01 Wh); the same happens to a full 5 Wh
    battery after 501 dark ticks of that draw. *)
Theorem consume_energy_drives_soc_negative :
  (exists v0, bsoc battery_empty_no_floor !! 1%Z = Some v0
              /\ 0 <= v0 <= max_capacity_wh battery_empty_no_floor)
  /\ (exists h' v, consume_energy battery_empty_no_floor 1 36 = Some (false, h')
                   /\ bsoc h' !! 1%Z = Some v /\ v < 0)
  /\ (exists v0, bsoc battery_full_no_floor !! 1%Z = Some v0
                 /\ 0 <= v0 <= max_capacity_wh battery_full_no_floor)
  /\ (exists h' v, battery_ticks 501 battery_full_no_floor 1 36 = Some h'
                   /\ bsoc h' !! 1%Z = Some v /\ v < 0).
Proof.
  split; [|split; [|split]].
  - eexists. split; [vm_compute; reflexivity|]. split; vm_compute; discriminate.
  - eexists _, _. split; [vm_compute; reflexivity|].
    split; vm_compute; reflexivity.
  - eexists. split; [vm_compute; reflexivity|]. split; vm_compute; discriminate.
  - assert (E : (h ← battery_ticks 501 battery_full_no_floor 1 36;
                 v ← bsoc h !! 1%Z; Some (Qred v)) = Some (- 0.01)).
    { vm_compute. reflexivity. }
    apply bind_Some in E as (h' & Hh & E).
    apply bind_Some in E as (v & Hv & E).
    exists h', v. split; [exact Hh|]. split; [exact Hv|].
    injection E as E. rewrite <- (Qred_correct v), E. reflexivity.
Qed.

End BatteryFacts.

(** ** The lifecycle and power updates of [BaseDevice] *)

Module BaseDeviceFacts.

Import Py PyFacts Battery Model BaseDevice Scenarios.
Local Open Scope Q_scope.

(** The status assignment touches nothing but the status. *)
Lemma set_status_frame (d : Device) (s : State) (a : bool) :
  state (set_status d s a) = s /\ active (set_status d s a) = a
  /\ actual_power (set_status d s a) = actual_power d
  /\ services (set_status d s a) = services d
  /\ transfer_model (set_status d s a) = transfer_model d.
Proof. repeat split. Qed.

(** C6.  Without battery and with a threshold [P_min] that is not negative
    (5.00 W by default, a validated positive value in the proactive
    simulation): more than [P_min] gives on/active, a positive power up to
    [P_min] gives critical/active, no power gives off/inactive. *)
Theorem modify_state_without_battery_spec (d : Device) (P_min : Q) :
  let d' := _modify_state_without_battery d P_min in
  (P_min < actual_power d -> state d' = on /\ active d' = true)
  /\ (0 < actual_power d -> actual_power d <= P_min ->
        state d' = critical /\ active d' = true)
  /\ (actual_power d == 0 -> 0 <= P_min -> state d' = off /\ active d' = false).
Proof.
  unfold _modify_state_without_battery.
  split; [|split].
  - intros H. apply Qlt_bool_iff in H. rewrite H. split; reflexivity.
  - intros Hpos Hle.
    assert (H1 : Qlt_bool P_min (actual_power d) = false)
      by (apply Qlt_bool_false_iff; exact Hle).
    apply Qlt_bool_iff in Hpos. apply Qle_bool_iff in Hle.
    rewrite H1, Hpos, Hle. split; reflexivity.
  - intros Hz Hmin.
    assert (H1 : Qlt_bool P_min (actual_power d) = false).
    { apply Qlt_bool_false_iff. rewrite Hz. exact Hmin. }
    assert (H2 : Qlt_bool 0 (actual_power d) = false).
    { apply Qlt_bool_false_iff. rewrite Hz. apply Qle_refl. }
    rewrite H1, H2. split; reflexivity.
Qed.

(** The three cases at the default threshold of 5 W: 20 W, 3 W and 0 W. *)
Lemma modify_state_without_battery_spec_witness :
  (state (_modify_state_without_battery (powered_edge 20) 5) = on
   /\ active (_modify_state_without_battery (powered_edge 20) 5) = true)
  /\ (state (_modify_state_without_battery (powered_edge 3) 5) = critical
      /\ active (_modify_state_without_battery (powered_edge 3) 5) = true)
  /\ (state (_modify_state_without_battery (powered_edge 0) 5) = off
      /\ active (_modify_state_without_battery (powered_edge 0) 5) = false).
Proof.
  split; [|split].
  - apply (proj1 (modify_state_without_battery_spec (powered_edge 20) 5)).
    reflexivity.
  - apply (proj1 (proj2 (modify_state_without_battery_spec (powered_edge 3) 5)));
      [reflexivity | discriminate].
  - apply (proj2 (proj2 (modify_state_without_battery_spec (powered_edge 0) 5)));
      [reflexivity | discriminate].
Defined.

(** The threshold must not be negative for the last case: with a threshold
    of -1 W a device without power is switched on. *)
Example modify_state_negative_threshold :
  state (_modify_state_without_battery (powered_edge 0) (-1)) = on.
Proof. reflexivity. Qed.

(** C9, as the code has it.  With power above zero and a reported charge
    below the reported floor, no branch matches and the device is returned
    as it was, provided the charge also lies below the 40 % band of the
    first branch. *)
Theorem modify_state_with_battery_below_floor
    (d : Device) (h : HarvesterBattery) (soc : Q) :
  0 < actual_power d ->
  get_bsoc h (id d) = Some soc ->
  soc < get_min_bsoc h ->
  soc < get_max_capacity h * 0.4 ->
  _modify_state_with_battery d h = Some d.
Proof.
  intros Hp Hsoc Hfloor Hband. unfold _modify_state_with_battery.
  apply Qlt_bool_iff in Hp. rewrite Hp, Hsoc. simpl.
  apply Qle_bool_false_iff in Hband. rewrite Hband.
  apply Qle_bool_false_iff in Hfloor. rewrite Hfloor. reflexivity.
Qed.

(** A battery at 1.0 Wh with its floor at 1.25 Wh and the band at 2.0 Wh. *)
Lemma modify_state_with_battery_below_floor_witness :
  _modify_state_with_battery battery_edge battery_below_floor = Some battery_edge.
Proof.
  eapply (modify_state_with_battery_below_floor battery_edge battery_below_floor);
    [reflexivity | vm_compute; reflexivity | reflexivity | reflexivity].
Defined.

(** The band condition follows when the floor itself lies within the band,
    as with the default depth of discharge. *)
Lemma modify_state_with_battery_floor_in_band
    (d : Device) (h : HarvesterBattery) (soc : Q) :
  0 < actual_power d ->
  get_bsoc h (id d) = Some soc ->
  soc < get_min_bsoc h ->
  get_min_bsoc h <= get_max_capacity h * 0.4 ->
  _modify_state_with_battery d h = Some d.
Proof.
  intros Hp Hsoc Hfloor Hin.
  apply (modify_state_with_battery_below_floor d h soc Hp Hsoc Hfloor).
  eapply Qlt_le_trans; eassumption.
Qed.

(** C9 as stated fails where the floor lies above the band: with a depth of
    discharge of 0.5 a powered device at 2.2 Wh, below its floor of 2.5 Wh,
    is switched from off/inactive to on/active. *)
Lemma modify_state_with_battery_above_band :
  0 < actual_power battery_edge
  /\ (exists soc, get_bsoc battery_deep_floor (id battery_edge) = Some soc
                  /\ soc < get_min_bsoc battery_deep_floor)
  /\ state battery_edge = off /\ active battery_edge = false
  /\ (exists d', _modify_state_with_battery battery_edge battery_deep_floor = Some d'
                 /\ state d' = on /\ active d' = true).
Proof.
  split; [reflexivity|]. split.
  - eexists. split; [vm_compute; reflexivity | reflexivity].
  - split; [reflexivity|]. split; [reflexivity|].
    eexists. split; [vm_compute; reflexivity|]. split; reflexivity.
Qed.

(** After a successful charge the draw finds the slot of the device. *)
Lemma consume_after_charge (h h1 : HarvesterBattery) (device_id : Z) (p : Q) :
  charge_battery h device_id = Some h1 ->
  exists ok h2, consume_energy h1 device_id p = Some (ok, h2).
Proof.
  intros H. apply BatteryFacts.charge_battery_inv in H as (cur & added & _ & ->).
  erewrite BatteryFacts.consume_energy_unfold by (simpl; apply lookup_insert_eq).
  destruct (Qle_bool _ _); eauto.
Qed.

(** C7.  With battery the power update charges first and draws from the
    charged battery; the device then reports the required power if the draw
    was granted and 0 otherwise, always from source battery; the harvester
    is the one the draw left. *)
Theorem modify_power_with_battery_spec
    (d : Device) (h h1 h2 : HarvesterBattery) (required_power : Q) (ok : bool) :
  charge_battery h (id d) = Some h1 ->
  consume_energy h1 (id d) required_power = Some (ok, h2) ->
  exists d',
    _modify_power_with_battery d h required_power = Some (d', h2)
    /\ actual_power d' = (if ok then required_power else 0)
    /\ power_source d' = battery
    /\ d' = set_power d (actual_power d') battery.
Proof.
  intros Hcharge Hdraw. unfold _modify_power_with_battery.
  rewrite Hcharge. simpl. rewrite Hdraw. simpl.
  eexists. split; [reflexivity|]. repeat split.
Qed.

(** A full battery on a dark trace grants 20 W. *)
Lemma modify_power_with_battery_spec_witness :
  exists d' h2,
    _modify_power_with_battery battery_edge battery_full 20 = Some (d', h2)
    /\ actual_power d' = 20 /\ power_source d' = battery.
Proof.
  assert (Hc : exists h1, charge_battery battery_full (id battery_edge) = Some h1).
  { eexists. vm_compute. reflexivity. }
  destruct Hc as [h1 Hc].
  assert (Hd : exists h2, consume_energy h1 (id battery_edge) 20 = Some (true, h2)).
  { vm_compute in Hc. injection Hc as <-. eexists. vm_compute. reflexivity. }
  destruct Hd as [h2 Hd].
  destruct (modify_power_with_battery_spec battery_edge battery_full h1 h2 20 true Hc Hd)
    as (d' & Hrun & Hp & Hs & _).
  exists d', h2. auto.
Defined.

(** The update fails exactly when the charge does (an unknown device or a
    trace that has run out). *)
Lemma modify_power_with_battery_defined (d : Device) (h : HarvesterBattery) (p : Q) :
  is_Some (_modify_power_with_battery d h p) <-> is_Some (charge_battery h (id d)).
Proof.
  unfold _modify_power_with_battery. split.
  - intros [r H]. apply bind_Some in H as (h1 & H1 & _). eauto.
  - intros [h1 H1]. rewrite H1. simpl.
    destruct (consume_after_charge _ _ _ p H1) as (ok & h2 & ->). simpl. eauto.
Qed.

(** The order of the two battery calls matters: a battery at its floor in
    full sun grants the draw after charging, and would refuse it before. *)
Example charge_before_consume :
  let sunny := mkEnergyHarvester {[1%Z := [3600]]} {[1%Z := [0]]} 0 in
  let h := init sunny [1%Z] 1 5 0.95 0.25 0.25 in
  (fst <$> consume_energy h 1 100) = Some false
  /\ (h1 ← charge_battery h 1; fst <$> consume_energy h1 1 100) = Some true.
Proof. split; vm_compute; reflexivity. Qed.

End BaseDeviceFacts.

(** ** The transfer machine of [ProactiveDevice] *)

Module ProactiveFacts.

Import Py PyFacts Battery Model BaseDevice ProactiveDevice Scenarios.
Local Open Scope Z_scope.

(** *** Failure of an in-flight transfer *)

Lemma transfer_failed_true (d : Device) :
  transfer_duration (transfer_model d) < transfer_time (transfer_model d) ->
  (actual_power d == 0)%Q ->
  BaseDevice.transfer_failed d = true.
Proof.
  intros Hlt Hp. unfold BaseDevice.transfer_failed.
  apply Z.leb_gt in Hlt. rewrite Hlt.
  apply Qeq_bool_iff in Hp. rewrite Hp. reflexivity.
Qed.

(** A device with no transfer in flight is skipped by the update pass. *)
Lemma update_ongoing_model_step_idle (d srv : Device) :
  transfer (transfer_model d) = false ->
  update_ongoing_model_step d srv = (d, srv).
Proof.
  intros H. unfold update_ongoing_model_step. rewrite H. simpl. rewrite H. reflexivity.
Qed.

Lemma update_ongoing_model_steps_idle (n : nat) (d srv : Device) :
  transfer (transfer_model d) = false ->
  update_ongoing_model_steps n d srv = (d, srv).
Proof.
  intros H. induction n as [|n IH]; [reflexivity|].
  simpl. rewrite (update_ongoing_model_step_idle d srv H). exact IH.
Qed.

Lemma upload_fails_step (d srv : Device) :
  transfer (transfer_model d) = true ->
  transfer_to_device_id (transfer_model d) <> 0 ->
  transfer_duration (transfer_model d) < transfer_time (transfer_model d) ->
  (actual_power d == 0)%Q ->
  update_ongoing_model_step d srv = (after_failed_upload d, srv).
Proof.
  intros Ht Hto Hlt Hp. unfold update_ongoing_model_step.
  apply Z.eqb_neq in Hto. rewrite Ht, Hto. simpl.
  unfold _update_ongoing_transfers_to_server.
  rewrite (transfer_failed_true d Hlt Hp). reflexivity.
Qed.

Lemma download_fails_step (d srv : Device) :
  transfer (transfer_model d) = true ->
  transfer_to_device_id (transfer_model d) = 0 ->
  transfer_from_device_id (transfer_model d) <> 0 ->
  transfer_duration (transfer_model d) < transfer_time (transfer_model d) ->
  (actual_power d == 0)%Q ->
  update_ongoing_model_step d srv = (after_failed_download d, count_failure srv).
Proof.
  intros Ht Hto Hfrom Hlt Hp. unfold update_ongoing_model_step.
  apply Z.eqb_neq in Hfrom. rewrite Ht, Hto. simpl. rewrite Ht, Hfrom. simpl.
  unfold _update_ongoing_transfers_to_device.
  rewrite (transfer_failed_true d Hlt Hp).
  reflexivity.
Qed.

(** Data offloading fails the same way; it pins no ids and leaves the list
    of ids as it finds it. *)
Lemma data_upload_fails_step (d srv : Device) :
  transfer (transfer_model d) = true ->
  transfer_to_device_id (transfer_model d) <> 0 ->
  transfer_duration (transfer_model d) < transfer_time (transfer_model d) ->
  (actual_power d == 0)%Q ->
  let '(d', srv') := update_ongoing_data_step d srv in
  Model.transfer_failed (transfer_model d') = Model.transfer_failed (transfer_model d) + 1
  /\ transfer (transfer_model d') = false
  /\ transfer_duration (transfer_model d') = 0
  /\ transfer_to_device_id (transfer_model d') = 0
  /\ transfer_service_ids (transfer_model d') = transfer_service_ids (transfer_model d)
  /\ temperature_measurement d' = temperature_measurement d
  /\ srv' = srv.
Proof.
  intros Ht Hto Hlt Hp. unfold update_ongoing_data_step.
  apply Z.eqb_neq in Hto. rewrite Ht, Hto. simpl.
  unfold _update_ongoing_data_transfer_to_server.
  rewrite (transfer_failed_true d Hlt Hp). simpl. repeat split.
Qed.

(** *** The flags returned by the initiating functions *)

Lemma transfer_model_to_server_result
    (edge_device srv : Device) (P_min : Q) (harvester : Harvester) :
  (exists d', _transfer_model_to_server edge_device srv P_min harvester = Some (false, d'))
  \/ (_transfer_model_to_server edge_device srv P_min harvester = None
      /\ low_power_trigger edge_device P_min harvester = None).
Proof.
  unfold _transfer_model_to_server.
  destruct (transfer (transfer_model edge_device)); [left; eauto|].
  destruct (low_power_trigger edge_device P_min harvester) as [[|]|]; simpl; eauto.
Qed.

Lemma transfer_model_to_edge_device_result
    (srv edge_device : Device) (harvester : Harvester) (l : list Service) (P_min : Q) :
  (exists d', _transfer_model_to_edge_device srv edge_device harvester l P_min
              = Some (false, d'))
  \/ (_transfer_model_to_edge_device srv edge_device harvester l P_min = None
      /\ high_power_trigger edge_device P_min harvester = None).
Proof.
  unfold _transfer_model_to_edge_device.
  destruct (transfer (transfer_model edge_device)); [left; eauto|].
  destruct (high_power_trigger edge_device P_min harvester) as [[|]|]; simpl; eauto.
Qed.

Lemma transfer_data_to_edge_device_result
    (srv edge_device : Device) (harvester : Harvester) (P_min : Q) :
  (exists d', _transfer_data_to_edge_device srv edge_device harvester P_min
              = Some (false, d'))
  \/ (_transfer_data_to_edge_device srv edge_device harvester P_min = None
      /\ low_power_trigger edge_device P_min harvester = None).
Proof.
  unfold _transfer_data_to_edge_device.
  destruct (transfer (transfer_model edge_device)); [left; eauto|].
  destruct (low_power_trigger edge_device P_min harvester) as [[|]|]; simpl; eauto.
Qed.

(** The path that does start a download pins the ids, sets the flag and the
    slot, and still returns false. *)
Lemma transfer_model_to_edge_device_initiates
    (srv edge_device : Device) (harvester : Harvester) (l : list Service) (P_min : Q) :
  transfer (transfer_model edge_device) = false ->
  high_power_trigger edge_device P_min harvester = Some true ->
  exists d',
    _transfer_model_to_edge_device srv edge_device harvester l P_min = Some (false, d')
    /\ transfer (transfer_model d') = true
    /\ transfer_duration (transfer_model d') = 0
    /\ transfer_service_ids (transfer_model d') = map sid l
    /\ transfer_from_device_id (transfer_model d') = id srv.
Proof.
  intros Ht Hhigh. unfold _transfer_model_to_edge_device. rewrite Ht, Hhigh. simpl.
  eexists. split; [reflexivity|]. repeat split.
Qed.

Lemma transfer_model_to_server_initiates
    (edge_device srv : Device) (P_min : Q) (harvester : Harvester) :
  transfer (transfer_model edge_device) = false ->
  low_power_trigger edge_device P_min harvester = Some true ->
  exists d',
    _transfer_model_to_server edge_device srv P_min harvester = Some (false, d')
    /\ transfer (transfer_model d') = true
    /\ transfer_duration (transfer_model d') = 0
    /\ transfer_service_ids (transfer_model d') = map sid (services edge_device)
    /\ transfer_to_device_id (transfer_model d') = id srv.
Proof.
  intros Ht Hlow. unfold _transfer_model_to_server. rewrite Ht, Hlow. simpl.
  eexists. split; [reflexivity|]. repeat split.
Qed.

Lemma download_turn_result (srv : Device) (harvester : Harvester) (P_min : Q)
    (lb : bool) (pinned : gset Z) (d : Device) (stt : list Service) (res : list Result) :
  match download_turn srv harvester P_min lb pinned d stt res with
  | Some (_, stt', res') => stt' = stt /\ res' = res
  | None => high_power_trigger d P_min harvester = None
  end.
Proof.
  unfold download_turn.
  destruct (_ || _); [split; reflexivity|].
  destruct (if lb then _ else _); [split; reflexivity|].
  destruct (take _ _) as [|s l]; [split; reflexivity|].
  destruct (transfer_model_to_edge_device_result srv d harvester (s :: l) P_min)
    as [[d' ->] | [-> Hnone]]; simpl; auto.
Qed.

Lemma download_loop_result (srv : Device) (harvester : Harvester) (P_min : Q)
    (lb : bool) (pinned : gset Z) (devs : list Device) (stt : list Service)
    (res : list Result) :
  match download_loop srv harvester P_min lb pinned devs stt res with
  | Some (devs', stt', res') => stt' = stt /\ res' = res /\ length devs' = length devs
  | None => unknown_to harvester P_min false devs
  end.
Proof.
  induction devs as [|d devs IH]; simpl; [repeat split|].
  pose proof (download_turn_result srv harvester P_min lb pinned d stt res) as Hturn.
  destruct (download_turn srv harvester P_min lb pinned d stt res)
    as [[[d' stt'] res']|]; simpl.
  - destruct Hturn as [-> ->].
    destruct (download_loop srv harvester P_min lb pinned devs stt res)
      as [[[devs' stt'] res']|]; simpl.
    + destruct IH as (-> & -> & Hlen). simpl. rewrite Hlen. repeat split.
    + destruct IH as (x & Hin & Hx). exists x. split; [|exact Hx].
      apply elem_of_cons. right. exact Hin.
  - exists d. split; [|exact Hturn]. apply elem_of_cons. left. reflexivity.
Qed.

Lemma data_loop_result (srv : Device) (harvester : Harvester) (P_min : Q)
    (devs : list Device) (res : list Result) :
  match data_loop srv harvester P_min devs res with
  | Some (devs', res') => res' = res /\ length devs' = length devs
  | None => unknown_to harvester P_min true devs
  end.
Proof.
  induction devs as [|d devs IH]; simpl; [repeat split|].
  unfold data_turn.
  destruct (_ && _).
  - destruct (transfer_data_to_edge_device_result srv d harvester P_min)
      as [[d' ->] | [-> Hnone]]; simpl.
    + destruct (data_loop srv harvester P_min devs res) as [[devs' res']|]; simpl.
      * destruct IH as (-> & Hlen). simpl. rewrite Hlen. repeat split.
      * destruct IH as (x & Hin & Hx). exists x. split; [|exact Hx].
        apply elem_of_cons. right. exact Hin.
    + exists d. split; [|exact Hnone]. apply elem_of_cons. left. reflexivity.
  - simpl. destruct (data_loop srv harvester P_min devs res) as [[devs' res']|]; simpl.
    + destruct IH as (-> & Hlen). simpl. rewrite Hlen. repeat split.
    + destruct IH as (x & Hin & Hx). exists x. split; [|exact Hx].
      apply elem_of_cons. right. exact Hin.
Qed.

(** Without battery no trigger test raises. *)
Lemma plain_knows_all (e : EnergyHarvester) (P_min : Q) (low : bool) (devs : list Device) :
  ~ unknown_to (Plain e) P_min low devs.
Proof. intros (d & _ & H). destruct low; discriminate. Qed.

Lemma download_pass_returns_plain
    (srv : Device) (e : EnergyHarvester) (P_min : Q) (lb : bool)
    (all_services : list Service) (devs : list Device) :
  exists devs', transfer_to_edge_device srv devs (Plain e) all_services P_min model lb
                = Some ([], devs').
Proof.
  unfold transfer_to_edge_device.
  pose proof (download_loop_result srv (Plain e) P_min lb (transferring_ids devs) devs
                (filter (fun s => server s = id srv) all_services) []) as H.
  destruct (download_loop _ _ _ _ _ _ _ _) as [[[devs' stt'] res']|]; simpl.
  - destruct H as (_ & -> & _). eauto.
  - exfalso. exact (plain_knows_all _ _ _ _ H).
Qed.

(** C10.  [_transfer_model_to_server] and [_transfer_model_to_edge_device]
    return false whenever they return, the initiating paths included (they
    fail to return only when the battery does not know the device); so the
    download loop of [transfer_to_edge_device] ends with the list
    [services_to_transfer] and the [results] it started with, and the
    function returns an empty result list. *)
Theorem transfer_flags_always_false
    (srv edge_device : Device) (harvester : Harvester) (P_min : Q) (lb : bool)
    (l all_services : list Service) (devs : list Device)
    (pinned : gset Z) (stt : list Service) (res : list Result) :
  ((exists d', _transfer_model_to_server edge_device srv P_min harvester
               = Some (false, d'))
   \/ (_transfer_model_to_server edge_device srv P_min harvester = None
       /\ low_power_trigger edge_device P_min harvester = None))
  /\ ((exists d', _transfer_model_to_edge_device srv edge_device harvester l P_min
                  = Some (false, d'))
      \/ (_transfer_model_to_edge_device srv edge_device harvester l P_min = None
          /\ high_power_trigger edge_device P_min harvester = None))
  /\ match download_loop srv harvester P_min lb pinned devs stt res with
     | Some (devs', stt', res') => stt' = stt /\ res' = res
     | None => unknown_to harvester P_min false devs
     end
  /\ match transfer_to_edge_device srv devs harvester all_services P_min model lb with
     | Some (results, devs') => results = []
     | None => unknown_to harvester P_min false devs
     end.
Proof.
  split; [apply transfer_model_to_server_result|].
  split; [apply transfer_model_to_edge_device_result|].
  split.
  - pose proof (download_loop_result srv harvester P_min lb pinned devs stt res) as H.
    destruct (download_loop _ _ _ _ _ _ _ _) as [[[devs' stt'] res']|]; [|exact H].
    destruct H as (? & ? & _). auto.
  - unfold transfer_to_edge_device.
    pose proof (download_loop_result srv harvester P_min lb (transferring_ids devs) devs
                  (filter (fun s => server s = id srv) all_services) []) as H.
    destruct (download_loop _ _ _ _ _ _ _ _) as [[[devs' stt'] res']|]; simpl; [|exact H].
    destruct H as (_ & ? & _). auto.
Qed.

(** The same holds for data offloading, and without battery the pass always
    returns. *)
Lemma transfer_to_edge_device_data_results
    (srv : Device) (harvester : Harvester) (P_min : Q) (lb : bool)
    (all_services : list Service) (devs : list Device) :
  match transfer_to_edge_device srv devs harvester all_services P_min data lb with
  | Some (results, devs') => results = []
  | None => unknown_to harvester P_min true devs
  end.
Proof.
  unfold transfer_to_edge_device.
  destruct (0 <? _); [|reflexivity].
  pose proof (data_loop_result srv harvester P_min devs []) as H.
  destruct (data_loop _ _ _ _ _) as [[devs' res']|]; simpl; [|exact H].
  destruct H as (? & _). auto.
Qed.

Lemma transfer_to_edge_device_plain
    (srv : Device) (e : EnergyHarvester) (P_min : Q) (lb : bool) (o : Offloading)
    (all_services : list Service) (devs : list Device) :
  exists devs', transfer_to_edge_device srv devs (Plain e) all_services P_min o lb
                = Some ([], devs').
Proof.
  destruct o.
  - pose proof (download_pass_returns_plain srv e P_min lb all_services devs) as H.
    exact H.
  - pose proof (transfer_to_edge_device_data_results srv (Plain e) P_min lb
                  all_services devs) as H.
    destruct (transfer_to_edge_device _ _ _ _ _ _ _) as [[results devs']|].
    + subst. eauto.
    + exfalso. exact (plain_knows_all _ _ _ _ H).
Qed.

(** *** The download pass over a fleet *)

(** C1 fails on the code.  The set of pinned ids is computed once before the
    loop and, because [_transfer_model_to_edge_device] returns false even
    when it starts a download, the services handed out are never removed
    from [services_to_transfer]: two eligible devices are offered the same
    services in the same pass.  With load balancing (two free cores each)
    both devices pin services 10 and 11 of the four the server holds;
    without it both pin service 10. *)
Theorem download_pass_pins_twice :
  (exists d2 d3,
     transfer_to_edge_device central_server fleet (Plain no_traces) server_services
       10 model true = Some ([], [central_server; d2; d3])
     /\ id d2 = 2 /\ id d3 = 3
     /\ transfer (transfer_model d2) = true /\ transfer (transfer_model d3) = true
     /\ transfer_service_ids (transfer_model d2) = [10; 11]
     /\ transfer_service_ids (transfer_model d3) = [10; 11])
  /\ (exists d2 d3,
        transfer_to_edge_device central_server fleet (Plain no_traces) server_services
          10 model false = Some ([], [central_server; d2; d3])
        /\ id d2 = 2 /\ id d3 = 3
        /\ transfer (transfer_model d2) = true /\ transfer (transfer_model d3) = true
        /\ transfer_service_ids (transfer_model d2) = [10]
        /\ transfer_service_ids (transfer_model d3) = [10]).
Proof.
  split; eexists _, _; (split; [vm_compute; reflexivity|]); repeat split.
Qed.

(** Ids pinned in an earlier pass are respected: once device 2 holds
    services 10 and 11, a later pass offers device 3 services 12 and 13. *)
Example download_pass_respects_earlier_pins :
  let busy := upd_tm (start_transfer (idle_edge 2))
                (fun t => set_transfer_service_ids t [10; 11]) in
  exists d3,
    transfer_to_edge_device central_server [central_server; busy; idle_edge 3]
      (Plain no_traces) server_services 10 model true
    = Some ([], [central_server; busy; d3])
    /\ transfer_service_ids (transfer_model d3) = [12; 13].
Proof. eexists. split; [vm_compute; reflexivity | reflexivity]. Qed.

(** *** Re-initiation by the strategy *)

End ProactiveFacts.

(** ** A transfer in flight on a device without power *)

Module PowerlessWindow.

Import Py PyFacts Battery Model BaseDevice ProactiveDevice ProactiveFacts ProactiveTick.

Lemma get_low_power_powerless (d : Device) (P_min : Q) :
  (actual_power d == 0)%Q -> (0 < P_min)%Q -> _get_low_power d P_min = true.
Proof.
  intros Hp HP. unfold _get_low_power.
  destruct (Qle_bool P_min (actual_power d)) eqn:H; [|reflexivity].
  apply Qle_bool_iff in H. rewrite Hp in H. exfalso. apply (Qlt_not_le _ _ HP H).
Qed.

Lemma get_high_power_powerless (d : Device) (P_min : Q) :
  (actual_power d == 0)%Q -> (0 < P_min)%Q -> _get_high_power d P_min = false.
Proof.
  intros Hp HP. unfold _get_high_power.
  destruct (Qle_bool P_min (actual_power d)) eqn:H; [|reflexivity].
  apply Qle_bool_iff in H. rewrite Hp in H. exfalso. apply (Qlt_not_le _ _ HP H).
Qed.

(** *** The upload decision *)

Lemma hosted_filter (d : Device) (all_services : list Service) :
  hosted d all_services <-> filter (fun s => server s = id d) all_services <> [].
Proof.
  unfold hosted. split.
  - intros (s & Hin & Hs) Hnil.
    assert (H : s ∈ filter (fun s => server s = id d) all_services)
      by (apply list_elem_of_filter; auto).
    rewrite Hnil in H. by apply elem_of_nil in H.
  - intros Hne. destruct (filter _ all_services) as [|s l] eqn:Hf; [done|].
    assert (H : s ∈ filter (fun s => server s = id d) all_services)
      by (rewrite Hf; left).
    apply list_elem_of_filter in H as [Hs Hin]. eauto.
Qed.


Lemma upload_decision_in_flight (ids : list Z) (srv : Device) (all : list Service)
    (P_min : Q) (h : Harvester) (d : Device) :
  transfer (transfer_model d) = true ->
  upload_decision ids srv all P_min model h d = Some d.
Proof.
  intros Ht. unfold upload_decision.
  destruct (bool_decide _); [|reflexivity].
  destruct (bool_decide _); [|reflexivity].
  unfold transfer_to_server, _transfer_model_to_server. rewrite Ht. reflexivity.
Qed.

Lemma upload_decision_vacant (ids : list Z) (srv : Device) (all : list Service)
    (P_min : Q) (h : Harvester) (d : Device) :
  ~ hosted d all ->
  upload_decision ids srv all P_min model h d = Some d.
Proof.
  intros Hv. unfold upload_decision.
  destruct (bool_decide _); [|reflexivity].
  rewrite bool_decide_eq_false_2; [reflexivity|].
  intros Hne. apply Hv, hosted_filter, Hne.
Qed.

Lemma upload_decision_restarts (ids : list Z) (srv : Device) (all : list Service)
    (P_min : Q) (e : EnergyHarvester) (d : Device) :
  transfer (transfer_model d) = false ->
  id d ∈ ids -> hosted d all ->
  (actual_power d == 0)%Q -> (0 < P_min)%Q ->
  upload_decision ids srv all P_min model (Plain e) d = Some (restarted d srv).
Proof.
  intros Ht Hid Hh Hp HP. unfold upload_decision.
  rewrite bool_decide_eq_true_2 by exact Hid.
  rewrite bool_decide_eq_true_2 by (apply hosted_filter, Hh).
  unfold transfer_to_server, _transfer_model_to_server. rewrite Ht. simpl.
  rewrite (get_low_power_powerless d P_min Hp HP). reflexivity.
Qed.

(** Without battery the decision never raises, and it leaves the power of
    the device alone. *)
Lemma upload_decision_plain (ids : list Z) (srv : Device) (all : list Service)
    (P_min : Q) (e : EnergyHarvester) (d : Device) :
  exists d1, upload_decision ids srv all P_min model (Plain e) d = Some d1.
Proof.
  unfold upload_decision.
  destruct (bool_decide _); [|eauto].
  destruct (bool_decide _); [|eauto].
  unfold transfer_to_server, _transfer_model_to_server.
  destruct (transfer (transfer_model d)); simpl; [eauto|].
  destruct (_get_low_power d P_min); simpl; eauto.
Qed.

(** *** The download pass *)

Lemma download_turn_powerless (srv : Device) (e : EnergyHarvester) (P_min : Q)
    (lb : bool) (pinned : gset Z) (d : Device) (stt : list Service) (res : list Result) :
  (actual_power d == 0)%Q -> (0 < P_min)%Q ->
  download_turn srv (Plain e) P_min lb pinned d stt res = Some (d, stt, res).
Proof.
  intros Hp HP. unfold download_turn.
  destruct (_ || _); [reflexivity|].
  destruct (if lb then _ else _); [reflexivity|].
  destruct (take _ _) as [|s l]; [reflexivity|].
  unfold _transfer_model_to_edge_device.
  destruct (transfer (transfer_model d)); [reflexivity|]. simpl.
  rewrite (get_high_power_powerless d P_min Hp HP). reflexivity.
Qed.

Lemma download_loop_powerless (srv : Device) (e : EnergyHarvester) (P_min : Q)
    (lb : bool) (pinned : gset Z) (devs : list Device) :
  forall (stt : list Service) (res : list Result) devs' stt' res' (i : nat) (d : Device),
    download_loop srv (Plain e) P_min lb pinned devs stt res = Some (devs', stt', res') ->
    devs !! i = Some d ->
    (actual_power d == 0)%Q -> (0 < P_min)%Q ->
    devs' !! i = Some d.
Proof.
  induction devs as [|a devs IH]; intros stt res devs' stt' res' i d H Hi Hp HP;
    [done|].
  simpl in H.
  apply bind_Some in H as ([[a1 stt1] res1] & Hturn & H).
  apply bind_Some in H as ([[rest stt2] res2] & Hloop & H).
  injection H as <- <- <-.
  destruct i as [|i]; simpl in *.
  - injection Hi as ->.
    rewrite (download_turn_powerless srv e P_min lb pinned d stt res Hp HP) in Hturn.
    injection Hturn as <- _ _. reflexivity.
  - eapply IH; eauto.
Qed.

Lemma download_pass_powerless (srv : Device) (e : EnergyHarvester) (P_min : Q)
    (lb : bool) (all : list Service) (devs : list Device) (i : nat) (d : Device) :
  devs !! i = Some d ->
  (actual_power d == 0)%Q -> (0 < P_min)%Q ->
  exists devs', transfer_to_edge_device srv devs (Plain e) all P_min model lb
                = Some ([], devs')
                /\ devs' !! i = Some d.
Proof.
  intros Hi Hp HP.
  destruct (download_pass_returns_plain srv e P_min lb all devs) as [devs' H].
  exists devs'. split; [exact H|].
  unfold transfer_to_edge_device in H.
  apply bind_Some in H as ([[devs1 stt1] res1] & Hloop & H).
  injection H as _ <-.
  eapply download_loop_powerless; eauto.
Qed.

(** *** The update pass *)

Lemma assign_up_id (e s : Device) (x : Service) :
  id (assign_service_edge_device_to_server e s x).2 = id s.
Proof. unfold assign_service_edge_device_to_server. destruct (decide _); reflexivity. Qed.

Lemma assign_down_id (s e : Device) (x : Service) :
  id (assign_service_server_to_edge_device s e x).2 = id s.
Proof. unfold assign_service_server_to_edge_device. destruct (decide _); reflexivity. Qed.

Lemma foldl_up_id (l : list Service) (e s : Device) :
  id (foldl (fun '(e, s) x => assign_service_edge_device_to_server e s x) (e, s) l).2
  = id s.
Proof.
  revert e s. induction l as [|x l IH]; intros e s; [reflexivity|]. simpl.
  destruct (assign_service_edge_device_to_server e s x) as [e1 s1] eqn:E.
  rewrite IH. pose proof (assign_up_id e s x) as H. rewrite E in H. exact H.
Qed.

Lemma foldl_down_id (l : list Service) (e s : Device) :
  id (foldl (fun '(e, s) x => assign_service_server_to_edge_device s e x) (e, s) l).2
  = id s.
Proof.
  revert e s. induction l as [|x l IH]; intros e s; [reflexivity|]. simpl.
  destruct (assign_service_server_to_edge_device s e x) as [e1 s1] eqn:E.
  rewrite IH. pose proof (assign_down_id s e x) as H. rewrite E in H. exact H.
Qed.

Lemma update_to_server_id (d s : Device) :
  id (_update_ongoing_transfers_to_server d s).2 = id s.
Proof.
  unfold _update_ongoing_transfers_to_server.
  destruct (BaseDevice.transfer_failed d); [reflexivity|].
  destruct (update_transfer_duration d) as [[|] d1]; [|reflexivity].
  pose proof (foldl_up_id
                (filter (fun x => sid x ∈ transfer_service_ids (transfer_model d1))
                        (services d1)) d1 s) as H.
  destruct (foldl _ _ _) as [e1 s1]. exact H.
Qed.

Lemma update_to_device_id (d s : Device) :
  id (_update_ongoing_transfers_to_device d s).2 = id s.
Proof.
  unfold _update_ongoing_transfers_to_device.
  destruct (BaseDevice.transfer_failed d); [reflexivity|].
  destruct (update_transfer_duration d) as [[|] d1]; [|reflexivity].
  pose proof (foldl_down_id
                (filter (fun x => sid x ∈ transfer_service_ids (transfer_model d1))
                        (services s)) d1 s) as H.
  destruct (foldl _ _ _) as [e1 s1]. exact H.
Qed.

Lemma update_step_id (d s : Device) :
  id (update_ongoing_model_step d s).2 = id s.
Proof.
  unfold update_ongoing_model_step.
  destruct (transfer (transfer_model d)
            && negb (transfer_to_device_id (transfer_model d) =? 0)).
  - pose proof (update_to_server_id d s) as H1.
    destruct (_update_ongoing_transfers_to_server d s) as [d1 s1]. simpl in H1.
    destruct (transfer (transfer_model d1)
              && negb (transfer_from_device_id (transfer_model d1) =? 0)).
    + rewrite update_to_device_id. exact H1.
    + exact H1.
  - destruct (transfer (transfer_model d)
              && negb (transfer_from_device_id (transfer_model d) =? 0)).
    + apply update_to_device_id.
    + reflexivity.
Qed.

Lemma update_pass_at (devs : list Device) :
  forall (srv : Device) (i : nat) (d : Device),
    devs !! i = Some d ->
    id (_update_ongoing_transfers_model devs srv).2 = id srv
    /\ exists s, id s = id srv
         /\ (_update_ongoing_transfers_model devs srv).1 !! i
            = Some (update_ongoing_model_step d s).1.
Proof.
  induction devs as [|a devs IH]; intros srv i d Hi; [done|].
  simpl.
  pose proof (update_step_id a srv) as Hid.
  destruct (update_ongoing_model_step a srv) as [a1 s1] eqn:Ea. simpl in Hid.
  destruct i as [|i]; simpl in Hi.
  - injection Hi as ->.
    destruct (_update_ongoing_transfers_model devs s1) as [rest s2] eqn:Er. simpl.
    split.
    + destruct devs as [|b devs'].
      * simpl in Er. injection Er as _ <-. exact Hid.
      * destruct (IH s1 0%nat b eq_refl) as [H _]. rewrite Er in H. simpl in H. congruence.
    + exists srv. split; [reflexivity|]. rewrite Ea. reflexivity.
  - destruct (IH s1 i d Hi) as (H2 & s & Hs & Hl).
    destruct (_update_ongoing_transfers_model devs s1) as [rest s2]. simpl in *.
    split; [congruence|]. exists s. split; [congruence | exact Hl].
Qed.

Lemma update_pass_id (devs : list Device) (srv : Device) :
  id (_update_ongoing_transfers_model devs srv).2 = id srv.
Proof.
  destruct devs as [|a devs]; [reflexivity|].
  exact (proj1 (update_pass_at (a :: devs) srv 0%nat a eq_refl)).
Qed.


(** *** One tick *)

Lemma upload_decision_power (ids : list Z) (srv : Device) (all : list Service)
    (P_min : Q) (h : Harvester) (d d1 : Device) :
  upload_decision ids srv all P_min model h d = Some d1 ->
  actual_power d1 = actual_power d.
Proof.
  unfold upload_decision.
  destruct (bool_decide _); [|intros [= <-]; reflexivity].
  destruct (bool_decide _); [|intros [= <-]; reflexivity].
  unfold transfer_to_server, _transfer_model_to_server.
  destruct (transfer (transfer_model d)); simpl; [intros [= <-]; reflexivity|].
  destruct (low_power_trigger d P_min h) as [[|]|]; simpl;
    [intros [= <-]; reflexivity | intros [= <-]; reflexivity | discriminate].
Qed.

Lemma transfer_phase_at (ids : list Z) (fleet : list Device) (srv : Device)
    (all : list Service) (P_min : Q) (lb : bool) (e : EnergyHarvester)
    (i : nat) (d : Device) :
  fleet !! i = Some d ->
  (actual_power d == 0)%Q -> (0 < P_min)%Q ->
  exists fleet' srv' d1 s,
    transfer_phase ids fleet srv all P_min model lb (Plain e) = Some (fleet', srv')
    /\ upload_decision ids srv all P_min model (Plain e) d = Some d1
    /\ id s = id srv /\ id srv' = id srv
    /\ fleet' !! i = Some (update_ongoing_model_step d1 s).1.
Proof.
  intros Hi Hp HP.
  destruct (mapM (upload_decision ids srv all P_min model (Plain e)) fleet)
    as [fleet1|] eqn:Hm.
  2:{ exfalso.
      assert (Hs : is_Some (mapM (upload_decision ids srv all P_min model (Plain e)) fleet)).
      { apply mapM_is_Some. apply Forall_forall. intros x _.
        destruct (upload_decision_plain ids srv all P_min e x) as [x1 Hx].
        simpl. rewrite Hx. eauto. }
      rewrite Hm in Hs. destruct Hs as [? Hs]. discriminate. }
  pose proof Hm as Hm2. apply mapM_Some in Hm2.
  destruct (Forall2_lookup_l _ _ _ _ _ Hm2 Hi) as (d1 & Hi1 & Hd1).
  assert (Hp1 : (actual_power d1 == 0)%Q).
  { rewrite (upload_decision_power _ _ _ _ _ _ _ Hd1). exact Hp. }
  destruct (download_pass_powerless srv e P_min lb all fleet1 i d1 Hi1 Hp1 HP)
    as (fleet2 & Hpass & Hi2).
  destruct (update_pass_at fleet2 srv i d1 Hi2) as (Hid & s & Hs & Hl).
  exists (_update_ongoing_transfers_model fleet2 srv).1,
         (_update_ongoing_transfers_model fleet2 srv).2, d1, s.
  split; [|auto].
  unfold transfer_phase. rewrite Hm. cbn [mbind option_bind]. rewrite Hpass.
  cbn [mbind option_bind update_ongoing_transfers].
  destruct (_update_ongoing_transfers_model fleet2 srv). reflexivity.
Qed.

Lemma after_failed_upload_restarted (d srv : Device) :
  after_failed_upload (restarted d srv) = after_failed_upload d.
Proof. destruct d as [? ? ? ? ? ? ? ? ? ? []]. reflexivity. Qed.

(** A tick on an idle powerless device that hosts a service: a new upload
    is started and fails. *)
Lemma idle_hosting_tick (ids : list Z) (fleet : list Device) (srv : Device)
    (all : list Service) (P_min : Q) (lb : bool) (e : EnergyHarvester)
    (i : nat) (d : Device) :
  fleet !! i = Some d ->
  (actual_power d == 0)%Q -> (0 < P_min)%Q ->
  transfer (transfer_model d) = false ->
  0 < transfer_time (transfer_model d) ->
  id d ∈ ids -> id srv <> 0 -> hosted d all ->
  exists fleet' srv',
    transfer_phase ids fleet srv all P_min model lb (Plain e) = Some (fleet', srv')
    /\ id srv' = id srv
    /\ fleet' !! i = Some (after_failed_upload d).
Proof.
  intros Hi Hp HP Ht Htime Hid Hsrv Hh.
  destruct (transfer_phase_at ids fleet srv all P_min lb e i d Hi Hp HP)
    as (fleet' & srv' & d1 & s & Hphase & Hd1 & Hs & Hsrv' & Hl).
  rewrite (upload_decision_restarts ids srv all P_min e d Ht Hid Hh Hp HP) in Hd1.
  injection Hd1 as <-.
  exists fleet', srv'. split; [exact Hphase|]. split; [exact Hsrv'|].
  rewrite Hl. f_equal.
  rewrite (upload_fails_step (restarted d srv) s);
    [apply after_failed_upload_restarted | reflexivity | exact Hsrv
    | exact Htime | exact Hp].
Qed.

(** A tick on a powerless device with a transfer in flight. *)
Lemma in_flight_tick (ids : list Z) (fleet : list Device) (srv : Device)
    (all : list Service) (P_min : Q) (lb : bool) (e : EnergyHarvester)
    (i : nat) (d : Device) :
  fleet !! i = Some d ->
  (actual_power d == 0)%Q -> (0 < P_min)%Q ->
  transfer (transfer_model d) = true ->
  transfer_duration (transfer_model d) < transfer_time (transfer_model d) ->
  exists fleet' srv',
    transfer_phase ids fleet srv all P_min model lb (Plain e) = Some (fleet', srv')
    /\ id srv' = id srv
    /\ (transfer_to_device_id (transfer_model d) <> 0 ->
        fleet' !! i = Some (after_failed_upload d))
    /\ (transfer_to_device_id (transfer_model d) = 0 ->
        transfer_from_device_id (transfer_model d) <> 0 ->
        fleet' !! i = Some (after_failed_download d)).
Proof.
  intros Hi Hp HP Ht Hlt.
  destruct (transfer_phase_at ids fleet srv all P_min lb e i d Hi Hp HP)
    as (fleet' & srv' & d1 & s & Hphase & Hd1 & Hs & Hsrv' & Hl).
  rewrite (upload_decision_in_flight ids srv all P_min (Plain e) d Ht) in Hd1.
  injection Hd1 as <-.
  exists fleet', srv'. split; [exact Hphase|]. split; [exact Hsrv'|]. split.
  - intros Hto. rewrite Hl, (upload_fails_step d s Ht Hto Hlt Hp). reflexivity.
  - intros Hto Hfrom.
    rewrite Hl, (download_fails_step d s Ht Hto Hfrom Hlt Hp). reflexivity.
Qed.

(** A tick on an idle powerless device that hosts no service. *)
Lemma idle_vacant_tick (ids : list Z) (fleet : list Device) (srv : Device)
    (all : list Service) (P_min : Q) (lb : bool) (e : EnergyHarvester)
    (i : nat) (d : Device) :
  fleet !! i = Some d ->
  (actual_power d == 0)%Q -> (0 < P_min)%Q ->
  transfer (transfer_model d) = false ->
  ~ hosted d all ->
  exists fleet' srv',
    transfer_phase ids fleet srv all P_min model lb (Plain e) = Some (fleet', srv')
    /\ id srv' = id srv
    /\ fleet' !! i = Some d.
Proof.
  intros Hi Hp HP Ht Hv.
  destruct (transfer_phase_at ids fleet srv all P_min lb e i d Hi Hp HP)
    as (fleet' & srv' & d1 & s & Hphase & Hd1 & Hs & Hsrv' & Hl).
  rewrite (upload_decision_vacant ids srv all P_min (Plain e) d Hv) in Hd1.
  injection Hd1 as <-.
  exists fleet', srv'. split; [exact Hphase|]. split; [exact Hsrv'|].
  rewrite Hl, (update_ongoing_model_step_idle d s Ht). reflexivity.
Qed.


(** *** A window of ticks *)

Lemma iter_after_failed_upload (n : nat) (d : Device) :
  Nat.iter (S n) after_failed_upload d
  = after_failed_uploads d (transfer_from_device_id (transfer_model d)) (Z.of_nat (S n)).
Proof.
  induction n as [|n IH].
  - destruct d as [? ? ? ? ? ? ? ? ? ? []]. reflexivity.
  - change (Nat.iter (S (S n)) after_failed_upload d)
      with (after_failed_upload (Nat.iter (S n) after_failed_upload d)).
    rewrite IH. destruct d as [? ? ? ? ? ? ? ? ? ? []].
    unfold after_failed_upload, after_failed_uploads. cbn -[Z.of_nat Z.add].
    do 2 f_equal. lia.
Qed.

Lemma idle_hosting_ticks (ids : list Z) (P_min : Q) (lb : bool) (i : nat)
    (ticks : list (list Service * Harvester)) :
  forall (fleet : list Device) (srv d : Device),
    fleet !! i = Some d ->
    (actual_power d == 0)%Q -> (0 < P_min)%Q ->
    transfer (transfer_model d) = false ->
    0 < transfer_time (transfer_model d) ->
    id d ∈ ids -> id srv <> 0 ->
    Forall (hosting_tick d) ticks ->
    exists fleet' srv',
      transfer_phases ticks ids fleet srv P_min model lb = Some (fleet', srv')
      /\ fleet' !! i = Some (Nat.iter (length ticks) after_failed_upload d).
Proof.
  induction ticks as [|[all h] ticks IH];
    intros fleet srv d Hi Hp HP Ht Htime Hid Hsrv Hticks.
  - exists fleet, srv. split; [reflexivity | exact Hi].
  - apply Forall_cons in Hticks as [[[e He] Hh] Hticks]. simpl in He, Hh. subst h.
    destruct (idle_hosting_tick ids fleet srv all P_min lb e i d
                Hi Hp HP Ht Htime Hid Hsrv Hh)
      as (fleet1 & srv1 & Hphase & Hsrv1 & Hi1).
    destruct (IH fleet1 srv1 (after_failed_upload d) Hi1 Hp HP eq_refl Htime Hid
                ltac:(congruence) Hticks)
      as (fleet' & srv' & Hrest & Hl).
    exists fleet', srv'. split.
    + simpl. rewrite Hphase. exact Hrest.
    + rewrite Hl. f_equal. simpl length. rewrite Nat.iter_succ_r. reflexivity.
Qed.

Lemma idle_vacant_ticks (ids : list Z) (P_min : Q) (lb : bool) (i : nat)
    (ticks : list (list Service * Harvester)) :
  forall (fleet : list Device) (srv d : Device),
    fleet !! i = Some d ->
    (actual_power d == 0)%Q -> (0 < P_min)%Q ->
    transfer (transfer_model d) = false ->
    Forall (vacant_tick d) ticks ->
    exists fleet' srv',
      transfer_phases ticks ids fleet srv P_min model lb = Some (fleet', srv')
      /\ fleet' !! i = Some d.
Proof.
  induction ticks as [|[all h] ticks IH]; intros fleet srv d Hi Hp HP Ht Hticks.
  - exists fleet, srv. split; [reflexivity | exact Hi].
  - apply Forall_cons in Hticks as [[[e He] Hv] Hticks]. simpl in He, Hv. subst h.
    destruct (idle_vacant_tick ids fleet srv all P_min lb e i d Hi Hp HP Ht Hv)
      as (fleet1 & srv1 & Hphase & Hsrv1 & Hi1).
    destruct (IH fleet1 srv1 d Hi1 Hp HP Ht Hticks) as (fleet' & srv' & Hrest & Hl).
    exists fleet', srv'. split; [|exact Hl].
    simpl. rewrite Hphase. exact Hrest.
Qed.

(** C4.  A device with a transfer in flight, fewer elapsed ticks than
    [transfer_time] and no power at the update step fails the transfer on
    that tick: an upload counts one failure on the device, a download one
    on the server; flag, duration, pinned ids and the direction slot are
    back to neutral, nothing is moved and no success is counted
    ([after_failed_upload], [after_failed_download], [count_failure]).

    Over a window of ticks in which the power stays 0 (no battery, positive
    threshold) the failed transfer is never completed, but the device does
    not fail exactly once: as long as it hosts a service, every later tick
    starts a new upload, which fails on the same tick.  An uploading device
    counts as many failures as the window has ticks; a downloading device
    one failure on the server and one on itself for every tick after the
    first.  Only a device that hosts no service is left with the one
    failure of the transfer that was in flight. *)
Theorem powerless_transfer_fails_every_tick (d srv : Device) :
  transfer (transfer_model d) = true ->
  transfer_duration (transfer_model d) < transfer_time (transfer_model d) ->
  (actual_power d == 0)%Q ->
  (transfer_to_device_id (transfer_model d) <> 0 ->
   update_ongoing_model_step d srv = (after_failed_upload d, srv)
   /\ forall (ids : list Z) (fleet : list Device) (i : nat) (P_min : Q) (lb : bool)
             (tick : list Service * Harvester) (ticks : list (list Service * Harvester)),
        fleet !! i = Some d -> (0 < P_min)%Q ->
        (id d ∈ ids -> id srv <> 0 -> 0 < transfer_time (transfer_model d) ->
         Forall (hosting_tick d) (tick :: ticks) ->
         exists fleet' srv',
           transfer_phases (tick :: ticks) ids fleet srv P_min model lb
           = Some (fleet', srv')
           /\ fleet' !! i
              = Some (after_failed_uploads d
                        (transfer_from_device_id (transfer_model d))
                        (Z.of_nat (length (tick :: ticks)))))
        /\ (Forall (vacant_tick d) (tick :: ticks) ->
            exists fleet' srv',
              transfer_phases (tick :: ticks) ids fleet srv P_min model lb
              = Some (fleet', srv')
              /\ fleet' !! i = Some (after_failed_upload d)))
  /\ (transfer_to_device_id (transfer_model d) = 0 ->
      transfer_from_device_id (transfer_model d) <> 0 ->
      update_ongoing_model_step d srv = (after_failed_download d, count_failure srv)
      /\ forall (ids : list Z) (fleet : list Device) (i : nat) (P_min : Q) (lb : bool)
                (tick : list Service * Harvester)
                (ticks : list (list Service * Harvester)),
           fleet !! i = Some d -> (0 < P_min)%Q ->
           (id d ∈ ids -> id srv <> 0 -> 0 < transfer_time (transfer_model d) ->
            Forall (hosting_tick d) (tick :: ticks) ->
            exists fleet' srv',
              transfer_phases (tick :: ticks) ids fleet srv P_min model lb
              = Some (fleet', srv')
              /\ fleet' !! i
                 = Some (after_failed_uploads d 0 (Z.of_nat (length ticks))))
           /\ (Forall (vacant_tick d) (tick :: ticks) ->
               exists fleet' srv',
                 transfer_phases (tick :: ticks) ids fleet srv P_min model lb
                 = Some (fleet', srv')
                 /\ fleet' !! i = Some (after_failed_download d))).
Proof.
  intros Ht Hlt Hp.
  split.
  - intros Hto. split; [exact (upload_fails_step d srv Ht Hto Hlt Hp)|].
    intros ids fleet i P_min lb [all h] ticks Hi HP. split.
    + intros Hid Hsrv Htime Hticks.
      apply Forall_cons in Hticks as [[[e He] Hh] Hticks]. simpl in He. subst h.
      destruct (in_flight_tick ids fleet srv all P_min lb e i d Hi Hp HP Ht Hlt)
        as (fleet1 & srv1 & Hphase & Hsrv1 & Hup & _).
      destruct (idle_hosting_ticks ids P_min lb i ticks fleet1 srv1
                  (after_failed_upload d) (Hup Hto) Hp HP eq_refl Htime Hid
                  ltac:(congruence) Hticks)
        as (fleet' & srv' & Hrest & Hl).
      exists fleet', srv'. split; [simpl; rewrite Hphase; exact Hrest|].
      rewrite Hl, <- Nat.iter_succ_r, iter_after_failed_upload. reflexivity.
    + intros Hticks.
      apply Forall_cons in Hticks as [[[e He] Hh] Hticks]. simpl in He. subst h.
      destruct (in_flight_tick ids fleet srv all P_min lb e i d Hi Hp HP Ht Hlt)
        as (fleet1 & srv1 & Hphase & Hsrv1 & Hup & _).
      destruct (idle_vacant_ticks ids P_min lb i ticks fleet1 srv1
                  (after_failed_upload d) (Hup Hto) Hp HP eq_refl Hticks)
        as (fleet' & srv' & Hrest & Hl).
      exists fleet', srv'. split; [simpl; rewrite Hphase; exact Hrest | exact Hl].
  - intros Hto Hfrom.
    split; [exact (download_fails_step d srv Ht Hto Hfrom Hlt Hp)|].
    intros ids fleet i P_min lb [all h] ticks Hi HP. split.
    + intros Hid Hsrv Htime Hticks.
      apply Forall_cons in Hticks as [[[e He] Hh] Hticks]. simpl in He. subst h.
      destruct (in_flight_tick ids fleet srv all P_min lb e i d Hi Hp HP Ht Hlt)
        as (fleet1 & srv1 & Hphase & Hsrv1 & _ & Hdown).
      destruct (idle_hosting_ticks ids P_min lb i ticks fleet1 srv1
                  (after_failed_download d) (Hdown Hto Hfrom) Hp HP eq_refl Htime Hid
                  ltac:(congruence) Hticks)
        as (fleet' & srv' & Hrest & Hl).
      exists fleet', srv'. split; [simpl; rewrite Hphase; exact Hrest|].
      rewrite Hl. f_equal. destruct ticks as [|t ticks'].
      * destruct d as [? ? ? ? ? ? ? ? ? ? []]. simpl in Hto. subst.
        unfold after_failed_download, after_failed_uploads. simpl.
        rewrite Z.add_0_r. reflexivity.
      * simpl length. rewrite iter_after_failed_upload.
        destruct d as [? ? ? ? ? ? ? ? ? ? []]. reflexivity.
    + intros Hticks.
      apply Forall_cons in Hticks as [[[e He] Hh] Hticks]. simpl in He. subst h.
      destruct (in_flight_tick ids fleet srv all P_min lb e i d Hi Hp HP Ht Hlt)
        as (fleet1 & srv1 & Hphase & Hsrv1 & _ & Hdown).
      destruct (idle_vacant_ticks ids P_min lb i ticks fleet1 srv1
                  (after_failed_download d) (Hdown Hto Hfrom) Hp HP eq_refl Hticks)
        as (fleet' & srv' & Hrest & Hl).
      exists fleet', srv'. split; [simpl; rewrite Hphase; exact Hrest | exact Hl].
Qed.


(** A powerless upload and a powerless download over a window of three
    ticks: the uploading device, which hosts service 20, counts three
    failures; the downloading device, which hosts nothing, is left as its
    one failed download leaves it. *)
Lemma powerless_transfer_fails_every_tick_witness :
  (exists fleet' srv',
     transfer_phases [dark_tick; dark_tick; dark_tick] [2; 3] powerless_fleet
       Scenarios.central_server 10 model false = Some (fleet', srv')
     /\ fleet' !! 0%nat = Some (after_failed_uploads Scenarios.uploading_edge 0 3))
  /\ (exists fleet' srv',
        transfer_phases [dark_tick; dark_tick; dark_tick] [2; 3] powerless_fleet
          Scenarios.central_server 10 model false = Some (fleet', srv')
        /\ fleet' !! 1%nat = Some (after_failed_download Scenarios.downloading_edge)).
Proof.
  split.
  - destruct (powerless_transfer_fails_every_tick Scenarios.uploading_edge
                Scenarios.central_server eq_refl eq_refl ltac:(reflexivity))
      as [Hup _].
    destruct (Hup ltac:(discriminate)) as [_ Hwin].
    destruct (Hwin [2; 3] powerless_fleet 0%nat 10%Q false dark_tick
                [dark_tick; dark_tick] eq_refl ltac:(reflexivity)) as [Hhost _].
    apply Hhost.
    + apply list_elem_of_In. simpl. auto.
    + discriminate.
    + reflexivity.
    + assert (H : hosting_tick Scenarios.uploading_edge dark_tick).
      { split; [eexists; reflexivity|].
        exists (Scenarios.fresh_service 20 2 3 2). split; [|reflexivity].
        apply list_elem_of_In. simpl. auto 10. }
      repeat (apply Forall_cons_2; [exact H|]). apply Forall_nil_2.
  - destruct (powerless_transfer_fails_every_tick Scenarios.downloading_edge
                Scenarios.central_server eq_refl eq_refl ltac:(reflexivity))
      as [_ Hdown].
    destruct (Hdown eq_refl ltac:(discriminate)) as [_ Hwin].
    destruct (Hwin [2; 3] powerless_fleet 1%nat 10%Q false dark_tick
                [dark_tick; dark_tick] eq_refl ltac:(reflexivity)) as [_ Hvacant].
    apply Hvacant.
    assert (H : vacant_tick Scenarios.downloading_edge dark_tick).
    { split; [eexists; reflexivity|].
      intros (s & Hin & Hs). apply list_elem_of_In in Hin. simpl in Hin.
      intuition (subst; discriminate). }
    repeat (apply Forall_cons_2; [exact H|]). apply Forall_nil_2.
Defined.

(** A device without power for its whole [transfer_time] window of five
    ticks does not fail exactly once: the upload in flight fails on the
    first tick, and each of the four ticks that follow starts and fails
    another one. *)
Example powerless_window_counts_five_failures :
  transfer (transfer_model Scenarios.uploading_edge) = true
  /\ transfer_time (transfer_model Scenarios.uploading_edge) = 5
  /\ (actual_power Scenarios.uploading_edge == 0)%Q
  /\ exists fleet' srv' d',
       transfer_phases [dark_tick; dark_tick; dark_tick; dark_tick; dark_tick] [2; 3]
         powerless_fleet Scenarios.central_server 10 model false = Some (fleet', srv')
       /\ fleet' !! 0%nat = Some d'
       /\ Model.transfer_failed (transfer_model d') = 5
       /\ transfer_succeded (transfer_model d') = 0
       /\ services d' = services Scenarios.uploading_edge.
Proof.
  split; [reflexivity|]. split; [reflexivity|]. split; [reflexivity|].
  eexists _, _, _. split; [vm_compute; reflexivity|].
  split; [reflexivity|]. repeat split.
Qed.

End PowerlessWindow.

(** ** Training of a service *)

Module AIModelFacts.

Import Model AIModel Scenarios.
Local Open Scope Z_scope.

Ltac split_ifs :=
  repeat (match goal with
          | |- context [if ?b then _ else _] => destruct b
          end; simpl).

Lemma predict_training_fields (s : Service) :
  trained (predict s) = trained s
  /\ actual_training_time (predict s) = actual_training_time s
  /\ max_training_time (predict s) = max_training_time s.
Proof. unfold predict. split_ifs; repeat split. Qed.

Lemma train_model_max (s : Service) :
  max_training_time (train_model s) = max_training_time s.
Proof. unfold train_model. split_ifs; reflexivity. Qed.

Lemma train_model_running (s : Service) :
  train_model (_state_running s) = _state_running (train_model s).
Proof. unfold train_model, _state_running. simpl. split_ifs; reflexivity. Qed.

(** What a tick does to the training fields is what [train_model] does. *)
Lemma run_training_fields (s : Service) :
  trained (run s) = trained (train_model s)
  /\ actual_training_time (run s) = actual_training_time (train_model s)
  /\ max_training_time (run s) = max_training_time s.
Proof.
  unfold run, increase_program_counter. simpl.
  destruct (predict_training_fields (train_model (_state_running s))) as (-> & -> & ->).
  rewrite train_model_running. simpl. rewrite train_model_max. repeat split.
Qed.

Lemma train_model_increment (s : Service) :
  trained s = false ->
  actual_training_time s <> max_training_time s ->
  train_model s = set_actual_training_time s (actual_training_time s + 1).
Proof.
  intros Ht Hne. unfold train_model. rewrite Ht.
  apply Z.eqb_neq in Hne. rewrite Hne. reflexivity.
Qed.

Lemma train_model_finish (s : Service) :
  trained s = false ->
  actual_training_time s = max_training_time s ->
  train_model s = set_actual_training_time (set_trained s true) 0.
Proof.
  intros Ht He. unfold train_model. rewrite Ht.
  apply Z.eqb_eq in He. rewrite He. reflexivity.
Qed.

(** C5, as the code has it.  On the tick whose training step increments
    [actual_training_time] to [max_training_time] the service stays
    untrained with the counter at its maximum; the training step of the
    next tick sets [trained] and resets the counter to 0. *)
Theorem training_completes_on_next_tick (s : Service) :
  trained s = false ->
  actual_training_time s + 1 = max_training_time s ->
  (trained (train_model s) = false
   /\ actual_training_time (train_model s) = max_training_time s
   /\ trained (train_model (train_model s)) = true
   /\ actual_training_time (train_model (train_model s)) = 0)
  /\ (trained (run s) = false
      /\ actual_training_time (run s) = max_training_time s
      /\ trained (run (run s)) = true
      /\ actual_training_time (run (run s)) = 0).
Proof.
  intros Ht Hinc.
  assert (Hne : actual_training_time s <> max_training_time s) by lia.
  assert (H1 : train_model s = set_actual_training_time s (max_training_time s)).
  { rewrite (train_model_increment s Ht Hne). rewrite Hinc. reflexivity. }
  assert (Hstep : forall x, trained x = false ->
                            actual_training_time x = max_training_time x ->
                            trained (train_model x) = true
                            /\ actual_training_time (train_model x) = 0).
  { intros x Hx He. rewrite (train_model_finish x Hx He). split; reflexivity. }
  assert (Hfirst : trained (train_model s) = false
                   /\ actual_training_time (train_model s) = max_training_time s).
  { rewrite H1. simpl. split; [exact Ht | reflexivity]. }
  destruct Hfirst as [Hf1 Hf2].
  split.
  - split; [exact Hf1|]. split; [exact Hf2|].
    apply Hstep; [exact Hf1|]. rewrite Hf2. rewrite H1. reflexivity.
  - destruct (run_training_fields s) as (Rt & Ra & Rm).
    destruct (run_training_fields (run s)) as (Rt2 & Ra2 & _).
    rewrite Rt, Ra, Rt2, Ra2.
    split; [exact Hf1|]. split; [exact Hf2|].
    apply Hstep; [rewrite Rt; exact Hf1|]. rewrite Ra, Rm. exact Hf2.
Qed.

(** A service that needs one tick of training: untrained after the tick of
    the increment, trained after the next. *)
Lemma training_completes_on_next_tick_witness :
  trained (run (fresh_service 10 1 1 2)) = false
  /\ trained (run (run (fresh_service 10 1 1 2))) = true
  /\ actual_training_time (run (run (fresh_service 10 1 1 2))) = 0.
Proof.
  destruct (training_completes_on_next_tick (fresh_service 10 1 1 2) eq_refl eq_refl)
    as (_ & Hr1 & _ & Hr2 & Hr3).
  auto.
Defined.

(** C5 as stated fails: on the tick of the increment that reaches
    [max_training_time] the service is not yet trained and the counter is
    not reset. *)
Lemma training_not_completed_on_increment_tick :
  trained (fresh_service 10 1 1 2) = false
  /\ actual_training_time (fresh_service 10 1 1 2) + 1
     = max_training_time (fresh_service 10 1 1 2)
  /\ actual_training_time (train_model (fresh_service 10 1 1 2))
     = max_training_time (fresh_service 10 1 1 2)
  /\ trained (train_model (fresh_service 10 1 1 2)) = false
  /\ actual_training_time (train_model (fresh_service 10 1 1 2)) <> 0
  /\ trained (run (fresh_service 10 1 1 2)) = false
  /\ actual_training_time (run (fresh_service 10 1 1 2)) <> 0.
Proof. repeat split; discriminate. Qed.

End AIModelFacts.

(** ** Validation of the configuration and the exit of [main] *)

Module ConfigFacts.

Import Config Scenarios.
Local Open Scope string_scope.

Lemma bind_Ok {A B : Type} (m : result A) (k : A -> result B) (b : B) :
  bind m k = Ok b -> exists a, m = Ok a /\ k a = Ok b.
Proof. destruct m as [a|e]; simpl; [eauto | discriminate]. Qed.

Lemma raise_if_Ok (c : bool) (msg : string) :
  raise_if c msg = Ok tt -> c = false.
Proof. destruct c; [discriminate | reflexivity]. Qed.

Ltac inv_bind H :=
  let a := fresh "a" in
  let Ha := fresh "Ha" in
  apply bind_Ok in H as (a & Ha & H).

(** A configuration that passes the validation names one of the three
    strategies. *)
Lemma validate_Ok_strategy (config : yaml) :
  validate config = Ok tt ->
  exists v, py_getitem config "strategy" = Ok v
            /\ in_tuple v ["reactive"; "proactive"; "oracle"] = true.
Proof.
  unfold validate. intros H.
  do 13 inv_bind H.
  apply bind_Ok in H as (v & Hv & H).
  apply bind_Ok in H as (u & Hu & _).
  destruct u. apply raise_if_Ok in Hu. apply negb_false_iff in Hu.
  eauto.
Qed.

(** With an invalid strategy the validation raises. *)
Lemma validate_invalid_strategy (config v : yaml) :
  py_getitem config "strategy" = Ok v ->
  in_tuple v ["reactive"; "proactive"; "oracle"] = false ->
  exists e, validate config = Raise e.
Proof.
  intros Hv Hbad. destruct (validate config) as [[]|e] eqn:E; [|eauto].
  apply validate_Ok_strategy in E as (v' & Hv' & Hok). congruence.
Qed.

Section Main.

Variable logging : yaml -> yaml -> result unit.
Variable simulate : Strategy -> yaml -> result unit.

(** With an invalid strategy no simulation is started and [main] does not
    return true: it returns false, or the exception that is not a
    [ValueError] leaves it. *)
Lemma main_invalid_strategy (config v : yaml) :
  py_getitem config "strategy" = Ok v ->
  in_tuple v ["reactive"; "proactive"; "oracle"] = false ->
  exists e, validate config = Raise e
            /\ main logging simulate config
               = (match e with
                  | ValueError _ => Returns false
                  | _ => Propagates e
                  end, []).
Proof.
  intros Hv Hbad. destruct (validate_invalid_strategy config v Hv Hbad) as [e He].
  exists e. split; [exact He|].
  unfold main, main_body. rewrite He. destruct e; reflexivity.
Qed.

(** Where the validation gets as far as the strategy test, as on a complete
    configuration, [main] returns false for every invalid strategy string. *)
Lemma main_invalid_strategy_complete_config (s : string) :
  s <> "reactive" -> s <> "proactive" -> s <> "oracle" ->
  main logging simulate (config_with s true) = (Returns false, []).
Proof.
  intros H1 H2 H3.
  apply String.eqb_neq in H1, H2, H3.
  unfold main, main_body, validate. cbn.
  rewrite H1, H2, H3. reflexivity.
Qed.

(** A run that completes returns success: on a validated configuration
    whose logging set-up and simulation complete, [main] returns true after
    starting exactly the simulation of the configured strategy. *)
Lemma main_completed_run (config : yaml) (s : Strategy) :
  validate config = Ok tt ->
  py_getitem config "strategy" = Ok (YStr (strategy_name s)) ->
  (i <- py_getitem config "info" ;; d <- py_getitem config "debug" ;; logging i d) = Ok tt ->
  simulate s config = Ok tt ->
  main logging simulate config = (Returns true, [s]).
Proof.
  intros Hval Hs Hlog Hsim. unfold main, main_body, run_if.
  rewrite Hval, Hlog, Hs.
  destruct s; cbn; rewrite Hsim; reflexivity.
Qed.

(** C8 fails on the code for a configuration without the [proactive]
    section: the validation looks that section up unguarded, before it
    reaches the strategy test, and the [KeyError] is not caught by [main],
    which therefore does not return false (no simulation is started
    either). *)
Theorem main_invalid_strategy_missing_section :
  validate (config_with "foo" false) = Raise (KeyError "proactive")
  /\ main logging simulate (config_with "foo" false)
     = (Propagates (KeyError "proactive"), []).
Proof. split; reflexivity. Qed.

(** The same configuration with the section present is refused as the
    claim says. *)
Example main_invalid_strategy_refused :
  main logging simulate (config_with "foo" true) = (Returns false, []).
Proof. reflexivity. Qed.

End Main.

(** A complete configuration with a valid strategy runs and returns true. *)
Example main_valid_strategy :
  main logging_ok simulate_ok (config_with "proactive" true)
  = (Returns true, [proactive]).
Proof. reflexivity. Qed.

End ConfigFacts.

(** * Further properties of the code *)

(** ** Rounding *)

Module RoundingFacts.

Import Py PyFacts.
Local Open Scope Q_scope.

(** Rounding never passes an integer bound from below. *)
Lemma round_half_even_le_int (x : Q) (m : Z) :
  x <= inject_Z m -> (round_half_even x <= m)%Z.
Proof.
  intros H. unfold round_half_even. destruct x as [n d].
  unfold Qle in H. simpl in *. rewrite Z.mul_1_r in H.
  pose proof (Z.div_mod n (Zpos d) ltac:(lia)) as Hdm.
  pose proof (Z.mod_pos_bound n (Zpos d) ltac:(lia)) as Hr.
  assert (Hq : (n / Zpos d <= m)%Z).
  { apply Z.div_le_upper_bound; lia. }
  destruct (Z.eq_dec (n / Zpos d)%Z m) as [He|Hne].
  - assert (Hz : (n mod Zpos d = 0)%Z) by (rewrite He in Hdm; nia).
    rewrite Hz. simpl. lia.
  - destruct (2 * (n mod Zpos d) ?= Zpos d)%Z; [destruct (Z.even _)|..]; lia.
Qed.

Lemma round2_le_hundredths (x : Q) (m : Z) :
  x <= inject_Z m / 100 -> round2 x <= inject_Z m / 100.
Proof.
  intros H. unfold round2.
  assert (Hm : (round_half_even (x * 100) <= m)%Z).
  { apply round_half_even_le_int.
    destruct x as [n d]. unfold Qle in *. simpl in *. lia. }
  unfold Qle, Qdiv. simpl. lia.
Qed.

Lemma max_nonneg_l (a b : Q) : 0 <= a -> 0 <= max a b.
Proof.
  intros H. unfold max. destruct (Qlt_bool a b) eqn:E; [|exact H].
  apply Qlt_bool_iff in E. apply Qlt_le_weak. eapply Qle_lt_trans; eassumption.
Qed.

Lemma min_le_l (a b : Q) : min a b <= a.
Proof.
  unfold min. destruct (Qlt_bool b a) eqn:E.
  - apply Qlt_bool_iff in E. apply Qlt_le_weak. exact E.
  - apply Qle_refl.
Qed.

End RoundingFacts.

(** ** The battery over many calls *)

Module BatteryInvariants.

Import Py PyFacts RoundingFacts Battery BatteryBounds Scenarios.
Local Open Scope Q_scope.

Lemma same_parameters_refl (h : HarvesterBattery) : same_parameters h h.
Proof. repeat split. Qed.

Lemma same_parameters_trans (h1 h2 h3 : HarvesterBattery) :
  same_parameters h1 h2 -> same_parameters h2 h3 -> same_parameters h1 h3.
Proof.
  intros (A1 & A2 & A3 & A4) (B1 & B2 & B3 & B4).
  repeat split; congruence.
Qed.

Lemma charge_battery_cases (h h' : HarvesterBattery) (a : Z) :
  charge_battery h a = Some h' ->
  exists e cur,
    get_energy h a = Some e /\ bsoc h !! a = Some cur
    /\ h' = set_bsoc h
              (<[a := min (cur + round2 (round2 (max (fst e) (snd e) * 1 / 3600)
                                          * efficiency h))
                          (max_capacity_wh h)]> (bsoc h)).
Proof.
  unfold charge_battery. intros H.
  apply bind_Some in H as (e & He & H).
  apply bind_Some in H as (cur & Hcur & H).
  injection H as <-. eauto.
Qed.

Lemma consume_energy_cases (h h' : HarvesterBattery) (a : Z) (p : Q) (b : bool) :
  consume_energy h a p = Some (b, h') ->
  exists cur,
    bsoc h !! a = Some cur
    /\ ((min_bsoc h <= cur
         /\ h' = set_bsoc h (<[a := cur - round2 (p * 1 / 3600)]> (bsoc h))
         /\ b = Qle_bool (min_bsoc h) (cur - round2 (p * 1 / 3600)))
        \/ (cur < min_bsoc h /\ h' = h /\ b = false)).
Proof.
  intros H. destruct (bsoc h !! a) as [cur|] eqn:Hcur.
  - exists cur. split; [reflexivity|].
    rewrite (BatteryFacts.consume_energy_unfold h a p cur Hcur) in H.
    destruct (Qle_bool (min_bsoc h) cur) eqn:Hle.
    + left. apply Qle_bool_iff in Hle. injection H as <- <-.
      split; [exact Hle|]. split; [reflexivity|].
      unfold Qlt_bool. apply negb_involutive.
    + right. apply Qle_bool_false_iff in Hle. injection H as <- <-. auto.
  - unfold consume_energy in H. rewrite Hcur in H. discriminate.
Qed.

Lemma apply_op_same_parameters (h h' : HarvesterBattery) (a : Z) (o : op) :
  apply_op h a o = Some h' -> same_parameters h h'.
Proof.
  destruct o as [|p]; simpl; intros H.
  - apply charge_battery_cases in H as (e & cur & _ & _ & ->). repeat split.
  - apply fmap_Some in H as ([b h2] & H & ->). simpl.
    apply consume_energy_cases in H as (cur & _ & [(_ & -> & _) | (_ & -> & _)]);
      repeat split.
Qed.

(** X1.  Over any interleaving of charges and draws on one device the state
    of charge stays between 0 and the capacity, provided it starts there,
    the harvester reads no negative power, the efficiency is not negative
    and no draw asks for more watt-hours than the discharge floor. *)
Theorem soc_within_bounds (os : list op) (h h' : HarvesterBattery) (a : Z) (cur : Q) :
  Forall (draw_within_floor h) os ->
  harvest_nonneg h a ->
  0 <= efficiency h ->
  bsoc h !! a = Some cur ->
  0 <= cur -> cur <= max_capacity_wh h ->
  run_ops h a os = Some h' ->
  exists v, bsoc h' !! a = Some v /\ 0 <= v /\ v <= max_capacity_wh h.
Proof.
  intros Hos Hharv Heff.
  assert (Hgen : forall h0 c,
             same_parameters h h0 -> bsoc h0 !! a = Some c ->
             0 <= c -> c <= max_capacity_wh h ->
             run_ops h0 a os = Some h' ->
             exists v, bsoc h' !! a = Some v /\ 0 <= v /\ v <= max_capacity_wh h).
  { induction Hos as [|o os Ho _ IH]; intros h0 c Hsame Hc H0 Hmax Hrun.
    - injection Hrun as <-. eauto.
    - simpl in Hrun. apply bind_Some in Hrun as (h1 & H1 & Hrun).
      pose proof (apply_op_same_parameters h0 h1 a o H1) as Hstep.
      pose proof (same_parameters_trans _ _ _ Hsame Hstep) as Hsame1.
      destruct Hsame as (St & Se & Sm & Sf).
      destruct o as [|p]; simpl in H1.
      + apply charge_battery_cases in H1 as (e & c' & He & Hc' & ->).
        rewrite Hc in Hc'. injection Hc' as <-.
        eapply (IH _ _ Hsame1); [simpl; apply lookup_insert_eq | | | exact Hrun].
        * apply min_glb.
          -- rewrite <- (Qplus_0_r 0). apply Qplus_le_compat; [exact H0|].
             apply round2_nonneg. apply Qmult_le_0_compat; [|rewrite Se; exact Heff].
             apply round2_nonneg. unfold Qdiv.
             apply Qmult_le_0_compat; [|discriminate].
             rewrite Qmult_1_r. apply Hharv.
             unfold get_energy in *. rewrite <- St. exact He.
          -- rewrite Sm. eapply Qle_trans; eassumption.
        * rewrite Sm. apply min_le_r.
      + apply fmap_Some in H1 as ([b h2] & H1 & ->). simpl in *.
        destruct Ho as [Hp Hreq].
        apply consume_energy_cases in H1
          as (c' & Hc' & [(Hle & -> & _) | (_ & -> & _)]);
          rewrite Hc in Hc'; injection Hc' as <-.
        * eapply (IH _ _ Hsame1); [simpl; apply lookup_insert_eq | | | exact Hrun].
          -- apply (Qle_minus_iff (round2 (p * 1 / 3600)) c).
             eapply Qle_trans; [exact Hreq|]. rewrite <- Sf. exact Hle.
          -- eapply Qle_trans; [|exact Hmax].
             rewrite <- (Qplus_0_r c) at 2. unfold Qminus. apply Qplus_le_r.
             assert (Hr : 0 <= round2 (p * 1 / 3600)).
             { apply round2_nonneg. unfold Qdiv.
               apply Qmult_le_0_compat; [|discriminate].
               rewrite Qmult_1_r. exact Hp. }
             apply (Qopp_le_compat 0 _) in Hr. exact Hr.
        * eapply (IH _ _ Hsame1); eassumption. }
  intros Hcur H0 Hmax Hrun.
  exact (Hgen h cur (same_parameters_refl h) Hcur H0 Hmax Hrun).
Qed.

(** A half-charged battery in the sun: charge, draw 100 W, charge, draw. *)
Lemma soc_within_bounds_witness :
  exists h' v,
    run_ops battery_pair 1 [Charge; Consume 100; Charge; Consume 100] = Some h'
    /\ bsoc h' !! 1%Z = Some v /\ 0 <= v /\ v <= max_capacity_wh battery_pair.
Proof.
  assert (Hrun : exists h', run_ops battery_pair 1
                              [Charge; Consume 100; Charge; Consume 100] = Some h').
  { eexists. vm_compute. reflexivity. }
  destruct Hrun as [h' Hrun]. exists h'.
  assert (Hos : Forall (draw_within_floor battery_pair)
                  [Charge; Consume 100; Charge; Consume 100]).
  { repeat constructor; discriminate. }
  assert (Hharv : harvest_nonneg battery_pair 1).
  { intros e He. vm_compute in He. injection He as <-. discriminate. }
  assert (Heff : 0 <= efficiency battery_pair) by discriminate.
  assert (Hcur : bsoc battery_pair !! 1%Z = Some 2.50) by reflexivity.
  destruct (soc_within_bounds _ battery_pair h' 1 2.50 Hos Hharv Heff Hcur
              ltac:(discriminate) ltac:(discriminate) Hrun) as (v & Hv & Hb).
  exists v. split; [exact Hrun|]. split; [exact Hv | exact Hb].
Defined.

End BatteryInvariants.

(** ** The battery: slots, refusals, construction *)

Module BatterySlots.

Import Py PyFacts RoundingFacts Battery BatteryBounds BatteryInvariants Scenarios.
Local Open Scope Q_scope.

Lemma apply_op_other_slot (h h' : HarvesterBattery) (a b : Z) (o : op) :
  a <> b -> apply_op h a o = Some h' -> bsoc h' !! b = bsoc h !! b.
Proof.
  intros Hne H. destruct o as [|p]; simpl in H.
  - apply charge_battery_cases in H as (e & cur & _ & _ & ->).
    simpl. apply lookup_insert_ne. exact Hne.
  - apply fmap_Some in H as ([f h2] & H & ->). simpl.
    apply consume_energy_cases in H as (cur & _ & [(_ & -> & _) | (_ & -> & _)]).
    + simpl. apply lookup_insert_ne. exact Hne.
    + reflexivity.
Qed.

(** X2.  Charges and draws on one device never touch the slot of another
    device, nor the capacity, the floor, the efficiency or the traces. *)
Theorem run_ops_other_slot (os : list op) (h h' : HarvesterBattery) (a b : Z) :
  a <> b ->
  run_ops h a os = Some h' ->
  bsoc h' !! b = bsoc h !! b /\ same_parameters h h'.
Proof.
  intros Hne. revert h. induction os as [|o os IH]; intros h Hrun.
  - injection Hrun as <-. split; [reflexivity | apply same_parameters_refl].
  - simpl in Hrun. apply bind_Some in Hrun as (h1 & H1 & Hrun).
    destruct (IH h1 Hrun) as [Hb Hs]. split.
    + rewrite Hb. exact (apply_op_other_slot h h1 a b o Hne H1).
    + eapply same_parameters_trans; [|exact Hs].
      exact (apply_op_same_parameters h h1 a o H1).
Qed.

(** Device 2 keeps its 2.5 Wh while device 1 charges and draws. *)
Lemma run_ops_other_slot_witness :
  exists h', run_ops battery_pair 1 [Charge; Consume 100] = Some h'
             /\ bsoc h' !! 2%Z = Some 2.50.
Proof.
  assert (Hrun : exists h', run_ops battery_pair 1 [Charge; Consume 100] = Some h').
  { eexists. vm_compute. reflexivity. }
  destruct Hrun as [h' Hrun]. exists h'. split; [exact Hrun|].
  destruct (run_ops_other_slot _ battery_pair h' 1 2 ltac:(discriminate) Hrun) as [Hb _].
  rewrite Hb. reflexivity.
Defined.

(** X3.  Once a draw has been refused, every further draw on that device is
    refused as well and changes nothing, whatever power it asks for: only a
    charge can lift the slot back to the floor. *)
Theorem refused_draw_stays_refused
    (h h' : HarvesterBattery) (a : Z) (p q : Q) :
  consume_energy h a p = Some (false, h') ->
  consume_energy h' a q = Some (false, h').
Proof.
  intros H.
  apply consume_energy_cases in H as (cur & Hcur & [(Hle & -> & Hb) | (Hlt & -> & _)]).
  - symmetry in Hb. apply Qle_bool_false_iff in Hb.
    erewrite BatteryFacts.consume_energy_unfold by (simpl; apply lookup_insert_eq).
    simpl. apply Qle_bool_false_iff in Hb. rewrite Hb. reflexivity.
  - rewrite (BatteryFacts.consume_energy_unfold h a q cur Hcur).
    apply Qle_bool_false_iff in Hlt. rewrite Hlt. reflexivity.
Qed.

(** A battery at its floor refuses 20 W and then 1 W. *)
Lemma refused_draw_stays_refused_witness :
  exists h', consume_energy battery_at_floor 1 20 = Some (false, h')
             /\ consume_energy h' 1 1 = Some (false, h').
Proof.
  assert (H : exists h', consume_energy battery_at_floor 1 20 = Some (false, h')).
  { eexists. vm_compute. reflexivity. }
  destruct H as [h' H]. exists h'. split; [exact H|].
  exact (refused_draw_stays_refused battery_at_floor h' 1 20 1 H).
Defined.

(** X4.  A draw raises exactly for a device the battery holds no slot
    for; charging and the charge query raise for such a device too. *)
Theorem unknown_device_raises (h : HarvesterBattery) (a : Z) (p : Q) :
  (consume_energy h a p = None <-> bsoc h !! a = None)
  /\ (bsoc h !! a = None -> charge_battery h a = None)
  /\ (bsoc h !! a = None -> get_bsoc h a = None).
Proof.
  split; [|split].
  - split.
    + intros H. destruct (bsoc h !! a) as [cur|] eqn:Hcur; [|reflexivity].
      rewrite (BatteryFacts.consume_energy_unfold h a p cur Hcur) in H.
      destruct (Qle_bool _ _); discriminate.
    + intros H. unfold consume_energy. rewrite H. reflexivity.
  - intros H. unfold charge_battery. destruct (get_energy h a); simpl; [|reflexivity].
    rewrite H. reflexivity.
  - intros H. unfold get_bsoc. rewrite H. reflexivity.
Qed.

Lemma unknown_device_raises_witness :
  consume_energy battery_at_floor 7 20 = None
  /\ charge_battery battery_at_floor 7 = None.
Proof.
  destruct (unknown_device_raises battery_at_floor 7 20) as (Hc & Hch & _).
  split; [apply Hc; reflexivity | apply Hch; reflexivity].
Defined.

Lemma init_bsoc_lookup (e : EnergyHarvester) (ids : list Z) (v : Q) (i : Z) :
  (list_to_map (map (fun device_id => (device_id, v)) ids) : gmap Z Q) !! i
  = if decide (i ∈ ids) then Some v else None.
Proof.
  induction ids as [|x ids IH]; simpl.
  - rewrite lookup_empty. destruct (decide (i ∈ [])) as [Hin|]; [|reflexivity].
    apply elem_of_nil in Hin. destruct Hin.
  - destruct (decide (x = i)) as [->|Hne].
    + rewrite lookup_insert_eq. destruct (decide (i ∈ i :: ids)) as [|Hn]; [reflexivity|].
      exfalso. apply Hn. apply elem_of_cons. left. reflexivity.
    + rewrite lookup_insert_ne by exact Hne. rewrite IH.
      destruct (decide (i ∈ ids)) as [Hin|Hnin];
        destruct (decide (i ∈ x :: ids)) as [Hin'|Hnin']; try reflexivity.
      * exfalso. apply Hnin'. apply elem_of_cons. right. exact Hin.
      * exfalso. apply elem_of_cons in Hin' as [->|Hin']; [apply Hne; reflexivity|].
        apply Hnin. exact Hin'.
Qed.

(** X5.  A freshly built battery gives every listed device, and no other,
    a slot; with a capacity that is not negative and an initial charge level
    between 0 and 1 that slot lies between 0 and the capacity. *)
Theorem init_slots_valid
    (e : EnergyHarvester) (ids : list Z) (ampere volts eff level depth : Q) (i : Z) :
  0 <= ampere * volts -> 0 <= level -> level <= 1 ->
  let h := init e ids ampere volts eff level depth in
  (i ∉ ids -> bsoc h !! i = None)
  /\ (i ∈ ids ->
      exists v, bsoc h !! i = Some v /\ 0 <= v /\ v <= max_capacity_wh h).
Proof.
  intros Hcap Hl0 Hl1 h.
  assert (Hlook : bsoc h !! i
                  = if decide (i ∈ ids)
                    then Some (round2 (round2 (ampere * volts) * level)) else None).
  { unfold h, init. simpl. apply init_bsoc_lookup. exact e. }
  split.
  - intros Hn. rewrite Hlook. destruct (decide (i ∈ ids)); [contradiction | reflexivity].
  - intros Hin. rewrite Hlook. destruct (decide (i ∈ ids)); [|contradiction].
    eexists. split; [reflexivity|].
    assert (Hmax : 0 <= round2 (ampere * volts)) by (apply round2_nonneg; exact Hcap).
    split.
    + apply round2_nonneg. apply Qmult_le_0_compat; assumption.
    + unfold h, init. simpl.
      change (round2 (ampere * volts))
        with (inject_Z (round_half_even (ampere * volts * 100)) / 100) in *.
      apply round2_le_hundredths.
      set (m := inject_Z (round_half_even (ampere * volts * 100)) / 100) in *.
      rewrite (Qmult_comm m level).
      eapply Qle_trans; [apply Qmult_le_compat_r; eassumption|].
      rewrite Qmult_1_l. apply Qle_refl.
Qed.

Lemma init_slots_valid_witness :
  bsoc battery_pair !! 3%Z = None
  /\ exists v, bsoc battery_pair !! 2%Z = Some v
               /\ 0 <= v /\ v <= max_capacity_wh battery_pair.
Proof.
  destruct (init_slots_valid sunny_traces [1%Z; 2%Z] 1 5 0.95 0.5 0.25 3
              ltac:(discriminate) ltac:(discriminate) ltac:(discriminate)) as [Hn _].
  destruct (init_slots_valid sunny_traces [1%Z; 2%Z] 1 5 0.95 0.5 0.25 2
              ltac:(discriminate) ltac:(discriminate) ltac:(discriminate)) as [_ Hy].
  split.
  - apply Hn. intros Hin. repeat (apply elem_of_cons in Hin as [Hin|Hin]; [discriminate|]).
    apply elem_of_nil in Hin. exact Hin.
  - apply Hy. apply elem_of_cons. right. apply elem_of_cons. left. reflexivity.
Defined.

End BatterySlots.

(** ** Status, power readings and service moves of [BaseDevice] *)

Module BaseDeviceMoves.

Import Py PyFacts Battery Model BaseDevice Scenarios.
Local Open Scope Q_scope.

(** X6.  The lifecycle update changes nothing but the status, and it keeps
    the status consistent: a device is off exactly when it is inactive.
    Without battery this holds after every update; with battery the update
    may leave the status as it was, so the consistency is inherited from the
    status before. *)
Theorem modify_state_keeps_status_consistent
    (d d' : Device) (h : Harvester) (P_min : Q) :
  modify_state d h P_min = Some d' ->
  d' = set_status d (state d') (active d')
  /\ ((state d = off <-> active d = false) -> (state d' = off <-> active d' = false))
  /\ (forall e, h = Plain e -> (state d' = off <-> active d' = false)).
Proof.
  intros H. destruct h as [e|b]; simpl in H.
  - injection H as <-. unfold _modify_state_without_battery.
    destruct (Qlt_bool P_min (actual_power d)); [|destruct (_ && _)]; simpl;
      (split; [reflexivity|]); split; intros; split; congruence.
  - unfold _modify_state_with_battery in H.
    destruct (Qlt_bool 0 (actual_power d)).
    + apply bind_Some in H as (soc & _ & H).
      destruct (Qle_bool _ soc); [|destruct (_ && _)]; injection H as <-; simpl;
        (split; [try reflexivity; destruct d; reflexivity|]);
        split; try discriminate; intros; try assumption; split; congruence.
    + injection H as <-. simpl. split; [reflexivity|].
      split; intros; split; congruence.
Qed.

Lemma modify_state_keeps_status_consistent_witness :
  exists d', modify_state battery_edge (WithBattery battery_deep_floor) 5 = Some d'
             /\ (state d' = off <-> active d' = false).
Proof.
  assert (H : exists d', modify_state battery_edge (WithBattery battery_deep_floor) 5
                         = Some d').
  { eexists. vm_compute. reflexivity. }
  destruct H as [d' H]. exists d'. split; [exact H|].
  destruct (modify_state_keeps_status_consistent _ _ _ _ H) as (_ & Hinv & _).
  apply Hinv. split; reflexivity.
Defined.

(** X7.  The power reading without battery is the larger of the two rounded
    trace values; the source is [none] exactly when that power is 0 and
    otherwise names the winner, wind winning ties. *)
Theorem highest_available_power_spec (device_id : Z) (e : EnergyHarvester) (s w : Q) :
  get_energy_of e device_id = Some (s, w) ->
  exists p src,
    _get_highest_available_power device_id e = Some (p, src)
    /\ s <= p /\ w <= p /\ (p = s \/ p = w)
    /\ (src = none <-> p == 0)
    /\ (src = solar -> p = s /\ w < s)
    /\ (src = wind -> p = w /\ s <= w).
Proof.
  intros H. unfold _get_highest_available_power. rewrite H. simpl.
  destruct (Qlt_bool w s) eqn:E.
  - apply Qlt_bool_iff in E. eexists _, _. split; [reflexivity|].
    split; [apply Qle_refl|]. split; [apply Qlt_le_weak; exact E|].
    split; [left; reflexivity|].
    destruct (Qeq_bool s 0) eqn:Z.
    + apply Qeq_bool_iff in Z. repeat split; auto; discriminate.
    + apply Qeq_bool_neq in Z. repeat split; auto; try discriminate.
      intros Hz. contradiction.
  - apply Qlt_bool_false_iff in E. eexists _, _. split; [reflexivity|].
    split; [exact E|]. split; [apply Qle_refl|].
    split; [right; reflexivity|].
    destruct (Qeq_bool w 0) eqn:Z.
    + apply Qeq_bool_iff in Z. repeat split; auto; discriminate.
    + apply Qeq_bool_neq in Z. repeat split; auto; try discriminate.
      intros Hz. contradiction.
Qed.

Lemma highest_available_power_spec_witness :
  exists p, _get_highest_available_power 1 BatteryBounds.sunny_traces = Some (p, solar).
Proof.
  destruct (highest_available_power_spec 1 BatteryBounds.sunny_traces 360.00 0.00 eq_refl)
    as (p & src & H & _ & _ & _ & _ & _ & _).
  assert (Hs : src = solar).
  { vm_compute in H. injection H as _ <-. reflexivity. }
  subst src. exists p. exact H.
Defined.

Lemma remove_first_perm (x : Service) (l : list Service) :
  x ∈ l -> l ≡ₚ x :: remove_first x l.
Proof.
  induction l as [|y l IH]; intros Hin.
  - apply elem_of_nil in Hin. destruct Hin.
  - simpl. destruct (decide (x = y)) as [->|Hne]; [reflexivity|].
    apply elem_of_cons in Hin as [->|Hin]; [contradiction|].
    rewrite (IH Hin) at 1. apply Permutation_swap.
Qed.

Lemma remove_first_not_in (x : Service) (l : list Service) :
  x ∉ l -> remove_first x l = l.
Proof.
  induction l as [|y l IH]; intros Hn; [reflexivity|].
  simpl. destruct (decide (x = y)) as [->|Hne].
  - exfalso. apply Hn. apply elem_of_cons. left. reflexivity.
  - f_equal. apply IH. intros Hin. apply Hn. apply elem_of_cons. right. exact Hin.
Qed.

Lemma remove_first_app_last (x : Service) (l : list Service) :
  x ∉ l -> remove_first x (l ++ [x]) = l.
Proof.
  induction l as [|y l IH]; intros Hn; simpl.
  - destruct (decide (x = x)); [reflexivity | contradiction].
  - destruct (decide (x = y)) as [->|Hne].
    + exfalso. apply Hn. apply elem_of_cons. left. reflexivity.
    + f_equal. apply IH. intros Hin. apply Hn. apply elem_of_cons. right. exact Hin.
Qed.

(** X8.  A move of a service between an edge device and the server, in
    either direction, neither loses nor duplicates a service: the ids held
    by the two devices together are the same before and after, and nothing
    but the two service lists changes.  A service the source does not hold
    is not moved at all. *)
Theorem service_moves_conserve (e srv : Device) (s : Service) :
  (let '(e', srv') := assign_service_edge_device_to_server e srv s in
   map sid (services e' ++ services srv') ≡ₚ map sid (services e ++ services srv)
   /\ e' = set_services e (services e') /\ srv' = set_services srv (services srv')
   /\ (s ∉ services e -> e' = e /\ srv' = srv))
  /\ (let '(e', srv') := assign_service_server_to_edge_device srv e s in
      map sid (services e' ++ services srv') ≡ₚ map sid (services e ++ services srv)
      /\ e' = set_services e (services e') /\ srv' = set_services srv (services srv')
      /\ (s ∉ services srv -> e' = e /\ srv' = srv)).
Proof.
  split.
  - unfold assign_service_edge_device_to_server.
    destruct (decide (s ∈ services e)) as [Hin|Hn]; simpl.
    + split; [|split; [reflexivity|split; [reflexivity|intros; contradiction]]].
      rewrite !map_app. simpl.
      rewrite (Permutation_map sid (remove_first_perm s (services e) Hin)). simpl.
      rewrite (Permutation_app_comm (map sid (services srv)) [sid s]). simpl.
      symmetry. apply Permutation_middle.
    + split; [reflexivity|]. destruct e, srv. repeat split.
  - unfold assign_service_server_to_edge_device.
    destruct (decide (s ∈ services srv)) as [Hin|Hn]; simpl.
    + split; [|split; [reflexivity|split; [reflexivity|intros; contradiction]]].
      rewrite !map_app. simpl.
      rewrite (Permutation_map sid (remove_first_perm s (services srv) Hin)). simpl.
      rewrite <- app_assoc. simpl. reflexivity.
    + split; [reflexivity|]. destruct e, srv. repeat split.
Qed.

(** X9.  Round trip: a service moved from its edge device to the server and
    back again is on the device as before (now last in its list) with the
    device as owner again, and the server's list is as it was. *)
Theorem service_move_round_trip (e srv : Device) (s : Service) :
  s ∈ services e ->
  server s = id e ->
  set_server s (id srv) ∉ services srv ->
  let '(e1, srv1) := assign_service_edge_device_to_server e srv s in
  let '(e2, srv2) := assign_service_server_to_edge_device srv1 e1 (set_server s (id srv)) in
  services e2 = remove_first s (services e) ++ [s]
  /\ services e2 ≡ₚ services e
  /\ services srv2 = services srv
  /\ (set_server s (id srv) ∈ services srv1).
Proof.
  intros Hin Hown Hfresh.
  unfold assign_service_edge_device_to_server.
  destruct (decide (s ∈ services e)) as [_|Hn]; [|contradiction].
  unfold assign_service_server_to_edge_device. simpl.
  destruct (decide (set_server s (id srv) ∈ services srv ++ [set_server s (id srv)]))
    as [_|Hn].
  - simpl.
    assert (Hback : set_server (set_server s (id srv)) (id e) = s).
    { rewrite <- Hown. destruct s. reflexivity. }
    rewrite Hback. split; [reflexivity|]. split.
    + rewrite (remove_first_perm s (services e) Hin) at 2.
      rewrite Permutation_app_comm. reflexivity.
    + split; [apply remove_first_app_last; exact Hfresh|].
      apply elem_of_app. right. apply elem_of_cons. left. reflexivity.
  - exfalso. apply Hn. apply elem_of_app. right. apply elem_of_cons. left. reflexivity.
Qed.

Lemma service_move_round_trip_witness :
  let '(e1, srv1) := assign_service_edge_device_to_server uploading_edge central_server
                       (fresh_service 20 2 3 2) in
  let '(e2, srv2) := assign_service_server_to_edge_device srv1 e1
                       (set_server (fresh_service 20 2 3 2) 1) in
  services e2 = [fresh_service 20 2 3 2] /\ services srv2 = server_services.
Proof.
  pose proof (service_move_round_trip uploading_edge central_server
                (fresh_service 20 2 3 2)) as H.
  assert (Hin : fresh_service 20 2 3 2 ∈ services uploading_edge).
  { apply elem_of_cons. left. reflexivity. }
  assert (Hfresh : set_server (fresh_service 20 2 3 2) (id central_server)
                   ∉ services central_server).
  { intros Hx. repeat (apply elem_of_cons in Hx as [Hx|Hx]; [discriminate|]).
    apply elem_of_nil in Hx. exact Hx. }
  specialize (H Hin eq_refl Hfresh).
  destruct (assign_service_edge_device_to_server uploading_edge central_server
              (fresh_service 20 2 3 2)) as [e1 srv1].
  change (id central_server) with 1%Z in H.
  destruct (assign_service_server_to_edge_device srv1 e1
              (set_server (fresh_service 20 2 3 2) 1)) as [e2 srv2].
  destruct H as (H1 & _ & H2 & _). split; [exact H1 | exact H2].
Defined.

End BaseDeviceMoves.

(** ** Completion of transfers in [ProactiveDevice] *)

Module TransferCompletion.

Import Py PyFacts Battery Model BaseDevice ProactiveDevice Scenarios BaseDeviceMoves.
Local Open Scope Z_scope.

Section Pinned.

Variable ids : list Z.

Let pinned (s : Service) : Prop := sid s ∈ ids.
Let unpinned (s : Service) : Prop := sid s ∉ ids.

(** The first pinned element of a list is the first occurrence of itself. *)
Lemma filter_head_remove (c : list Service) (x : Service) (t : list Service) :
  filter pinned c = x :: t ->
  x ∈ c /\ filter pinned (remove_first x c) = t
  /\ filter unpinned (remove_first x c) = filter unpinned c.
Proof.
  induction c as [|y c IH]; intros H; [discriminate|].
  destruct (decide (pinned y)) as [Hy|Hy].
  - rewrite filter_cons_True in H by exact Hy. injection H as -> <-.
    simpl. destruct (decide (x = x)); [|contradiction].
    split; [apply elem_of_cons; left; reflexivity|]. split; [reflexivity|].
    rewrite filter_cons_False; [reflexivity|]. intros Hn. exact (Hn Hy).
  - rewrite filter_cons_False in H by exact Hy.
    destruct (IH H) as (Hin & Hp & Hu).
    assert (Hx : pinned x).
    { assert (Hxin : x ∈ filter pinned c) by (rewrite H; apply elem_of_cons; left; reflexivity).
      apply list_elem_of_filter in Hxin. tauto. }
    assert (Hne : x <> y) by (intros ->; contradiction).
    simpl. destruct (decide (x = y)); [contradiction|].
    split; [apply elem_of_cons; right; exact Hin|]. split.
    + rewrite filter_cons_False by exact Hy. exact Hp.
    + rewrite !filter_cons_True by exact Hy. rewrite Hu. reflexivity.
Qed.

Lemma filter_none (c : list Service) :
  filter pinned c = [] -> filter unpinned c = c.
Proof.
  induction c as [|y c IH]; intros H; [reflexivity|].
  destruct (decide (pinned y)) as [Hy|Hy].
  - rewrite filter_cons_True in H by exact Hy. discriminate.
  - rewrite filter_cons_False in H by exact Hy.
    rewrite filter_cons_True by exact Hy. rewrite (IH H). reflexivity.
Qed.

Lemma filter_unpinned_twice (c : list Service) :
  filter unpinned (filter unpinned c) = filter unpinned c.
Proof.
  induction c as [|y c IH]; [reflexivity|].
  destruct (decide (unpinned y)) as [Hy|Hy].
  - rewrite (filter_cons_True unpinned y c Hy).
    rewrite (filter_cons_True unpinned y (filter unpinned c) Hy).
    rewrite IH. reflexivity.
  - rewrite !filter_cons_False by exact Hy. exact IH.
Qed.

(** The loop that hands the pinned services of an edge device to the
    server, one [assign_service_edge_device_to_server] at a time. *)
Lemma upload_loop (t : list Service) :
  forall (e srv : Device),
    filter pinned (services e) = t ->
    foldl (fun '(e, s) service => assign_service_edge_device_to_server e s service)
          (e, srv) t
    = (set_services e (filter unpinned (services e)),
       set_services srv
         (services srv ++ map (fun s => set_server s (id srv)) t)).
Proof.
  induction t as [|x t IH]; intros e srv H.
  - simpl. rewrite (filter_none _ H). rewrite app_nil_r.
    destruct e, srv. reflexivity.
  - destruct (filter_head_remove _ _ _ H) as (Hin & Hp & Hu).
    simpl. unfold assign_service_edge_device_to_server at 2.
    destruct (decide (x ∈ services e)) as [_|Hn]; [|contradiction].
    rewrite IH by (simpl; exact Hp).
    simpl. rewrite Hu. rewrite <- app_assoc. reflexivity.
Qed.

(** The loop that hands the pinned services of the server to an edge
    device. *)
Lemma download_loop_moves (t : list Service) :
  forall (e srv : Device),
    filter pinned (services srv) = t ->
    foldl (fun '(e, s) service => assign_service_server_to_edge_device s e service)
          (e, srv) t
    = (set_services e
         (services e ++ map (fun s => set_server s (id e)) t),
       set_services srv (filter unpinned (services srv))).
Proof.
  induction t as [|x t IH]; intros e srv H.
  - simpl. rewrite (filter_none _ H). rewrite app_nil_r.
    destruct e, srv. reflexivity.
  - destruct (filter_head_remove _ _ _ H) as (Hin & Hp & Hu).
    simpl. unfold assign_service_server_to_edge_device at 2.
    destruct (decide (x ∈ services srv)) as [_|Hn]; [|contradiction].
    rewrite IH by (simpl; exact Hp).
    simpl. rewrite Hu. rewrite <- app_assoc. reflexivity.
Qed.

End Pinned.

(** A device whose upload or download is in flight and still waiting. *)
Lemma waiting_step (d srv : Device) :
  transfer (transfer_model d) = true ->
  BaseDevice.transfer_failed d = false ->
  transfer_duration (transfer_model d) + 1 < transfer_time (transfer_model d) ->
  (transfer_to_device_id (transfer_model d) <> 0
   /\ transfer_from_device_id (transfer_model d) = 0)
  \/ (transfer_to_device_id (transfer_model d) = 0
      /\ transfer_from_device_id (transfer_model d) <> 0) ->
  update_ongoing_model_step d srv
  = (upd_tm d (fun t => set_transfer_duration t (transfer_duration t + 1)), srv).
Proof.
  intros Ht Hf Hlt Hdir. unfold update_ongoing_model_step.
  apply Z.leb_gt in Hlt.
  destruct Hdir as [[Hto Hfrom] | [Hto Hfrom]].
  - apply Z.eqb_neq in Hto. rewrite Ht, Hto. simpl.
    unfold _update_ongoing_transfers_to_server. rewrite Hf.
    unfold update_transfer_duration. simpl. rewrite Hlt. simpl.
    rewrite Ht, Hfrom. reflexivity.
  - apply Z.eqb_neq in Hfrom. rewrite Ht, Hto. simpl. rewrite Ht, Hfrom. simpl.
    unfold _update_ongoing_transfers_to_device. rewrite Hf.
    unfold update_transfer_duration. simpl. rewrite Hlt. reflexivity.
Qed.

Lemma transfer_failed_powered (d : Device) :
  ~ (actual_power d == 0)%Q -> BaseDevice.transfer_failed d = false.
Proof.
  intros Hp. unfold BaseDevice.transfer_failed.
  destruct (_ <=? _); [reflexivity|].
  destruct (Qeq_bool (actual_power d) 0) eqn:E; [|reflexivity].
  apply Qeq_bool_iff in E. contradiction.
Qed.

Lemma waiting_steps (n : nat) :
  forall (d srv : Device),
    transfer (transfer_model d) = true ->
    ~ (actual_power d == 0)%Q ->
    transfer_duration (transfer_model d) + Z.of_nat n < transfer_time (transfer_model d) ->
    (transfer_to_device_id (transfer_model d) <> 0
     /\ transfer_from_device_id (transfer_model d) = 0)
    \/ (transfer_to_device_id (transfer_model d) = 0
        /\ transfer_from_device_id (transfer_model d) <> 0) ->
    update_ongoing_model_steps n d srv
    = (upd_tm d (fun t => set_transfer_duration t (transfer_duration t + Z.of_nat n)), srv).
Proof.
  induction n as [|n IH]; intros d srv Ht Hp Hlt Hdir.
  - destruct d as [? ? ? ? ? ? ? ? ? ? []]. unfold upd_tm. simpl.
    rewrite Z.add_0_r. reflexivity.
  - simpl update_ongoing_model_steps.
    rewrite (waiting_step d srv Ht (transfer_failed_powered d Hp) ltac:(lia) Hdir).
    rewrite IH; [| exact Ht | exact Hp | simpl; lia | exact Hdir].
    unfold upd_tm. cbn -[Z.of_nat Z.add].
    replace (transfer_duration (transfer_model d) + Z.of_nat (S n))
      with (transfer_duration (transfer_model d) + 1 + Z.of_nat n) by lia.
    reflexivity.
Qed.

Lemma upload_final_step (d srv : Device) :
  transfer (transfer_model d) = true ->
  transfer_to_device_id (transfer_model d) <> 0 ->
  BaseDevice.transfer_failed d = false ->
  transfer_time (transfer_model d) <= transfer_duration (transfer_model d) + 1 ->
  update_ongoing_model_step d srv
  = (set_transfer_model
       (set_services d
          (filter (fun s => sid s ∉ transfer_service_ids (transfer_model d)) (services d)))
       (mkTransferModel false 0 (transfer_time (transfer_model d)) [] 0
          (transfer_from_device_id (transfer_model d))
          (Model.transfer_failed (transfer_model d))
          (transfer_succeded (transfer_model d) + 1)),
     set_services srv
       (services srv
        ++ map (fun s => set_server s (id srv))
             (filter (fun s => sid s ∈ transfer_service_ids (transfer_model d))
                     (services d)))).
Proof.
  intros Ht Hto Hf Hle. unfold update_ongoing_model_step.
  apply Z.eqb_neq in Hto. rewrite Ht, Hto. simpl.
  unfold _update_ongoing_transfers_to_server. rewrite Hf.
  unfold update_transfer_duration. simpl.
  apply Z.leb_le in Hle. rewrite Hle. simpl.
  pose proof (upload_loop (transfer_service_ids (transfer_model d)) _
                (upd_tm d (fun t => set_transfer_duration t (transfer_duration t + 1)))
                srv eq_refl) as Hloop.
  simpl in Hloop. rewrite Hloop. simpl.
  rewrite filter_unpinned_twice. reflexivity.
Qed.

Lemma download_final_step (d srv : Device) :
  transfer (transfer_model d) = true ->
  transfer_to_device_id (transfer_model d) = 0 ->
  transfer_from_device_id (transfer_model d) <> 0 ->
  BaseDevice.transfer_failed d = false ->
  transfer_time (transfer_model d) <= transfer_duration (transfer_model d) + 1 ->
  update_ongoing_model_step d srv
  = (set_transfer_model
       (set_services d
          (services d
           ++ map (fun s => set_server s (id d))
                (filter (fun s => sid s ∈ transfer_service_ids (transfer_model d))
                        (services srv))))
       (mkTransferModel false 0 (transfer_time (transfer_model d)) [] 0 0
          (Model.transfer_failed (transfer_model d))
          (transfer_succeded (transfer_model d))),
     upd_tm
       (set_services srv
          (filter (fun s => sid s ∉ transfer_service_ids (transfer_model d))
                  (services srv)))
       (fun t => set_transfer_succeded t (transfer_succeded t + 1))).
Proof.
  intros Ht Hto Hfrom Hf Hle. unfold update_ongoing_model_step.
  apply Z.eqb_neq in Hfrom. rewrite Ht, Hto. simpl. rewrite Ht, Hfrom. simpl.
  unfold _update_ongoing_transfers_to_device. rewrite Hf.
  unfold update_transfer_duration. simpl.
  apply Z.leb_le in Hle. rewrite Hle. simpl.
  pose proof (download_loop_moves (transfer_service_ids (transfer_model d)) _
                (upd_tm d (fun t => set_transfer_duration t (transfer_duration t + 1)))
                srv eq_refl) as Hloop.
  simpl in Hloop. rewrite Hloop. simpl.
  rewrite filter_unpinned_twice.
  destruct d as [? ? ? ? ? ? ? ? ? ? []]. simpl in Hto. subst. reflexivity.
Qed.

Lemma update_ongoing_model_steps_last (n : nat) :
  forall (d srv : Device),
    update_ongoing_model_steps (S n) d srv
    = let '(d1, srv1) := update_ongoing_model_steps n d srv in
      update_ongoing_model_step d1 srv1.
Proof.
  assert (E : forall m d srv,
             update_ongoing_model_steps (S m) d srv
             = let '(d1, srv1) := update_ongoing_model_step d srv in
               update_ongoing_model_steps m d1 srv1) by reflexivity.
  induction n as [|n IH]; intros d srv.
  - simpl. destruct (update_ongoing_model_step d srv). reflexivity.
  - rewrite (E (S n) d srv), (E n d srv).
    destruct (update_ongoing_model_step d srv) as [d1 srv1].
    apply IH.
Qed.

(** X10.  An upload on a device that keeps some power takes exactly
    [transfer_time] update steps: while the elapsed ticks stay below
    [transfer_time] only the duration advances; the step that reaches it
    moves exactly the pinned services to the end of the server's list with
    the server as owner, leaves the other services on the device, counts
    one success on the device and resets its transfer record. *)
Theorem upload_completes_on_time (d srv : Device) (n : nat) :
  transfer (transfer_model d) = true ->
  transfer_to_device_id (transfer_model d) <> 0 ->
  transfer_from_device_id (transfer_model d) = 0 ->
  ~ (actual_power d == 0)%Q ->
  transfer_duration (transfer_model d) + Z.of_nat n + 1 = transfer_time (transfer_model d) ->
  update_ongoing_model_steps n d srv
  = (upd_tm d (fun t => set_transfer_duration t (transfer_duration t + Z.of_nat n)), srv)
  /\ let '(d', srv') := update_ongoing_model_steps (S n) d srv in
     services d'
     = filter (fun s => sid s ∉ transfer_service_ids (transfer_model d)) (services d)
     /\ services srv'
        = services srv
          ++ map (fun s => set_server s (id srv))
               (filter (fun s => sid s ∈ transfer_service_ids (transfer_model d))
                       (services d))
     /\ transfer_model d'
        = mkTransferModel false 0 (transfer_time (transfer_model d)) [] 0 0
            (Model.transfer_failed (transfer_model d))
            (transfer_succeded (transfer_model d) + 1)
     /\ d' = set_transfer_model (set_services d (services d')) (transfer_model d')
     /\ srv' = set_services srv (services srv').
Proof.
  intros Ht Hto Hfrom Hp Htime.
  assert (Hwait : update_ongoing_model_steps n d srv
                  = (upd_tm d (fun t => set_transfer_duration t
                                           (transfer_duration t + Z.of_nat n)), srv)).
  { apply waiting_steps; [exact Ht | exact Hp | lia | left; split; assumption]. }
  split; [exact Hwait|].
  rewrite update_ongoing_model_steps_last, Hwait.
  rewrite upload_final_step;
    [| exact Ht | exact Hto | apply transfer_failed_powered; exact Hp | simpl; lia].
  simpl. rewrite Hfrom. repeat split.
Qed.

Lemma upload_completes_on_time_witness :
  let '(d', srv') :=
    update_ongoing_model_steps 3 TransferScenarios.powered_uploading_edge central_server in
  map sid (services d') = [21]
  /\ map sid (services srv') = [10; 11; 12; 13; 20]
  /\ transfer (transfer_model d') = false
  /\ transfer_succeded (transfer_model d') = 1.
Proof.
  pose proof (upload_completes_on_time TransferScenarios.powered_uploading_edge
                central_server 2 eq_refl ltac:(discriminate) eq_refl
                ltac:(discriminate) eq_refl) as [_ H].
  destruct (update_ongoing_model_steps 3 TransferScenarios.powered_uploading_edge
              central_server) as [d' srv'].
  destruct H as (Hd & Hs & Ht & _ & _).
  rewrite Hd, Hs, Ht. repeat split.
Defined.

(** X11.  A download on a device that keeps some power takes exactly
    [transfer_time] update steps as well; the completing step moves the
    pinned services the server still holds to the end of the device's list
    with the device as owner, leaves the server its other services and
    counts the success on the server, not on the device. *)
Theorem download_completes_on_time (d srv : Device) (n : nat) :
  transfer (transfer_model d) = true ->
  transfer_to_device_id (transfer_model d) = 0 ->
  transfer_from_device_id (transfer_model d) <> 0 ->
  ~ (actual_power d == 0)%Q ->
  transfer_duration (transfer_model d) + Z.of_nat n + 1 = transfer_time (transfer_model d) ->
  update_ongoing_model_steps n d srv
  = (upd_tm d (fun t => set_transfer_duration t (transfer_duration t + Z.of_nat n)), srv)
  /\ let '(d', srv') := update_ongoing_model_steps (S n) d srv in
     services d'
     = services d
       ++ map (fun s => set_server s (id d))
            (filter (fun s => sid s ∈ transfer_service_ids (transfer_model d))
                    (services srv))
     /\ services srv'
        = filter (fun s => sid s ∉ transfer_service_ids (transfer_model d)) (services srv)
     /\ transfer_model d'
        = mkTransferModel false 0 (transfer_time (transfer_model d)) [] 0 0
            (Model.transfer_failed (transfer_model d))
            (transfer_succeded (transfer_model d))
     /\ transfer_succeded (transfer_model srv') = transfer_succeded (transfer_model srv) + 1
     /\ Model.transfer_failed (transfer_model srv') = Model.transfer_failed (transfer_model srv).
Proof.
  intros Ht Hto Hfrom Hp Htime.
  assert (Hwait : update_ongoing_model_steps n d srv
                  = (upd_tm d (fun t => set_transfer_duration t
                                           (transfer_duration t + Z.of_nat n)), srv)).
  { apply waiting_steps; [exact Ht | exact Hp | lia | right; split; assumption]. }
  split; [exact Hwait|].
  rewrite update_ongoing_model_steps_last, Hwait.
  rewrite download_final_step;
    [| exact Ht | exact Hto | exact Hfrom
     | apply transfer_failed_powered; exact Hp | simpl; lia].
  simpl. repeat split.
Qed.

Lemma download_completes_on_time_witness :
  let '(d', srv') :=
    update_ongoing_model_steps 3 TransferScenarios.powered_downloading_edge central_server in
  map sid (services d') = [10; 11]
  /\ map sid (services srv') = [12; 13]
  /\ transfer (transfer_model d') = false
  /\ transfer_succeded (transfer_model srv') = 1.
Proof.
  pose proof (download_completes_on_time TransferScenarios.powered_downloading_edge
                central_server 2 eq_refl eq_refl ltac:(discriminate)
                ltac:(discriminate) eq_refl) as [_ H].
  destruct (update_ongoing_model_steps 3 TransferScenarios.powered_downloading_edge
              central_server) as [d' srv'].
  destruct H as (Hd & Hs & Ht & Hc & _).
  rewrite Hd, Hs, Ht, Hc. repeat split.
Defined.

End TransferCompletion.

(** ** The download pass of [transfer_to_edge_device] *)

Module DownloadPassFacts.

Import Py PyFacts Battery Model BaseDevice ProactiveDevice DownloadPass Scenarios.
Local Open Scope Z_scope.

Lemma transferring_ids_from (devs : list Device) (acc : gset Z) (x : Z) :
  x ∈ foldl (fun acc device =>
               acc ∪ list_to_set (transfer_service_ids (transfer_model device)))
            acc devs
  <-> x ∈ acc \/ exists d, d ∈ devs /\ x ∈ transfer_service_ids (transfer_model d).
Proof.
  revert acc. induction devs as [|d devs IH]; intros acc; simpl.
  - split; [auto|]. intros [H|(d & Hd & _)]; [exact H|].
    apply elem_of_nil in Hd. destruct Hd.
  - rewrite IH. rewrite elem_of_union, elem_of_list_to_set. split.
    + intros [[H|H]|(d0 & Hd0 & Hx)].
      * left. exact H.
      * right. exists d. split; [apply elem_of_cons; left; reflexivity | exact H].
      * right. exists d0. split; [apply elem_of_cons; right; exact Hd0 | exact Hx].
    + intros [H|(d0 & Hd0 & Hx)].
      * left. left. exact H.
      * apply elem_of_cons in Hd0 as [->|Hd0].
        -- left. right. exact Hx.
        -- right. exists d0. split; assumption.
Qed.

(** The set the pass computes holds exactly the ids pinned on some device. *)
Lemma transferring_ids_spec (devs : list Device) (x : Z) :
  x ∈ transferring_ids devs
  <-> exists d, d ∈ devs /\ x ∈ transfer_service_ids (transfer_model d).
Proof.
  unfold transferring_ids. rewrite transferring_ids_from. split.
  - intros [H|H]; [|exact H]. apply elem_of_empty in H. destruct H.
  - intros H. right. exact H.
Qed.

(** One turn of the loop: the device is left as it is, or it is eligible,
    idle and has enough power, and is handed the first free-slot many
    unpinned services. *)
Lemma download_turn_cases (srv : Device) (harvester : Harvester) (P_min : Q) (lb : bool)
    (pinned : gset Z) (d d' : Device) (stt stt' : list Service) (res res' : list Result) :
  download_turn srv harvester P_min lb pinned d stt res = Some (d', stt', res') ->
  d' = d
  \/ (eligible lb d
      /\ transfer (transfer_model d) = false
      /\ high_power_trigger d P_min harvester = Some true
      /\ take (Z.to_nat (free_slots lb d)) (filter (fun s => sid s ∉ pinned) stt) <> []
      /\ d' = assign_transfer_id_to_edge_device
                (start_transfer
                   (upd_tm d (fun t => set_transfer_service_ids t
                      (map sid (take (Z.to_nat (free_slots lb d))
                                     (filter (fun s => sid s ∉ pinned) stt))))))
                (id srv)).
Proof.
  unfold download_turn. intros H.
  destruct (negb (String.eqb (model_type d) "edge_device")
            || negb (bool_decide (state d = on))) eqn:Hgate.
  { injection H as <- _ _. left. reflexivity. }
  apply orb_false_iff in Hgate as [Htype Hstate].
  apply negb_false_iff in Htype, Hstate.
  apply String.eqb_eq in Htype. apply bool_decide_eq_true in Hstate.
  fold (free_slots lb d) in H.
  destruct (if lb then free_slots lb d <=? 0
            else negb (bool_decide (services d = []))) eqn:Hroom.
  { injection H as <- _ _. left. reflexivity. }
  assert (Helig : eligible lb d).
  { split; [exact Htype|]. split; [exact Hstate|]. destruct lb.
    - apply Z.leb_gt in Hroom. split; [exact Hroom | discriminate].
    - apply negb_false_iff in Hroom. apply bool_decide_eq_true in Hroom.
      split; [reflexivity | intros _; exact Hroom]. }
  destruct (take (Z.to_nat (free_slots lb d)) (filter (fun s => sid s ∉ pinned) stt))
    as [|s l] eqn:Htake.
  { injection H as <- _ _. left. reflexivity. }
  unfold _transfer_model_to_edge_device in H.
  destruct (transfer (transfer_model d)) eqn:Ht.
  { simpl in H. injection H as <- _ _. left. reflexivity. }
  destruct (high_power_trigger d P_min harvester) as [[|]|] eqn:Hhigh;
    simpl in H; [| |discriminate].
  - injection H as <- _ _. right. repeat split; try assumption; try discriminate.
    apply Helig. apply Helig.
  - injection H as <- _ _. left. reflexivity.
Qed.

Lemma download_loop_cases (srv : Device) (harvester : Harvester) (P_min : Q) (lb : bool)
    (pinned : gset Z) (stt : list Service) (devs : list Device) :
  forall (res : list Result) (devs' : list Device) (stt' : list Service)
         (res' : list Result),
    download_loop srv harvester P_min lb pinned devs stt res = Some (devs', stt', res') ->
    Forall2
      (fun d d' =>
         d' = d
         \/ (eligible lb d
             /\ transfer (transfer_model d) = false
             /\ high_power_trigger d P_min harvester = Some true
             /\ take (Z.to_nat (free_slots lb d))
                     (filter (fun s => sid s ∉ pinned) stt) <> []
             /\ d' = assign_transfer_id_to_edge_device
                       (start_transfer
                          (upd_tm d (fun t => set_transfer_service_ids t
                             (map sid (take (Z.to_nat (free_slots lb d))
                                            (filter (fun s => sid s ∉ pinned) stt))))))
                       (id srv)))
      devs devs'.
Proof.
  induction devs as [|d devs IH]; intros res devs' stt' res' H; simpl in H.
  - injection H as <- _ _. constructor.
  - apply bind_Some in H as ([[d1 stt1] res1] & Hturn & H).
    apply bind_Some in H as ([[rest stt2] res2] & Hloop & H).
    injection H as <- _ _.
    pose proof (ProactiveFacts.download_turn_result srv harvester P_min lb pinned d stt res)
      as Hsame.
    rewrite Hturn in Hsame. destruct Hsame as [-> ->].
    constructor.
    + exact (download_turn_cases _ _ _ _ _ _ _ _ _ _ _ Hturn).
    + exact (IH _ _ _ _ Hloop).
Qed.

(** X12.  What the download pass (model offloading) does to a fleet: every
    device keeps its place and everything but its transfer record; a device
    is changed only if it is an edge device that is on, has a free slot, has
    no transfer in flight and has enough power, and then it starts a
    download from the server with at least one and at most free-slot many
    pinned ids, each the id of a service owned by the server that no device
    had pinned when the pass began. *)
Theorem download_pass_offers (srv : Device) (devs devs' : list Device)
    (harvester : Harvester) (all_services : list Service) (P_min : Q) (lb : bool)
    (res : list Result) :
  transfer_to_edge_device srv devs harvester all_services P_min model lb
  = Some (res, devs') ->
  Forall2
    (fun d d' =>
       only_transfer_changed d d'
       /\ (d' = d
           \/ (eligible lb d
               /\ transfer (transfer_model d) = false
               /\ high_power_trigger d P_min harvester = Some true
               /\ transfer (transfer_model d') = true
               /\ transfer_duration (transfer_model d') = 0
               /\ transfer_from_device_id (transfer_model d') = id srv
               /\ transfer_service_ids (transfer_model d') <> []
               /\ Z.of_nat (length (transfer_service_ids (transfer_model d')))
                  <= free_slots lb d
               /\ forall x, x ∈ transfer_service_ids (transfer_model d') ->
                    (exists s, s ∈ all_services /\ sid s = x /\ server s = id srv)
                    /\ forall d0, d0 ∈ devs ->
                         x ∉ transfer_service_ids (transfer_model d0))))
    devs devs'.
Proof.
  unfold transfer_to_edge_device. intros H.
  apply bind_Some in H as ([[devs1 stt1] res1] & Hloop & H).
  injection H as _ <-.
  apply download_loop_cases in Hloop.
  eapply Forall2_impl; [exact Hloop|].
  intros d d' [-> | (Helig & Ht & Hhigh & Hne & ->)].
  - split; [|left; reflexivity]. unfold only_transfer_changed. destruct d. reflexivity.
  - split; [reflexivity|]. right.
    split; [exact Helig|]. split; [exact Ht|]. split; [exact Hhigh|].
    simpl. split; [reflexivity|]. split; [reflexivity|]. split; [reflexivity|].
    set (offer := take (Z.to_nat (free_slots lb d))
                    (filter (fun s => sid s ∉ transferring_ids devs)
                       (filter (fun s => server s = id srv) all_services))) in *.
    split; [|split].
    + destruct offer; [contradiction | discriminate].
    + rewrite length_map. unfold offer. rewrite length_take.
      destruct Helig as (_ & _ & Hpos & _). lia.
    + intros x Hx. apply list_elem_of_In, in_map_iff in Hx as (s & <- & Hs).
      apply list_elem_of_In in Hs. apply subseteq_take in Hs.
      apply list_elem_of_filter in Hs as [Hfree Hs].
      apply list_elem_of_filter in Hs as [Hown Hs].
      split; [eauto|].
      intros d0 Hd0 Hpin. apply Hfree. apply transferring_ids_spec. eauto.
Qed.

(** With services 10 and 11 pinned on device 2 by an earlier pass, device 3
    is offered services 12 and 13. *)
Lemma download_pass_offers_witness :
  exists res d3,
    transfer_to_edge_device central_server fleet_with_pins (Plain no_traces)
      server_services 10 model true
    = Some (res, [central_server;
                  upd_tm (start_transfer (idle_edge 2))
                    (fun t => set_transfer_service_ids t [10; 11]);
                  d3])
    /\ (d3 = idle_edge 3
        \/ forall x, x ∈ transfer_service_ids (transfer_model d3) ->
             forall d0, d0 ∈ fleet_with_pins ->
               x ∉ transfer_service_ids (transfer_model d0)).
Proof.
  assert (Hrun : exists res d3,
             transfer_to_edge_device central_server fleet_with_pins (Plain no_traces)
               server_services 10 model true
             = Some (res, [central_server;
                           upd_tm (start_transfer (idle_edge 2))
                             (fun t => set_transfer_service_ids t [10; 11]);
                           d3])).
  { eexists _, _. vm_compute. reflexivity. }
  destruct Hrun as (res & d3 & Hrun). exists res, d3. split; [exact Hrun|].
  pose proof (download_pass_offers _ _ _ _ _ _ _ _ Hrun) as H.
  apply Forall2_cons_1 in H as [_ H].
  apply Forall2_cons_1 in H as [_ H].
  apply Forall2_cons_1 in H as [[_ [Heq | Hoff]] _].
  - left. exact Heq.
  - right. intros x Hx. destruct Hoff as (_ & _ & _ & _ & _ & _ & _ & _ & Hids).
    apply (Hids x Hx).
Defined.

End DownloadPassFacts.

(** ** The upload and download triggers *)

Module TriggerFacts.

Import Py PyFacts RoundingFacts Battery Model ProactiveDevice.
Local Open Scope Q_scope.

(** X13.  No device state triggers both directions at once: whenever the
    download test (high power) holds, the upload test (low power) does not,
    with and without battery, although the battery variants compare the
    charge with differently rounded thresholds.  Without battery the two
    tests are each other's negation. *)
Theorem triggers_never_both (d : Device) (P_min : Q) (h : Harvester) :
  ~ (low_power_trigger d P_min h = Some true
     /\ high_power_trigger d P_min h = Some true)
  /\ (forall e, low_power_trigger d P_min (Plain e)
                = negb <$> high_power_trigger d P_min (Plain e)).
Proof.
  split.
  - intros [Hlow Hhigh]. destruct h as [e|b]; simpl in *.
    + unfold _get_low_power, _get_high_power in *.
      destruct (Qle_bool P_min (actual_power d)); congruence.
    + unfold _get_low_battery_power, _get_high_battery_power, get_bsoc in *.
      destruct (bsoc b !! id d) as [v|]; simpl in *; [|discriminate].
      destruct (Qle_bool (P_min * (1 / 3600)) (round2 v)) eqn:Hm; simpl in Hhigh;
        [|discriminate].
      destruct (Qlt_bool (get_max_capacity b * 0.4) (round2 v)) eqn:Hband;
        [|discriminate].
      apply Qle_bool_iff in Hm.
      assert (Hr : Qle_bool (round2 (P_min * (1 / 3600))) (round2 v) = true).
      { apply Qle_bool_iff. unfold round2 at 2. apply round2_le_hundredths. exact Hm. }
      rewrite Hr in Hlow. simpl in Hlow. discriminate.
  - intros e. simpl. unfold _get_low_power, _get_high_power.
    destruct (Qle_bool P_min (actual_power d)); reflexivity.
Qed.

End TriggerFacts.

(** ** Training and prediction over many ticks *)

Module AIModelRuns.

Import Model AIModel AIModelFacts Scenarios.
Local Open Scope Z_scope.

Lemma runs_S (n : nat) (s : Service) : runs (S n) s = runs n (run s).
Proof. reflexivity. Qed.

Lemma runs_last (n : nat) : forall s, runs (S n) s = run (runs n s).
Proof.
  induction n as [|n IH]; intros s; [reflexivity|].
  rewrite runs_S. rewrite IH. reflexivity.
Qed.

(** A tick of an untrained service whose counter has not reached the
    maximum: only the training counter, the program counter and the state
    move. *)
Lemma run_untrained_step (s : Service) :
  trained s = false ->
  actual_training_time s <> max_training_time s ->
  run s = mkService (sid s) (server s) running false (max_training_time s)
            (actual_training_time s + 1) (max_prediction_time s)
            (actual_prediction_time s) (predictions_counter s) (program_counter s + 1).
Proof.
  intros Ht Hne. unfold run, increase_program_counter, predict, train_model, _state_running.
  destruct s as [i o st tr mt at_ mp ap pc prog]. simpl in *. subst tr. simpl.
  apply Z.eqb_neq in Hne. rewrite Hne. simpl. reflexivity.
Qed.

(** X14.  An untrained service whose training counter is [k] ticks short of
    [max_training_time] stays untrained for [k] ticks, the counter going up
    by one per tick while its predictions stand still, and is trained,
    with the counter back at 0, after tick [k + 1]. *)
Theorem training_takes_max_plus_one (s : Service) (k : nat) :
  trained s = false ->
  actual_training_time s + Z.of_nat k = max_training_time s ->
  (forall j, (j <= k)%nat ->
     trained (runs j s) = false
     /\ actual_training_time (runs j s) = actual_training_time s + Z.of_nat j
     /\ predictions_counter (runs j s) = predictions_counter s
     /\ actual_prediction_time (runs j s) = actual_prediction_time s)
  /\ trained (runs (S k) s) = true
  /\ actual_training_time (runs (S k) s) = 0.
Proof.
  intros Ht Hk.
  assert (Hbefore : forall j, (j <= k)%nat ->
            runs j s = mkService (sid s) (server s)
                         (if j is O then sstate s else running) false
                         (max_training_time s) (actual_training_time s + Z.of_nat j)
                         (max_prediction_time s) (actual_prediction_time s)
                         (predictions_counter s) (program_counter s + Z.of_nat j)).
  { induction j as [|j IH]; intros Hj.
    - simpl. rewrite !Z.add_0_r. destruct s. simpl in *. subst. reflexivity.
    - rewrite runs_last. rewrite IH by lia.
      rewrite run_untrained_step; [| reflexivity | simpl; lia].
      simpl. f_equal; lia. }
  split; [|].
  - intros j Hj. rewrite (Hbefore j Hj). simpl. repeat split.
  - rewrite runs_last. rewrite (Hbefore k (le_n k)).
    destruct (run_training_fields
                (mkService (sid s) (server s) (if k is O then sstate s else running) false
                   (max_training_time s) (actual_training_time s + Z.of_nat k)
                   (max_prediction_time s) (actual_prediction_time s)
                   (predictions_counter s) (program_counter s + Z.of_nat k)))
      as (-> & -> & _).
    rewrite train_model_finish; [split; reflexivity | reflexivity | simpl; exact Hk].
Qed.

Lemma training_takes_max_plus_one_witness :
  trained (runs 3 (fresh_service 10 1 3 2)) = false
  /\ trained (runs 4 (fresh_service 10 1 3 2)) = true.
Proof.
  destruct (training_takes_max_plus_one (fresh_service 10 1 3 2) 3 eq_refl eq_refl)
    as (Hb & Ht & _).
  split; [apply (Hb 3%nat); lia | exact Ht].
Defined.

(** A tick of a trained service. *)
Lemma run_trained_step (s : Service) :
  trained s = true ->
  0 <= actual_prediction_time s < max_prediction_time s ->
  run s = mkService (sid s) (server s) running true (max_training_time s)
            (actual_training_time s) (max_prediction_time s)
            (if actual_prediction_time s + 1 =? max_prediction_time s
             then 0 else actual_prediction_time s + 1)
            (predictions_counter s
             + (if actual_prediction_time s + 1 =? max_prediction_time s then 1 else 0))
            (program_counter s + 1).
Proof.
  intros Ht Hr. unfold run, increase_program_counter, predict, train_model, _state_running.
  destruct s as [i o st tr mt at_ mp ap pc prog]. simpl in *. subst tr. simpl.
  assert (Hlt : (ap <? mp) = true) by (apply Z.ltb_lt; lia).
  rewrite Hlt. simpl.
  destruct (ap + 1 =? mp); simpl; [reflexivity|].
  rewrite Z.add_0_r. reflexivity.
Qed.

(** X15.  A trained service with a positive [max_prediction_time] completes
    a prediction cycle every [max_prediction_time] ticks: after [n] ticks
    the prediction counter has grown by the quotient and the running time
    is the remainder of (running time + n) by [max_prediction_time]; the
    program counter has grown by [n], and the service is still trained with
    its training counter untouched. *)
Theorem prediction_cycles (n : nat) :
  forall s : Service,
    trained s = true ->
    0 <= actual_prediction_time s < max_prediction_time s ->
    predictions_counter (runs n s)
    = predictions_counter s
      + (actual_prediction_time s + Z.of_nat n) / max_prediction_time s
    /\ actual_prediction_time (runs n s)
       = (actual_prediction_time s + Z.of_nat n) mod max_prediction_time s
    /\ program_counter (runs n s) = program_counter s + Z.of_nat n
    /\ trained (runs n s) = true
    /\ actual_training_time (runs n s) = actual_training_time s.
Proof.
  induction n as [|n IH]; intros s Ht Hr.
  - simpl. rewrite !Z.add_0_r.
    rewrite Z.div_small by lia. rewrite Z.mod_small by lia.
    rewrite Z.add_0_r. repeat split. exact Ht.
  - rewrite runs_S. rewrite (run_trained_step s Ht Hr).
    set (m := max_prediction_time s) in *. set (a := actual_prediction_time s) in *.
    destruct (Z.eqb_spec (a + 1) m) as [He|Hne].
    + edestruct (IH (mkService (sid s) (server s) running true (max_training_time s)
                       (actual_training_time s) m 0 (predictions_counter s + 1)
                       (program_counter s + 1)))
        as (H1 & H2 & H3 & H4 & H5); [reflexivity | simpl; lia |].
      rewrite H1, H2, H3, H4, H5.
      cbn [predictions_counter actual_prediction_time program_counter
           actual_training_time max_prediction_time].
      rewrite Nat2Z.inj_succ.
      replace (a + Z.succ (Z.of_nat n)) with (1 * m + (0 + Z.of_nat n)) by lia.
      rewrite Z.div_add_l by lia. rewrite (Z.add_comm (1 * m)).
      rewrite Z.mod_add by lia.
      repeat split; lia.
    + edestruct (IH (mkService (sid s) (server s) running true (max_training_time s)
                       (actual_training_time s) m (a + 1) (predictions_counter s + 0)
                       (program_counter s + 1)))
        as (H1 & H2 & H3 & H4 & H5); [reflexivity | simpl; lia |].
      rewrite H1, H2, H3, H4, H5.
      cbn [predictions_counter actual_prediction_time program_counter
           actual_training_time max_prediction_time].
      rewrite Nat2Z.inj_succ.
      replace (a + Z.succ (Z.of_nat n)) with (a + 1 + Z.of_nat n) by lia.
      repeat split; lia.
Qed.

Lemma prediction_cycles_witness :
  predictions_counter (runs 7 (runs 4 (fresh_service 10 1 3 2))) = 4.
Proof.
  destruct (prediction_cycles 7 (runs 4 (fresh_service 10 1 3 2)) eq_refl
              ltac:(split; [discriminate | reflexivity])) as (H & _).
  rewrite H. reflexivity.
Defined.

(** X16.  A service whose training counter is already past
    [max_training_time] never becomes trained: the counter only grows and no
    prediction is ever made. *)
Theorem overshot_training_never_ends (n : nat) :
  forall s : Service,
    trained s = false ->
    max_training_time s < actual_training_time s ->
    trained (runs n s) = false
    /\ actual_training_time (runs n s) = actual_training_time s + Z.of_nat n
    /\ predictions_counter (runs n s) = predictions_counter s.
Proof.
  induction n as [|n IH]; intros s Ht Hover.
  - simpl. rewrite Z.add_0_r. repeat split. exact Ht.
  - rewrite runs_S. rewrite run_untrained_step; [| exact Ht | lia].
    edestruct (IH (mkService (sid s) (server s) running false (max_training_time s)
                     (actual_training_time s + 1) (max_prediction_time s)
                     (actual_prediction_time s) (predictions_counter s)
                     (program_counter s + 1)))
      as (H1 & H2 & H3); [reflexivity | simpl; lia |].
    rewrite H1, H2, H3.
    cbn [predictions_counter actual_training_time]. rewrite Nat2Z.inj_succ.
    repeat split. lia.
Qed.

Lemma overshot_training_never_ends_witness :
  trained (runs 50 (fresh_service 10 1 (-1) 2)) = false.
Proof.
  destruct (overshot_training_never_ends 50 (fresh_service 10 1 (-1) 2) eq_refl
              ltac:(reflexivity)) as (H & _).
  exact H.
Defined.

End AIModelRuns.

(** ** What the validation guarantees *)

Module ConfigSoundness.

Import Config ConfigSpec ConfigFacts Scenarios.
Local Open Scope string_scope.

Lemma is_str_true (s : string) (v : yaml) : is_str s v = true -> v = YStr s.
Proof.
  destruct v; simpl; try discriminate.
  intros H. apply String.eqb_eq in H. subst. reflexivity.
Qed.

Lemma in_tuple_one_of (v : yaml) (names : list string) :
  in_tuple v names = true -> one_of v names.
Proof.
  unfold in_tuple. intros H. apply existsb_exists in H as (s & Hin & Hs).
  exists s. split; [apply is_str_true; exact Hs | exact Hin].
Qed.

Lemma is_bool_true (v : yaml) : is_bool v = true -> exists b, v = YBool b.
Proof. destruct v; simpl; try discriminate. eauto. Qed.

Lemma or_else_false (a : bool) (b : result bool) :
  or_else (Ok a) b = Ok false -> a = false /\ b = Ok false.
Proof. unfold or_else. simpl. destruct a; [discriminate | auto]. Qed.

Lemma py_le_false (v : yaml) : py_le v 0 = Ok false -> positive_or_nan v.
Proof.
  unfold py_le, positive_or_nan, positive.
  destruct v as [|b|n|q|negative| | | |]; simpl; try discriminate.
  - intros [= H]. left. eexists. split; [reflexivity|].
    apply PyFacts.Qle_bool_false_iff. exact H.
  - intros [= H]. left. eexists. split; [reflexivity|].
    apply PyFacts.Qle_bool_false_iff. exact H.
  - intros [= H]. left. eexists. split; [reflexivity|].
    apply PyFacts.Qle_bool_false_iff. exact H.
  - destruct negative; [discriminate|]. intros _. right. left. reflexivity.
  - intros _. right. right. reflexivity.
Qed.

Lemma not_positive_int_false (v : yaml) :
  not_positive_int v = Ok false -> is_int v = true /\ positive v.
Proof.
  unfold not_positive_int. intros H. apply or_else_false in H as [Hi Hp].
  apply negb_false_iff in Hi. split; [exact Hi|].
  apply py_le_false in Hp as [Hp | [-> | ->]]; [exact Hp | discriminate | discriminate].
Qed.

Lemma not_positive_number_false (v : yaml) :
  not_positive_number v = Ok false -> is_number v = true /\ positive_or_nan v.
Proof.
  unfold not_positive_number. intros H. apply or_else_false in H as [Hi Hp].
  apply negb_false_iff in Hi. split; [exact Hi | apply py_le_false; exact Hp].
Qed.

Lemma num_le_false (y x : number) :
  num_le y x = false -> x = NaN \/ y = NaN \/ num_below x y.
Proof.
  destruct x as [a|[|]|], y as [b|[|]|]; simpl; intros H;
    try discriminate; auto.
  right. right. apply PyFacts.Qle_bool_false_iff. exact H.
Qed.

Ltac step H x Hx := apply bind_Ok in H as (x & Hx & H).
Ltac check H c Hc :=
  let u := fresh "u" in
  let Hu := fresh "Hu" in
  apply bind_Ok in H as (c & Hc & H);
  apply bind_Ok in H as (u & Hu & H);
  destruct u; apply raise_if_Ok in Hu; subst c.

(** X17.  A configuration that passes [validate] satisfies every constraint
    the function tests, as far as its comparisons enforce it: the three
    enumerations, the two flags, a positive integer step count and positive
    integer service limits; the threshold is a number that is positive,
    [inf] or [nan], since [nan <= 0] is false; and, with the battery
    enabled, the threshold is below the required battery power unless one
    of the two is [nan], since [nan >= r] and [t >= nan] are false. *)
Theorem validate_sound (config : yaml) :
  validate config = Ok tt -> valid_config config.
Proof.
  unfold validate. intros H.
  step H u0 H0.
  check H c1 H1. check H c2 H2. check H c3 H3. check H c4 H4.
  step H off Hoff. step H u5 H5. destruct u5. apply raise_if_Ok, negb_false_iff in H5.
  step H topo Htop. step H u6 H6. destruct u6. apply raise_if_Ok, negb_false_iff in H6.
  step H str Hstr. step H u7 H7. destruct u7. apply raise_if_Ok, negb_false_iff in H7.
  step H lb Hlb. step H u8 H8. destruct u8. apply raise_if_Ok, negb_false_iff in H8.
  step H ce Hce. step H u9 H9. destruct u9. apply raise_if_Ok, negb_false_iff in H9.
  step H steps Hsteps. check H c10 H10.
  step H thr Hthr. check H c11 H11.
  step H rmax Hrmax. check H c12 H12.
  step H omax Homax. check H c13 H13.
  step H str2 Hstr2. step H u14 H14.
  step H en Hen. step H c15 H15. apply raise_if_Ok in H. subst c15.
  apply is_bool_true in H8 as [b1 ->]. apply is_bool_true in H9 as [b2 ->].
  apply not_positive_int_false in H10 as [? ?].
  apply not_positive_number_false in H11 as [? ?].
  apply not_positive_int_false in H12 as [? ?].
  apply not_positive_int_false in H13 as [? ?].
  unfold valid_config.
  split; [exists off; split; [exact Hoff | apply in_tuple_one_of; exact H5]|].
  split; [exists topo; split; [exact Htop | apply in_tuple_one_of; exact H6]|].
  split; [exists str; split; [exact Hstr | apply in_tuple_one_of; exact H7]|].
  split; [eauto|]. split; [eauto|].
  split; [eauto|]. split; [eauto|]. split; [eauto|]. split; [eauto|].
  exists en. split; [exact Hen|]. intros Htruthy. rewrite Htruthy in H15.
  step H15 t Ht. step H15 r Hr.
  unfold py_ge in H15.
  destruct (as_number t) as [x|] eqn:Et; [|discriminate].
  destruct (as_number r) as [y|] eqn:Er; [|discriminate].
  injection H15 as H15. apply num_le_false in H15.
  exists t, r. split; [exact Ht|]. split; [exact Hr|].
  exists x, y. auto.
Qed.

Lemma validate_sound_witness : valid_config (battery_config (YFloat 10)).
Proof. apply validate_sound. reflexivity. Defined.

(** The threshold [nan] does pass the validation, with the battery enabled
    too; a threshold of 20, the required battery power, does not. *)
Example validate_accepts_nan_threshold :
  validate (battery_config YNaN) = Ok tt
  /\ validate (battery_config (YFloat 20))
     = Raise (ValueError ("Config - Invalid input for [proactive][min_power_threshold]!"
                          ++ hint "Must be lower than the battery power required.")).
Proof. split; reflexivity. Qed.

End ConfigSoundness.

(** ** What [main] starts *)

Module ConfigMain.

Import Config ConfigSpec ConfigFacts ConfigSoundness Scenarios.
Local Open Scope string_scope.

Lemma valid_strategy_cases (v : yaml) :
  in_tuple v ["reactive"; "proactive"; "oracle"] = true ->
  exists s, v = YStr (strategy_name s).
Proof.
  intros H. apply in_tuple_one_of in H as (n & -> & Hin).
  destruct Hin as [<-|[<-|[<-|[]]]];
    [exists reactive | exists proactive | exists oracle]; reflexivity.
Qed.

Section Main.

Variable logging : yaml -> yaml -> result unit.
Variable simulate : Strategy -> yaml -> result unit.

Lemma main_body_after_validation (config : yaml) (s : Strategy) :
  validate config = Ok tt ->
  py_getitem config "strategy" = Ok (YStr (strategy_name s)) ->
  main_body logging simulate config
  = match (i <- py_getitem config "info" ;; d <- py_getitem config "debug" ;;
           logging i d) with
    | Raise e => (Raise e, [])
    | Ok _ => match simulate s config with
              | Ok _ => (Ok true, [s])
              | Raise e => (Raise e, [s])
              end
    end.
Proof.
  intros Hv Hs. unfold main_body. rewrite Hv.
  destruct (i <- py_getitem config "info" ;; d <- py_getitem config "debug" ;;
            logging i d) as [[]|e]; [|reflexivity].
  unfold run_if. rewrite Hs.
  destruct s; cbn; destruct (simulate _ config) as [[]|e]; reflexivity.
Qed.

(** X18.  [main] starts a simulation only on a configuration that passed
    the validation, and then exactly one, the one the strategy names; it
    returns true exactly when that simulation completes, and it never
    returns true without having run one. *)
Theorem main_runs_one_validated_simulation
    (config : yaml) (o : outcome) (st : list Strategy) :
  main logging simulate config = (o, st) ->
  (o = Returns true -> st <> [])
  /\ (st <> [] ->
      validate config = Ok tt
      /\ exists s, st = [s]
                   /\ py_getitem config "strategy" = Ok (YStr (strategy_name s))
                   /\ (o = Returns true <-> simulate s config = Ok tt)).
Proof.
  intros H. unfold main in H.
  destruct (validate config) as [[]|e] eqn:Hv.
  - destruct (validate_Ok_strategy config Hv) as (v & Hstr & Hin).
    destruct (valid_strategy_cases v Hin) as [s ->].
    rewrite (main_body_after_validation config s Hv Hstr) in H.
    destruct (i <- py_getitem config "info" ;; d <- py_getitem config "debug" ;;
              logging i d) as [[]|e].
    + destruct (simulate s config) as [[]|e] eqn:Hsim.
      * injection H as <- <-. split; [discriminate|]. intros _.
        split; [reflexivity|]. exists s. repeat split; auto.
      * assert (Ho : o <> Returns true) by (destruct e; injection H as <- _; discriminate).
        assert (Hst : st = [s]) by (destruct e; injection H as _ <-; reflexivity).
        split; [intros Ht; contradiction|]. intros _.
        split; [reflexivity|]. exists s. split; [exact Hst|]. split; [exact Hstr|].
        split; [intros Ht; contradiction | intros Hx; congruence].
    + assert (Hst : st = []) by (destruct e; injection H as _ <-; reflexivity).
      assert (Ho : o <> Returns true) by (destruct e; injection H as <- _; discriminate).
      split; [intros Ht; contradiction | intros Hne; contradiction].
  - unfold main_body in H. rewrite Hv in H.
    assert (Hst : st = []) by (destruct e; injection H as _ <-; reflexivity).
    assert (Ho : o <> Returns true) by (destruct e; injection H as <- _; discriminate).
    split; [intros Ht; contradiction | intros Hne; contradiction].
Qed.

End Main.

Lemma main_runs_one_validated_simulation_witness :
  validate (config_with "reactive" true) = Ok tt
  /\ simulate_ok reactive (config_with "reactive" true) = Ok tt.
Proof.
  destruct (main_runs_one_validated_simulation logging_ok simulate_ok
              (config_with "reactive" true) (Returns true) [reactive] eq_refl)
    as [_ H].
  destruct (H ltac:(discriminate)) as (Hv & s & Hs & _ & Hiff).
  injection Hs as <-. split; [exact Hv | apply Hiff; reflexivity].
Defined.

Lemma check_required_missing (m : list (string * yaml)) (keys : list string) :
  (forall k, In k keys -> assoc k m <> None) /\ check_required (YMap m) keys = Ok tt
  \/ exists k, In k keys /\ assoc k m = None
               /\ check_required (YMap m) keys
                  = Raise (ValueError ("Config - Missing required key: " ++ k)).
Proof.
  induction keys as [|key keys IH]; simpl.
  - left. split; [intros k []|reflexivity].
  - destruct (assoc key m) as [v|] eqn:Hk; simpl.
    + destruct IH as [[Hall Hok] | (k & Hin & Hnone & Hraise)].
      * left. split; [|exact Hok]. intros k [<-|Hin]; [congruence | auto].
      * right. exists k. auto.
    + right. exists key. auto.
Qed.

Section Missing.

Variable logging : yaml -> yaml -> result unit.
Variable simulate : Strategy -> yaml -> result unit.

(** X19.  On a configuration mapping that lacks one of the seven required
    top-level keys, [validate] raises the [ValueError] that names a missing
    key, and [main] returns false without starting a simulation. *)
Theorem missing_required_key_is_refused (m : list (string * yaml)) (key : string) :
  In key required_keys ->
  assoc key m = None ->
  exists k, In k required_keys /\ assoc k m = None
            /\ validate (YMap m)
               = Raise (ValueError ("Config - Missing required key: " ++ k))
            /\ main logging simulate (YMap m) = (Returns false, []).
Proof.
  intros Hin Hnone.
  destruct (check_required_missing m required_keys)
    as [[Hall _] | (k & Hk & Hkn & Hraise)].
  - exfalso. exact (Hall key Hin Hnone).
  - exists k. split; [exact Hk|]. split; [exact Hkn|].
    assert (Hv : validate (YMap m)
                 = Raise (ValueError ("Config - Missing required key: " ++ k))).
    { unfold validate. rewrite Hraise. reflexivity. }
    split; [exact Hv|]. unfold main, main_body. rewrite Hv. reflexivity.
Qed.

End Missing.

Lemma missing_required_key_is_refused_witness :
  main logging_ok simulate_ok (YMap [("info", YBool true)]) = (Returns false, []).
Proof.
  destruct (missing_required_key_is_refused logging_ok simulate_ok
              [("info", YBool true)] "debug"
              ltac:(right; left; reflexivity) eq_refl) as (k & _ & _ & _ & H).
  exact H.
Defined.

End ConfigMain.

(** ** How the energy series is dealt out to the devices *)

Module SplitFacts.

Import HarvesterData.
Local Open Scope nat_scope.

Lemma fold_insert_lookup_other {V} (l : list (Z * V)) (m0 : gmap Z V) (k : Z) :
  k ∉ l.*1 ->
  fold_left (fun (m : gmap Z V) '(k, v) => <[k := v]> m) l m0 !! k = m0 !! k.
Proof.
  revert m0. induction l as [|[k' v'] l IH]; intros m0 Hk; [done|].
  rewrite fmap_cons, not_elem_of_cons in Hk. destruct Hk as [Hne Hk]. simpl in Hne.
  simpl. rewrite IH by done. by apply lookup_insert_ne.
Qed.

Lemma fold_insert_lookup {V} (l : list (Z * V)) (m0 : gmap Z V) (i : nat) (k : Z) (v : V) :
  NoDup l.*1 -> l !! i = Some (k, v) ->
  fold_left (fun (m : gmap Z V) '(k, v) => <[k := v]> m) l m0 !! k = Some v.
Proof.
  revert m0 i. induction l as [|[k' v'] l IH]; intros m0 i Hnd Hi; [done|].
  rewrite fmap_cons in Hnd. apply NoDup_cons in Hnd as [Hk' Hnd]. simpl in Hk'.
  destruct i as [|i]; simpl in Hi.
  - injection Hi as -> ->. simpl.
    rewrite fold_insert_lookup_other by done. apply lookup_insert_eq.
  - simpl. eapply IH; eauto.
Qed.

Lemma fold_enumerate {V} (g : nat -> V) (ids : list Z) (o : nat) (m0 : gmap Z V) :
  fold_left (fun (m : gmap Z V) '(i, device_id) => <[device_id := g i]> m)
    (imap (fun i => pair (o + i)) ids) m0
  = fold_left (fun (m : gmap Z V) '(k, v) => <[k := v]> m)
      (imap (fun i device_id => (device_id, g (o + i))) ids) m0.
Proof.
  revert o m0. induction ids as [|device_id ids IH]; intros o m0; [done|].
  simpl. rewrite Nat.add_0_r.
  trans (fold_left (fun (m : gmap Z V) '(i, device_id) => <[device_id := g i]> m)
           (imap (fun i => pair (S o + i)) ids) (<[device_id := g o]> m0)).
  { f_equal. apply imap_ext. intros; simpl; f_equal; lia. }
  rewrite IH. f_equal. apply imap_ext. intros; simpl; do 2 f_equal; lia.
Qed.

Lemma split_energy_data_fold (energy_data : list Q) (device_ids : list Z) :
  device_ids <> [] ->
  split_energy_data energy_data device_ids
  = Some (fold_left (fun (m : gmap Z (list Q)) '(k, v) => <[k := v]> m)
            (imap (fun i device_id => (device_id, chunk energy_data (length device_ids) i))
               device_ids) ∅).
Proof.
  intros Hne. unfold split_energy_data.
  destruct (decide (length device_ids = 0)) as [H0|_].
  { destruct device_ids; [done|discriminate]. }
  f_equal.
  exact (fold_enumerate (chunk energy_data (length device_ids)) device_ids 0 ∅).
Qed.

Lemma split_energy_data_lookup (energy_data : list Q) (device_ids : list Z)
    (i : nat) (device_id : Z) :
  NoDup device_ids -> device_ids !! i = Some device_id ->
  exists m, split_energy_data energy_data device_ids = Some m
            /\ m !! device_id = Some (chunk energy_data (length device_ids) i).
Proof.
  intros Hnd Hi.
  assert (Hne : device_ids <> []) by (intros ->; done).
  eexists. split; [apply split_energy_data_fold, Hne|].
  apply (fold_insert_lookup _ _ i).
  - rewrite fmap_imap. simpl. 
    rewrite (imap_ext _ (const id) device_ids) by done.
    rewrite imap_const, list_fmap_id. exact Hnd.
  - rewrite list_lookup_imap, Hi. reflexivity.
Qed.

Lemma slices_concat {A} (series : list A) (c k : nat) :
  concat (map (fun i => slice series (i * c) (i * c + c)) (seq 0 k)) = take (k * c) series.
Proof.
  induction k as [|k IH]; [done|].
  rewrite seq_S, map_app, concat_app, IH. cbn [map concat Nat.add]. rewrite app_nil_r.
  unfold slice. replace (S k * c) with (k * c + c) by lia.
  trans (take (k * c) (take (k * c + c) series) ++ drop (k * c) (take (k * c + c) series));
    [|apply take_drop].
  f_equal. rewrite take_take. f_equal. lia.
Qed.

Lemma chunks_concat (energy_data : list Q) (n : nat) :
  n <> 0 ->
  concat (map (chunk energy_data n) (seq 0 n)) = energy_data.
Proof.
  intros Hn. destruct n as [|k]; [done|].
  rewrite seq_S, map_app, concat_app. cbn [map concat Nat.add]. rewrite app_nil_r.
  unfold chunk. set (c := length energy_data / S k).
  rewrite (map_ext_in _ (fun i => slice energy_data (i * c) (i * c + c))).
  2:{ intros i Hi. apply in_seq in Hi. destruct (decide (i <> S k - 1)); [reflexivity|lia]. }
  rewrite slices_concat.
  destruct (decide (k <> S k - 1)); [lia|].
  unfold slice. rewrite firstn_all. apply take_drop.
Qed.

Lemma split_energy_data_outside (energy_data : list Q) (device_ids : list Z)
    (split_data : gmap Z (list Q)) (device_id : Z) :
  split_energy_data energy_data device_ids = Some split_data ->
  device_id ∉ device_ids -> split_data !! device_id = None.
Proof.
  intros Hs Hout.
  assert (Hne : device_ids <> []) by (intros ->; discriminate).
  pose proof (split_energy_data_fold energy_data device_ids Hne) as Hf.
  rewrite Hs in Hf. apply (inj Some) in Hf. subst split_data.
  rewrite fold_insert_lookup_other; [apply lookup_empty|].
  rewrite fmap_imap.
  rewrite (imap_ext _ (const id) device_ids) by done.
  rewrite imap_const, list_fmap_id. exact Hout.
Qed.

Lemma chunk_length (energy_data : list Q) (n i : nat) :
  i < n ->
  length (chunk energy_data n i)
  = if decide (i <> n - 1) then length energy_data / n
    else length energy_data - i * (length energy_data / n).
Proof.
  intros Hi. unfold chunk, slice. set (c := length energy_data / n).
  assert (Hc : n * c <= length energy_data) by (apply Nat.Div0.mul_div_le).
  rewrite length_drop, length_take.
  destruct (decide (i <> n - 1)); [nia|lia].
Qed.

Lemma chunk_lookup (energy_data : list Q) (n i t : nat) :
  t < length (chunk energy_data n i) ->
  chunk energy_data n i !! t = energy_data !! (i * (length energy_data / n) + t).
Proof.
  unfold chunk, slice. set (c := length energy_data / n). intros Ht.
  rewrite length_drop, length_take in Ht.
  rewrite lookup_drop. apply lookup_take_lt. lia.
Qed.

(** X20.  [split_energy_data] raises on an empty list of device ids.  For
    distinct ids it deals the series out in consecutive runs, in the order
    of the ids: the traces put end to end give the series back, the device
    at position [i] reads sample [i * chunk_size + t] at tick [t], every
    device but the last gets [chunk_size = len // n] samples and the last
    one all that remain; no other id gets a trace. *)
Theorem split_energy_data_deals_consecutive_runs
    (energy_data : list Q) (device_ids : list Z) :
  split_energy_data energy_data [] = None
  /\ (NoDup device_ids -> device_ids <> [] ->
      let chunk_size := length energy_data / length device_ids in
      exists split_data,
        split_energy_data energy_data device_ids = Some split_data
        /\ (forall device_id, device_id ∉ device_ids -> split_data !! device_id = None)
        /\ concat (map (fun device_id => default [] (split_data !! device_id)) device_ids)
           = energy_data
        /\ forall i device_id, device_ids !! i = Some device_id ->
             exists trace,
               split_data !! device_id = Some trace
               /\ length trace
                  = (if decide (i <> length device_ids - 1) then chunk_size
                     else length energy_data - i * chunk_size)
               /\ forall t, t < length trace ->
                    trace !! t = energy_data !! (i * chunk_size + t)).
Proof.
  split; [reflexivity|]. intros Hnd Hne chunk_size.
  destruct (split_energy_data energy_data device_ids) as [split_data|] eqn:Hs.
  2:{ rewrite split_energy_data_fold in Hs by done. discriminate. }
  assert (Hat : forall i device_id, device_ids !! i = Some device_id ->
            split_data !! device_id = Some (chunk energy_data (length device_ids) i)).
  { intros i device_id Hi.
    destruct (split_energy_data_lookup energy_data device_ids i device_id Hnd Hi)
      as (m & Hm & Hl).
    congruence. }
  exists split_data. split; [reflexivity|]. split; [|split].
  - intros device_id. apply split_energy_data_outside with energy_data. exact Hs.
  - rewrite <- (chunks_concat energy_data (length device_ids))
      by (destruct device_ids; [done|discriminate]).
    f_equal. apply list_eq. intros i.
    rewrite !list_lookup_fmap.
    destruct (device_ids !! i) as [device_id|] eqn:Hi; simpl.
    + rewrite (Hat i device_id Hi). simpl.
      apply lookup_lt_Some in Hi.
      rewrite lookup_seq_lt by exact Hi. reflexivity.
    + apply lookup_ge_None in Hi.
      rewrite lookup_seq_ge by exact Hi. reflexivity.
  - intros i device_id Hi. exists (chunk energy_data (length device_ids) i).
    split; [exact (Hat i device_id Hi)|]. split.
    + apply chunk_length. apply lookup_lt_Some in Hi. exact Hi.
    + intros t. apply chunk_lookup.
Qed.

Lemma split_energy_data_deals_consecutive_runs_witness :
  exists split_data,
    split_energy_data week [1; 2; 3]%Z = Some split_data
    /\ split_data !! 3%Z = Some [5; 6; 7]%Q.
Proof.
  destruct (split_energy_data_deals_consecutive_runs week [1; 2; 3]%Z) as [_ H].
  destruct H as (split_data & Hs & _ & _ & Hat).
  - apply (bool_decide_unpack _). vm_compute. reflexivity.
  - discriminate.
  - exists split_data. split; [exact Hs|].
    destruct (Hat 2 3%Z eq_refl) as (trace & Ht & Hlen & Hl).
    rewrite Ht. f_equal. simpl in Hlen.
    destruct trace as [|a [|b [|c [|]]]]; try discriminate.
    pose proof (Hl 0 ltac:(simpl; lia)) as H0.
    pose proof (Hl 1 ltac:(simpl; lia)) as H1.
    pose proof (Hl 2 ltac:(simpl; lia)) as H2.
    simpl in H0, H1, H2. congruence.
Defined.

End SplitFacts.

(** ** Heartbeats and load balancing *)

Module HeartbeatFacts.

Import Model HeartbeatProtocol.

Lemma available_Some {A} (l r : list A) :
  available l = Some r -> r = l /\ l <> [].
Proof. destruct l; [discriminate|]. intros [= <-]. done. Qed.

Lemma available_None {A} (l : list A) : available l = None -> l = [].
Proof. destruct l; [done|discriminate]. Qed.

Lemma get_heartbeat_true (d : Device) : get_heartbeat d = true <-> state d <> off.
Proof. unfold get_heartbeat. destruct (decide (state d <> off)); split; auto; discriminate. Qed.

(** X21.  [HeartbeatProtocol.run] reports a heartbeat exactly for a device
    that is not off, and looks for partners only without one.  The partners
    it returns are never an empty list and never contain the silent device
    itself: they are, in fleet order, exactly the devices of the fleet
    named in the partner list that are not off, active, and hold fewer than
    [max_services] services.  It returns [None] for a silent device only
    when the fleet has no such device. *)
Theorem run_returns_live_partners (partners : list Z) (d : Device)
    (all_devices : list Device) (max_services : Z)
    (heartbeat : bool) (r : option (list Device)) :
  run partners d all_devices max_services = (heartbeat, r) ->
  (heartbeat = true <-> state d <> off)
  /\ (heartbeat = true -> r = None)
  /\ (forall l, r = Some l ->
        l <> [] /\ (d ∉ l) /\ sublist l all_devices
        /\ forall p, p ∈ l <->
             p ∈ all_devices /\ id p ∈ partners /\ state p <> off
             /\ active p = true /\ Z.of_nat (length (services p)) < max_services)
  /\ (heartbeat = false -> r = None ->
      forall p, p ∈ all_devices -> id p ∈ partners -> state p <> off ->
                active p = true -> max_services <= Z.of_nat (length (services p))).
Proof.
  unfold run. intros H.
  destruct (get_heartbeat d) eqn:Hb; simpl in H; injection H as <- <-.
  - apply get_heartbeat_true in Hb.
    split; [tauto|]. split; [reflexivity|]. split; [discriminate|]. discriminate.
  - assert (Hoff : state d = off).
    { destruct (decide (state d = off)) as [|Hn]; [assumption|].
      apply get_heartbeat_true in Hn. congruence. }
    split; [split; [discriminate | congruence]|].
    split; [discriminate|]. split.
    + intros l Hl. unfold _get_partner_edge_devices in Hl.
      apply available_Some in Hl as [-> Hne].
      split; [exact Hne|].
      assert (Hmem : forall p,
                p ∈ filter (fun device =>
                     id device ∈ partners
                     /\ (state device <> off /\ active device = true
                         /\ Z.of_nat (length (services device)) < max_services))
                   all_devices <->
                p ∈ all_devices /\ id p ∈ partners /\ state p <> off
                /\ active p = true /\ Z.of_nat (length (services p)) < max_services).
      { intros p. rewrite list_elem_of_filter. tauto. }
      split; [|split; [apply sublist_filter | exact Hmem]].
      intros Hd. apply Hmem in Hd. tauto.
    + intros _ Hr p Hin Hp Hs Ha.
      unfold _get_partner_edge_devices in Hr. apply available_None in Hr.
      destruct (decide (Z.of_nat (length (services p)) < max_services)) as [Hlt|]; [|lia].
      exfalso.
      assert (Hp' : p ∈ filter (fun device =>
                     id device ∈ partners
                     /\ (state device <> off /\ active device = true
                         /\ Z.of_nat (length (services device)) < max_services))
                   all_devices) by (apply list_elem_of_filter; tauto).
      rewrite Hr in Hp'. by apply elem_of_nil in Hp'.
Qed.

Lemma run_returns_live_partners_witness :
  run [3] Scenarios.uploading_edge Scenarios.fleet 2 = (false, Some [Scenarios.idle_edge 3])
  /\ Scenarios.uploading_edge ∉ [Scenarios.idle_edge 3].
Proof.
  assert (H : run [3] Scenarios.uploading_edge Scenarios.fleet 2
              = (false, Some [Scenarios.idle_edge 3])) by (vm_compute; reflexivity).
  split; [exact H|].
  destruct (run_returns_live_partners _ _ _ _ _ _ H) as (_ & _ & Hl & _).
  destruct (Hl _ eq_refl) as (_ & Hd & _). exact Hd.
Defined.

End HeartbeatFacts.

Module LoadbalancerFacts.

Import Model HeartbeatProtocol Loadbalancer HeartbeatFacts.

(** The partners of the loop that pass its test. *)
Lemma run_turn_cases (d : Device) (n : Z) (acc : list Device * list Service) (p : Device) :
  (Z.of_nat (length (services p)) < max_services p /\ state p <> off
   /\ run_turn d n acc p
      = (fst acc ++ [p], take (Z.to_nat (n - max_services p)) (services d)))
  \/ (~ (Z.of_nat (length (services p)) < max_services p /\ state p <> off)
      /\ run_turn d n acc p = acc).
Proof.
  unfold run_turn.
  destruct (bool_decide (Z.of_nat (length (services p)) < max_services p)) eqn:Hl;
    [apply bool_decide_eq_true in Hl | apply bool_decide_eq_false in Hl];
    (destruct (get_heartbeat p) eqn:Hb).
  - apply get_heartbeat_true in Hb. left. split; [done|]. split; [done|]. simpl.
    do 2 f_equal. lia.
  - right. split; [|done]. intros [_ Hs]. apply get_heartbeat_true in Hs. congruence.
  - right. split; [tauto|done].
  - right. split; [tauto|done].
Qed.

Lemma run_loop (d : Device) (n : Z) (ps : list Device) (acc : list Device * list Service) :
  let q := filter (fun p => Z.of_nat (length (services p)) < max_services p
                            /\ state p <> off) ps in
  fold_left (run_turn d n) ps acc
  = (fst acc ++ q,
     match last q with
     | Some p => take (Z.to_nat (n - max_services p)) (services d)
     | None => snd acc
     end).
Proof.
  revert acc. induction ps as [|p ps IH]; intros [pd servs].
  - simpl. by rewrite app_nil_r.
  - simpl fold_left. rewrite IH.
    destruct (run_turn_cases d n (pd, servs) p) as [(Hl & Hs & ->) | (Hn & ->)].
    + rewrite filter_cons_True by done. simpl fst. simpl snd.
      rewrite <- app_assoc. simpl. f_equal.
      destruct (filter _ ps) as [|x xs] eqn:Hf; [done|].
      rewrite !last_cons. destruct (last xs); reflexivity.
    + rewrite filter_cons_False by done. reflexivity.
Qed.

(** X22.  [Loadbalancer.run] returns a pair exactly in this case: the
    partner list is, in fleet order, every device named in the partner
    list that is on, active and holds fewer services than it has free
    cores; the services are the first [num_services - c] services of the
    edge device, where [c] is the free-core bound of the LAST of these
    partners alone, and they are not empty. *)
Theorem run_hands_prefix_sized_by_last_partner (partners : list Z) (d : Device)
    (num_services : Z) (all_devices : list Device)
    (partner_devices : list Device) (servs : list Service) :
  Loadbalancer.run partners d num_services all_devices = Some (partner_devices, servs)
  <-> partner_devices = filter (takes_load partners) all_devices
      /\ servs <> []
      /\ exists p, last partner_devices = Some p
                   /\ servs = take (Z.to_nat (num_services - max_services p)) (services d).
Proof.
  unfold Loadbalancer.run, get_online_partner_edge_devices.
  set (online := filter _ all_devices).
  assert (Hq : filter (fun p => Z.of_nat (length (services p)) < max_services p
                                /\ state p <> off) online
               = filter (takes_load partners) all_devices).
  { subst online. rewrite list_filter_filter. apply list_filter_iff.
    intros p. unfold takes_load. split; [tauto|].
    intros [(Hp & Hon & Ha) Hl]. repeat split; try done. congruence. }
  destruct (available online) as [ps|] eqn:Hav.
  - apply available_Some in Hav as [-> _].
    rewrite run_loop. rewrite Hq. simpl fst. simpl snd. simpl app.
    destruct (filter (takes_load partners) all_devices) as [|x xs] eqn:Hf.
    + simpl. split; [discriminate|]. intros (-> & _ & p & Hp & _). discriminate.
    + destruct (last (x :: xs)) as [p|] eqn:Hlast.
      2:{ rewrite last_None in Hlast. discriminate. }
      destruct (take (Z.to_nat (num_services - max_services p)) (services d))
        as [|s ss] eqn:Ht.
      * split; [discriminate|]. intros (-> & Hne & p' & Hp' & ->).
        rewrite Hlast in Hp'. injection Hp' as <-. congruence.
      * split.
        -- intros [= <- <-]. split; [done|]. split; [done|]. exists p. by rewrite Ht.
        -- intros (-> & Hne & p' & Hp' & ->).
           rewrite Hlast in Hp'. injection Hp' as <-. by rewrite Ht.
  - apply available_None in Hav. rewrite Hav in Hq. rewrite filter_nil in Hq.
    rewrite <- Hq. split; [discriminate|]. intros (-> & _ & p & Hp & _). discriminate.
Qed.

Lemma run_hands_prefix_sized_by_last_partner_witness :
  Loadbalancer.run [3] crowded_edge 3 [Scenarios.central_server; crowded_edge; Scenarios.idle_edge 3]
  = Some ([Scenarios.idle_edge 3], [Scenarios.fresh_service 20 2 3 2]).
Proof.
  apply run_hands_prefix_sized_by_last_partner.
  split; [vm_compute; reflexivity|]. split; [discriminate|].
  exists (Scenarios.idle_edge 3). split; vm_compute; reflexivity.
Defined.

End LoadbalancerFacts.
